(** * AI-Story-Agents: the message-passing orchestration core

    A shallow embedding of
      - [src/distributed/message_broker.py]   (Message, MessageBroker),
      - [src/distributed/agent_service.py]    (AgentService),
      - [src/distributed/distributed_orchestrator.py] (DistributedOrchestrator),
      - [src/agents/base_agent.py]            (Message, receive_message),
      - [src/agents/author_agent.py]          (the describe_scene path),
      - [src/orchestrator/coordinator.py]     (StoryOrchestrator),
    followed by the properties of the specification that were checked
    against it.  Definitions come first, theorems after them. *)

From stdpp Require Import gmap strings list fin_maps pretty.
From Stdlib Require Import Ascii String ZArith Lia.

Open Scope string_scope.

(** ** Python values, exceptions and the effect monad *)

Module Py.

(** The Python values that occur in message payloads and results. *)
#[warnings="-register-all"] Inductive pyval : Type :=
  | VNone
  | VBool (b : bool)
  | VInt (n : Z)
  | VStr (s : string)
  | VList (l : list pyval)
  | VDict (d : gmap string pyval).

(** [Dict[str, Any]] *)
Abbreviation dict := (gmap string pyval).

(** An instance of [Exception]: its class name and [str(e)].
    [KeyboardInterrupt] and [SystemExit], which [except Exception]
    does not catch, are not modelled. *)
Record exn : Type := Exn { exn_class : string; exn_str : string }.

Definition KeyError (k : string) : exn := Exn "KeyError" ("'" ++ k ++ "'").
Definition TypeError (what : string) : exn := Exn "TypeError" what.
Definition AttributeError (what : string) : exn := Exn "AttributeError" what.

(** [str(e)] *)
Definition str_of_exn (e : exn) : string := exn_str e.

Inductive outcome (A : Type) : Type :=
  | Ok (a : A)
  | Raise (e : exn).
Arguments Ok {A} a.
Arguments Raise {A} e.

(** A statement sequence over a mutable state [S]: it returns or
    raises, and the state it leaves behind is kept in both cases. *)
Definition prog (S A : Type) : Type := S -> outcome A * S.

Definition ret {S A} (a : A) : prog S A := fun s => (Ok a, s).
Definition raise {S A} (e : exn) : prog S A := fun s => (Raise e, s).
Definition bind {S A B} (m : prog S A) (k : A -> prog S B) : prog S B :=
  fun s => match m s with
           | (Ok a, s') => k a s'
           | (Raise e, s') => (Raise e, s')
           end.
(** [try: body  except Exception as e: handler(e)] *)
Definition try_except {S A} (body : prog S A) (handler : exn -> prog S A)
  : prog S A :=
  fun s => match body s with
           | (Ok a, s') => (Ok a, s')
           | (Raise e, s') => handler e s'
           end.
Definition get_state {S} : prog S S := fun s => (Ok s, s).
Definition modify {S} (f : S -> S) : prog S unit := fun s => (Ok tt, f s).
(** an expression that may raise, evaluated inside a statement sequence *)
Definition eval {S A} (o : outcome A) : prog S A := fun s => (o, s).
(** run a program of a component on the component's part of the state *)
Definition zoom {S T A} (proj : S -> T) (upd : T -> S -> S) (m : prog T A)
  : prog S A :=
  fun s => let '(r, t') := m (proj s) in (r, upd t' s).

Definition obind {A B} (o : outcome A) (k : A -> outcome B) : outcome B :=
  match o with Ok a => k a | Raise e => Raise e end.

(** truth value of an object: [None], [False], [0], [''], [[]] and [{}]
    are false *)
Definition truthy (v : pyval) : bool :=
  match v with
  | VNone => false
  | VBool b => b
  | VInt n => negb (n =? 0)%Z
  | VStr s => negb (String.eqb s EmptyString)
  | VList l => match l with [] => false | _ => true end
  | VDict d => negb (bool_decide (d = ∅))
  end.

(** [c or d] for [c : Optional[str]] and [d : str] *)
Definition or_str (c : option string) (d : string) : string :=
  match c with
  | Some s => if String.eqb s EmptyString then d else s
  | None => d
  end.

(** [v == 'literal'] *)
Definition eq_str (v : pyval) (lit : string) : bool :=
  match v with VStr s => String.eqb s lit | _ => false end.

(** [d.get(k)] and [d.get(k, dflt)] *)
Definition get (d : dict) (k : string) : pyval := default VNone (d !! k).
Definition get_or (d : dict) (k : string) (dflt : pyval) : pyval :=
  default dflt (d !! k).

(** [d[k]] *)
Definition subscript (d : dict) (k : string) : outcome pyval :=
  match d !! k with Some v => Ok v | None => Raise (KeyError k) end.

(** [v.get], [v.items]: the receiver has to be a dict *)
Definition as_dict (v : pyval) : outcome dict :=
  match v with
  | VDict d => Ok d
  | _ => Raise (AttributeError "object has no attribute 'get'")
  end.

(** [v[k]] for a string key [k] *)
Definition subscript_val (v : pyval) (k : string) : outcome pyval :=
  match v with
  | VDict d => subscript d k
  | _ => Raise (TypeError "indices must be integers or object is not subscriptable")
  end.

(** [v[k] = x] for a string key [k] *)
Definition setitem (v : pyval) (k : string) (x : pyval) : outcome dict :=
  match v with
  | VDict d => Ok (<[k := x]> d)
  | _ => Raise (TypeError "object does not support item assignment")
  end.

(** [len(v)] *)
Definition len (v : pyval) : outcome nat :=
  match v with
  | VStr s => Ok (String.length s)
  | VList l => Ok (List.length l)
  | VDict d => Ok (size d)
  | _ => Raise (TypeError "object has no len()")
  end.

Fixpoint take_str (n : nat) (s : string) : string :=
  match n, s with
  | S n', String c s' => String c (take_str n' s')
  | _, _ => EmptyString
  end.

(** [v[:n]] *)
Definition slice_to (n : nat) (v : pyval) : outcome pyval :=
  match v with
  | VStr s => Ok (VStr (take_str n s))
  | VList l => Ok (VList (take n l))
  | _ => Raise (TypeError "object is not subscriptable")
  end.

Definition is_str (v : pyval) : bool :=
  match v with VStr _ => true | _ => false end.

(** [', '.join(v)] : only whether it raises matters (it is evaluated
    for a log line); iterating a string yields strings, iterating a
    dict yields its string keys. *)
Definition join_check (v : pyval) : outcome unit :=
  match v with
  | VList l => if forallb is_str l then Ok tt
               else Raise (TypeError "sequence item: expected str instance")
  | VStr _ | VDict _ => Ok tt
  | _ => Raise (TypeError "can only join an iterable")
  end.

Fixpoint chars (s : string) : list pyval :=
  match s with
  | EmptyString => []
  | String c s' => VStr (String c EmptyString) :: chars s'
  end.

(** [for x in v]: the elements visited.  The keys of a dict come in
    the map's own order; every use below fails on the first key
    whichever it is. *)
Definition iter (v : pyval) : outcome (list pyval) :=
  match v with
  | VList l => Ok l
  | VStr s => Ok (chars s)
  | VDict d => Ok ((fun kv => VStr (fst kv)) <$> map_to_list d)
  | _ => Raise (TypeError "object is not iterable")
  end.

(** [str.lower()], on the ASCII letters *)
Definition lower_ascii (c : ascii) : ascii :=
  let n := nat_of_ascii c in
  if (65 <=? n)%nat && (n <=? 90)%nat then ascii_of_nat (n + 32) else c.
Fixpoint lower (s : string) : string :=
  match s with
  | EmptyString => EmptyString
  | String c s' => String (lower_ascii c) (lower s')
  end.

(** [v.lower()] *)
Definition lower_val (v : pyval) : outcome string :=
  match v with
  | VStr s => Ok (lower s)
  | _ => Raise (AttributeError "object has no attribute 'lower'")
  end.

(** [needle in hay] on strings *)
Fixpoint contains (needle hay : string) : bool :=
  String.prefix needle hay
  || match hay with
     | EmptyString => false
     | String _ hay' => contains needle hay'
     end.

End Py.

Import Py.

Notation "'let*' x ':=' m 'in' k" := (bind m (fun x => k))
  (at level 10, x binder, k at level 200, format "'[v' 'let*'  x  ':='  m  'in' '/' k ']'").
Notation "m ';;;' k" := (bind m (fun _ => k))
  (at level 100, k at level 200, right associativity).

(** ** src/distributed/message_broker.py *)

Module message_broker.

(** [class Message].  The fields follow the annotations of
    [__init__]: four strings, a payload dict, and the correlation id,
    which is a string once the constructor has run. *)
Record Message : Type := mkMessage {
  message_id : string;
  sender : string;
  receiver : string;
  message_type : string;
  content : dict;
  correlation_id : string;
  timestamp : string
}.

(** [Message.__init__]; [now] is [datetime.now().isoformat()]. *)
Definition Message_init (message_id sender receiver message_type : string)
    (content : dict) (correlation_id : option string) (now : string)
  : Message :=
  {| message_id := message_id;
     sender := sender;
     receiver := receiver;
     message_type := message_type;
     content := content;
     correlation_id := or_str correlation_id message_id;
     timestamp := now |}.

(** [Message.to_dict] *)
Definition to_dict (self : Message) : dict :=
  list_to_map
    [ ("message_id", VStr (message_id self));
      ("sender", VStr (sender self));
      ("receiver", VStr (receiver self));
      ("message_type", VStr (message_type self));
      ("content", VDict (content self));
      ("correlation_id", VStr (correlation_id self));
      ("timestamp", VStr (timestamp self)) ].

(** [data[k]] where the constructor's annotation asks for a [str].
    A value of another kind is outside the annotated input type; the
    embedding, being typed, rejects it. *)
Definition str_item (data : dict) (k : string) : outcome string :=
  match data !! k with
  | None => Raise (KeyError k)
  | Some (VStr s) => Ok s
  | Some _ => Raise (TypeError ("'" ++ k ++ "' is not a str"))
  end.
Definition dict_item (data : dict) (k : string) : outcome dict :=
  match data !! k with
  | None => Raise (KeyError k)
  | Some (VDict d) => Ok d
  | Some _ => Raise (TypeError ("'" ++ k ++ "' is not a dict"))
  end.
(** [data.get(k)] where an [Optional[str]] is expected *)
Definition opt_str_item (data : dict) (k : string) : outcome (option string) :=
  match data !! k with
  | None | Some VNone => Ok None
  | Some (VStr s) => Ok (Some s)
  | Some _ => Raise (TypeError ("'" ++ k ++ "' is not a str"))
  end.

(** [Message.from_dict] *)
Definition from_dict (data : dict) (now : string) : outcome Message :=
  obind (str_item data "message_id") (fun mid =>
  obind (str_item data "sender") (fun snd =>
  obind (str_item data "receiver") (fun rcv =>
  obind (str_item data "message_type") (fun mty =>
  obind (dict_item data "content") (fun cnt =>
  obind (opt_str_item data "correlation_id") (fun cid =>
  let msg := Message_init mid snd rcv mty cnt cid now in
  obind (match data !! "timestamp" with
         | None => Ok now
         | Some _ => str_item data "timestamp"
         end) (fun ts =>
  Ok {| message_id := message_id msg;
        sender := sender msg;
        receiver := receiver msg;
        message_type := message_type msg;
        content := content msg;
        correlation_id := correlation_id msg;
        timestamp := ts |}))))))).

(** a serialized message with its [correlation_id] entry replaced by
    [v], or removed *)
Definition with_correlation_entry (v : option pyval) (m : Message) : dict :=
  match v with
  | Some x => <["correlation_id" := x]> (to_dict m)
  | None => delete "correlation_id" (to_dict m)
  end.

(** [m] with its [message_id] as correlation id *)
Definition defaulted (m : Message) : Message :=
  mkMessage (message_id m) (sender m) (receiver m) (message_type m)
            (content m) (message_id m) (timestamp m).

(** the queue map after [message] has been put at the tail of its
    receiver's queue, the queue being created when missing *)
Definition enqueued (message : Message) (q : gmap string (list Message))
  : gmap string (list Message) :=
  <[receiver message := (default [] (q !! receiver message) ++ [message])%list]> q.

(** A subscriber callback, by name. *)
Definition callback : Type := nat.

(** [class MessageBroker].  [disk] is the file system under
    [storage_path]; [threads] lists the callback threads started so
    far, each with the message it was given. *)
Record MessageBroker (Disk : Type) : Type := mkBroker {
  queues : gmap string (list Message);
  subscribers : gmap string (list callback);
  message_history : list Message;
  storage_path : string;
  disk : Disk;
  threads : list (callback * Message)
}.
Arguments mkBroker {Disk}.
Arguments queues {Disk}.
Arguments subscribers {Disk}.
Arguments message_history {Disk}.
Arguments storage_path {Disk}.
Arguments disk {Disk}.
Arguments threads {Disk}.

Section Broker.
Context {Disk : Type}.

(** [with open(filepath, 'w') as f: json.dump(d, f, indent=2)]:
    what the write leaves on the disk and the exception it raised,
    if any. *)
Variable write_json : string -> dict -> Disk -> option exn * Disk.

Definition set_queues (q : gmap string (list Message))
    (b : MessageBroker Disk) : MessageBroker Disk :=
  mkBroker q (subscribers b) (message_history b) (storage_path b)
           (disk b) (threads b).
Definition set_subscribers (s : gmap string (list callback))
    (b : MessageBroker Disk) : MessageBroker Disk :=
  mkBroker (queues b) s (message_history b) (storage_path b)
           (disk b) (threads b).
Definition set_message_history (h : list Message)
    (b : MessageBroker Disk) : MessageBroker Disk :=
  mkBroker (queues b) (subscribers b) h (storage_path b)
           (disk b) (threads b).
Definition set_disk (d : Disk)
    (b : MessageBroker Disk) : MessageBroker Disk :=
  mkBroker (queues b) (subscribers b) (message_history b) (storage_path b)
           d (threads b).
Definition set_threads (t : list (callback * Message))
    (b : MessageBroker Disk) : MessageBroker Disk :=
  mkBroker (queues b) (subscribers b) (message_history b) (storage_path b)
           (disk b) t.

(** [MessageBroker.__init__], on a given disk *)
Definition MessageBroker_init (storage_path : option string) (d : Disk)
  : MessageBroker Disk :=
  mkBroker ∅ ∅ [] (or_str storage_path "output/messages") d [].

(** [create_queue] *)
Definition create_queue (queue_name : string)
  : prog (MessageBroker Disk) unit :=
  let* self := get_state in
  match queues self !! queue_name with
  | None => modify (set_queues (<[queue_name := []]> (queues self)))
  | Some _ => ret tt
  end.

(** [_save_message] *)
Definition _save_message (message : Message)
  : prog (MessageBroker Disk) unit :=
  try_except
    (let* self := get_state in
     let filepath :=
       storage_path self ++ "/" ++ message_id message ++ ".json" in
     match write_json filepath (to_dict message) (disk self) with
     | (None, d') => modify (set_disk d')
     | (Some e, d') => modify (set_disk d') ;;; raise e
     end)
    (fun e => ret tt).

(** [publish] *)
Definition publish (message : Message) : prog (MessageBroker Disk) unit :=
  let receiver := receiver message in
  let* self := get_state in
  (match queues self !! receiver with
   | None => create_queue receiver
   | Some _ => ret tt
   end) ;;;
  let* self := get_state in
  (match queues self !! receiver with
   | Some q => modify (set_queues (<[receiver := (q ++ [message])%list]> (queues self)))
   | None => raise (KeyError receiver)
   end) ;;;
  let* self := get_state in
  modify (set_message_history (message_history self ++ [message])%list) ;;;
  _save_message message ;;;
  let* self := get_state in
  match subscribers self !! receiver with
  | Some callbacks =>
      modify (set_threads
                (threads self ++ map (fun cb => (cb, message)) callbacks)%list)
  | None => ret tt
  end.

(** [subscribe] *)
Definition subscribe (agent_name : string) (cb : callback)
  : prog (MessageBroker Disk) unit :=
  let* self := get_state in
  (match subscribers self !! agent_name with
   | None => modify (set_subscribers (<[agent_name := []]> (subscribers self)))
   | Some _ => ret tt
   end) ;;;
  let* self := get_state in
  match subscribers self !! agent_name with
  | Some l => modify (set_subscribers (<[agent_name := (l ++ [cb])%list]> (subscribers self)))
  | None => raise (KeyError agent_name)
  end.

(** [receive], called with a bounded timeout as everywhere in the
    source: the head of the queue, or [None] when the queue stays
    empty until the timeout ([queue.Empty]). *)
Definition receive (agent_name : string)
  : prog (MessageBroker Disk) (option Message) :=
  let* self := get_state in
  (match queues self !! agent_name with
   | None => create_queue agent_name
   | Some _ => ret tt
   end) ;;;
  let* self := get_state in
  match queues self !! agent_name with
  | Some (message :: q) =>
      modify (set_queues (<[agent_name := q]> (queues self))) ;;;
      ret (Some message)
  | Some [] => ret None
  | None => raise (KeyError agent_name)
  end.

(** [get_messages_by_correlation] *)
Definition get_messages_by_correlation (correlation_id0 : string)
    (self : MessageBroker Disk) : list Message :=
  filter (fun msg => correlation_id msg = correlation_id0)
         (message_history self).

(** [clear_queue] *)
Definition clear_queue (agent_name : string)
  : prog (MessageBroker Disk) unit :=
  let* self := get_state in
  match queues self !! agent_name with
  | Some _ => modify (set_queues (<[agent_name := []]> (queues self)))
  | None => ret tt
  end.

(** The calls a participant can make on the broker, and a sequence
    of them run in order: the interleaving of all threads' calls,
    each of which runs under the broker's lock or on its own. *)
Inductive call : Type :=
  | CallCreateQueue (queue_name : string)
  | CallPublish (message : Message)
  | CallSubscribe (agent_name : string) (cb : callback)
  | CallReceive (agent_name : string)
  | CallClearQueue (agent_name : string).

Definition run_call (c : call) : prog (MessageBroker Disk) unit :=
  match c with
  | CallCreateQueue n => create_queue n
  | CallPublish m => publish m
  | CallSubscribe n cb => subscribe n cb
  | CallReceive n => receive n ;;; ret tt
  | CallClearQueue n => clear_queue n
  end.

Fixpoint run_calls (cs : list call) : prog (MessageBroker Disk) unit :=
  match cs with
  | [] => ret tt
  | c :: cs' => run_call c ;;; run_calls cs'
  end.

(** the messages published by a sequence of calls, in order *)
Definition published (cs : list call) : list Message :=
  omap (fun c => match c with CallPublish m => Some m | _ => None end) cs.

End Broker.

End message_broker.

(** ** src/distributed/agent_service.py *)

Module agent_service.
Import message_broker.

(** [class AgentService], without its Flask application.  [clock]
    counts the calls made so far to [uuid.uuid4()] and
    [datetime.now()]. *)
Record AgentService (Disk Agent : Type) : Type := mkService {
  agent : Agent;
  agent_name : string;
  broker : MessageBroker Disk;
  running : bool;
  clock : nat
}.
Arguments mkService {Disk Agent}.
Arguments agent {Disk Agent}.
Arguments agent_name {Disk Agent}.
Arguments broker {Disk Agent}.
Arguments running {Disk Agent}.
Arguments clock {Disk Agent}.

(** What other threads do between two rounds of the worker loop. *)
Inductive event : Type :=
  | Idle
  | Stop                          (* [stop()] *)
  | Arrive (message : Message).   (* somebody's [broker.publish(message)] *)

Section AgentService.
Context {Disk Agent : Type}.
Variable write_json : string -> dict -> Disk -> option exn * Disk.

(** [self.agent.execute_task]: the wrapped unit, with a state of its
    own, returning a value or raising. *)
Variable execute_task : dict -> prog Agent pyval.

(** [str(uuid.uuid4())] and [datetime.now().isoformat()], by call
    number *)
Variable uuid4 : nat -> string.
Variable now : nat -> string.

Abbreviation Service := (AgentService Disk Agent).

Definition set_agent (a : Agent) (s : Service) : Service :=
  mkService a (agent_name s) (broker s) (running s) (clock s).
Definition set_broker (b : MessageBroker Disk) (s : Service) : Service :=
  mkService (agent s) (agent_name s) b (running s) (clock s).
Definition set_running (r : bool) (s : Service) : Service :=
  mkService (agent s) (agent_name s) (broker s) r (clock s).
Definition set_clock (c : nat) (s : Service) : Service :=
  mkService (agent s) (agent_name s) (broker s) (running s) c.

Definition on_agent {A} (m : prog Agent A) : prog Service A :=
  zoom agent set_agent m.
Definition on_broker {A} (m : prog (MessageBroker Disk) A) : prog Service A :=
  zoom broker set_broker m.

(** [AgentService.__init__] *)
Definition AgentService_init (agent0 : Agent) (agent_name0 : string)
    (broker0 : MessageBroker Disk) : Service :=
  snd (on_broker (create_queue agent_name0)
         (mkService agent0 agent_name0 broker0 false 0)).

(** [stop] (the join of the worker thread apart) *)
Definition stop : prog Service unit := modify (set_running false).

(** a receiver name has to be a [str] to key a queue *)
Definition as_str (v : pyval) : outcome string :=
  match v with
  | VStr s => Ok s
  | _ => Raise (TypeError "receiver is not a str")
  end.

(** [_handle_message] *)
Definition _handle_message (message : Message)
  : prog Service (option dict) :=
  let content := content message in
  let action := get content "action" in
  if negb (truthy action) then ret None
  else
    try_except
      (if eq_str action "create_story" then
         let* result := on_agent (execute_task content) in
         ret (Some (list_to_map
           [ ("receiver", VStr "IllustratorService");
             ("action", VStr "generate_illustrations");
             ("story_data", result);
             ("correlation_id", VStr (correlation_id message)) ]))
       else if eq_str action "generate_illustrations" then
         let* result := on_agent (execute_task content) in
         ret (Some (list_to_map
           [ ("receiver", VStr "PublisherService");
             ("action", VStr "create_publication");
             ("story_data", get content "story_data");
             ("illustrations", result);
             ("correlation_id", VStr (correlation_id message)) ]))
       else if eq_str action "create_publication" then
         let* result := on_agent (execute_task content) in
         ret (Some (list_to_map
           [ ("receiver", VStr "Orchestrator");
             ("action", VStr "complete");
             ("result", result);
             ("correlation_id", VStr (correlation_id message)) ]))
       else ret None)
      (fun e =>
         ret (Some (list_to_map
           [ ("receiver", VStr (sender message));
             ("action", VStr "error");
             ("error", VStr (str_of_exn e));
             ("correlation_id", VStr (correlation_id message)) ]))).

(** One round of the [while self.running] loop of
    [_process_messages]: the body of its [try], and the handler
    that logs and sleeps. *)
Definition process_round : prog Service unit :=
  try_except
    (let* self := get_state in
     let* message := on_broker (receive (agent_name self)) in
     match message with
     | Some message =>
         let* response := _handle_message message in
         match response with
         | Some response =>
             if truthy (VDict response) then
               let* self := get_state in
               let n := clock self in
               modify (set_clock (S n)) ;;;
               let* rcv := eval (as_str (get_or response "receiver"
                                           (VStr (sender message)))) in
               let response_msg :=
                 Message_init (uuid4 n) (agent_name self) rcv "response"
                              response (Some (correlation_id message))
                              (now n) in
               on_broker (publish write_json response_msg)
             else ret tt
         | None => ret tt
         end
     | None => ret tt
     end)
    (fun e => ret tt).

Definition happen (ev : event) : prog Service unit :=
  match ev with
  | Idle => ret tt
  | Stop => stop
  | Arrive m => on_broker (publish write_json m)
  end.

(** [_process_messages], along the events of the other threads, one
    before each test of [self.running].  The result tells whether
    the loop has exited ([true]) or is still running when the
    events end. *)
Fixpoint _process_messages (evs : list event) : prog Service bool :=
  match evs with
  | [] => ret false
  | ev :: evs' =>
      happen ev ;;;
      let* self := get_state in
      if running self then process_round ;;; _process_messages evs'
      else ret true
  end.

(** [start], as far as the worker loop goes *)
Definition start (evs : list event) : prog Service bool :=
  modify (set_running true) ;;; _process_messages evs.

End AgentService.

(** The static routing table of the specification: for each known
    action, the participant the response goes to and the action it
    carries. *)
Definition routing_table (action : string) : option (string * string) :=
  if String.eqb action "create_story"
  then Some ("IllustratorService", "generate_illustrations")
  else if String.eqb action "generate_illustrations"
  then Some ("PublisherService", "create_publication")
  else if String.eqb action "create_publication"
  then Some ("Orchestrator", "complete")
  else None.

End agent_service.

(** ** src/distributed/distributed_orchestrator.py *)

Module distributed_orchestrator.
Import message_broker.

(** an entry of [pending_tasks] *)
Record PendingTask : Type := mkPending {
  status : string;
  start_time : Z;
  story_idea : dict
}.

(** [class DistributedOrchestrator] *)
Record DistributedOrchestrator (Disk : Type) : Type := mkOrchestrator {
  broker : MessageBroker Disk;
  pending_tasks : gmap string PendingTask
}.
Arguments mkOrchestrator {Disk}.
Arguments broker {Disk}.
Arguments pending_tasks {Disk}.

Section DistributedOrchestrator.
Context {Disk : Type}.
Variable write_json : string -> dict -> Disk -> option exn * Disk.

Abbreviation Orchestrator := (DistributedOrchestrator Disk).

Definition set_broker (b : MessageBroker Disk) (s : Orchestrator)
  : Orchestrator := mkOrchestrator b (pending_tasks s).
Definition set_pending_tasks (p : gmap string PendingTask)
    (s : Orchestrator) : Orchestrator := mkOrchestrator (broker s) p.

Definition on_broker {A} (m : prog (MessageBroker Disk) A)
  : prog Orchestrator A := zoom broker set_broker m.

(** [DistributedOrchestrator.__init__] *)
Definition DistributedOrchestrator_init (broker0 : MessageBroker Disk)
  : Orchestrator :=
  snd (on_broker (create_queue "Orchestrator") (mkOrchestrator broker0 ∅)).

(** What the poll loop meets in one round: the reading of
    [time.time()] in the loop test, and the messages the other
    participants publish before the [receive] of that round
    returns.  Clock readings and the timeout are integers, in one
    unit. *)
Definition round : Type := (Z * list Message)%type.

Fixpoint publish_all (ms : list Message) : prog (MessageBroker Disk) unit :=
  match ms with
  | [] => ret tt
  | m :: ms' => publish write_json m ;;; publish_all ms'
  end.

(** The [while time.time() - start_time < timeout] loop of
    [create_story].  [None] is returned when the rounds given run
    out while the loop is still polling.  The result of a completion
    is the mapping the message holds with the two keys set; the
    source sets them in that mapping itself, which the message kept
    in the history shares, and this is not followed here: the
    history is as the broker wrote it. *)
Fixpoint poll (correlation_id0 : string) (start_time0 timeout : Z)
    (rounds : list round) : prog Orchestrator (option dict) :=
  match rounds with
  | [] => ret None
  | (t, arrivals) :: rounds' =>
      if (t - start_time0 <? timeout)%Z then
        on_broker (publish_all arrivals) ;;;
        let* response := on_broker (receive "Orchestrator") in
        match response with
        | Some response =>
            if String.eqb (correlation_id response) correlation_id0 then
              if eq_str (get (content response) "action") "complete" then
                let result := get_or (content response) "result" (VDict ∅) in
                let* result := eval (setitem result "status" (VStr "complete")) in
                let result := <["correlation_id" := VStr correlation_id0]> result in
                let* self := get_state in
                (match pending_tasks self !! correlation_id0 with
                 | Some _ =>
                     modify (set_pending_tasks
                               (delete correlation_id0 (pending_tasks self)))
                 | None => raise (KeyError correlation_id0)
                 end) ;;;
                ret (Some result)
              else if eq_str (get (content response) "action") "error" then
                ret (Some (list_to_map
                  [ ("status", VStr "error");
                    ("message", get (content response) "error");
                    ("correlation_id", VStr correlation_id0) ]))
              else poll correlation_id0 start_time0 timeout rounds'
            else poll correlation_id0 start_time0 timeout rounds'
        | None => poll correlation_id0 start_time0 timeout rounds'
        end
      else
        ret (Some (list_to_map
          [ ("status", VStr "timeout");
            ("message", VStr ("Story creation timed out after "
                              ++ pretty timeout ++ " seconds"));
            ("correlation_id", VStr correlation_id0) ]))
  end.

(** [create_story].  [fresh_correlation_id] and [fresh_message_id]
    are the two [str(uuid.uuid4())], [now] the timestamp of the
    request, [t_task] and [t_start] the two readings of
    [time.time()] before the loop. *)
Definition create_story (story_idea0 : dict) (timeout : Z)
    (fresh_correlation_id fresh_message_id now : string)
    (t_task t_start : Z) (rounds : list round)
  : prog Orchestrator (option dict) :=
  let correlation_id0 := fresh_correlation_id in
  (* the log line [story_idea.get('plot', '')[:100]] *)
  eval (slice_to 100 (get_or story_idea0 "plot" (VStr EmptyString))) ;;;
  let* self := get_state in
  modify (set_pending_tasks
            (<[correlation_id0 := mkPending "started" t_task story_idea0]>
               (pending_tasks self))) ;;;
  let message :=
    Message_init fresh_message_id "Orchestrator" "AuthorService" "request"
      (story_idea0 ∪ {["action" := VStr "create_story"]})
      (Some correlation_id0) now in
  on_broker (publish write_json message) ;;;
  poll correlation_id0 t_start timeout rounds.

(** [get_task_status]; [t] is the reading of [time.time()] *)
Definition get_task_status (correlation_id0 : string) (t : Z)
    (self : Orchestrator) : dict :=
  match pending_tasks self !! correlation_id0 with
  | Some task =>
      list_to_map
        [ ("correlation_id", VStr correlation_id0);
          ("status", VStr (status task));
          ("elapsed_seconds", VInt (t - start_time task)) ]
  | None =>
      match last (get_messages_by_correlation correlation_id0 (broker self)) with
      | Some latest =>
          list_to_map
            [ ("correlation_id", VStr correlation_id0);
              ("status", VStr (if String.eqb (receiver latest) "Orchestrator"
                               then "completed" else "in_progress"));
              ("latest_agent", VStr (receiver latest)) ]
      | None =>
          list_to_map
            [ ("correlation_id", VStr correlation_id0);
              ("status", VStr "not_found") ]
      end
  end.

End DistributedOrchestrator.

(** the messages waiting in the orchestrator's queue *)
Definition inbox {Disk} (b : MessageBroker Disk) : list Message :=
  default [] (queues b !! "Orchestrator").



(** the [plot] of a task input can be sliced: it is absent, a string
    or a list *)
Definition plot_sliceable (story_idea0 : dict) : Prop :=
  exists v, slice_to 100 (get_or story_idea0 "plot" (VStr EmptyString)) = Ok v.

(** What a poll ends with.  [None]: the rounds ran out first. *)
Definition poll_outcome (cid : string) {Disk} (s s' : DistributedOrchestrator Disk) (o : option dict) : Prop :=
  match o with
  | None => pending_tasks s' = pending_tasks s
  | Some res =>
      (res !! "status" = Some (VStr "complete")
       /\ pending_tasks s' = delete cid (pending_tasks s))
      \/ (res !! "status" = Some (VStr "error")
          /\ pending_tasks s' = pending_tasks s)
      \/ (res !! "status" = Some (VStr "timeout")
          /\ pending_tasks s' = pending_tasks s)
  end.


End distributed_orchestrator.

(** ** src/agents/base_agent.py *)

Module base_agent.

(** [class Message] of the in-process agents.  [timestamp] is the
    reading of [datetime.now()], as a number. *)
Record Message : Type := mkMessage {
  sender : string;
  recipient : string;
  content : dict;
  message_type : string;
  timestamp : Z;
  id : string
}.

(** [Message.__init__] *)
Definition Message_init (sender recipient : string) (content : dict)
    (message_type : string) (now : Z) : Message :=
  mkMessage sender recipient content message_type now
            (sender ++ "_" ++ recipient ++ "_" ++ pretty now).

(** The part of [class BaseAgent] that messages go through: the
    agent's name, its memory, and the readings of [datetime.now()]
    it has made so far. *)
Record BaseAgent : Type := mkBase {
  name : string;
  memory : list Message;
  ticks : nat
}.

Section BaseAgent.
Context {Self : Type}.
Variable base : Self -> BaseAgent.
Variable set_base : BaseAgent -> Self -> Self.
Variable now : nat -> Z.
(** the subclass's [process_message] *)
Variable process_message : Message -> prog Self (option Message).

Definition remember (message : Message) : prog Self unit :=
  modify (fun self =>
    set_base (mkBase (name (base self))
                     (memory (base self) ++ [message])%list
                     (ticks (base self))) self).

(** [send_message] *)
Definition send_message (recipient : string) (content : dict)
    (message_type : string) : prog Self Message :=
  let* self := get_state in
  let n := ticks (base self) in
  let message :=
    Message_init (name (base self)) recipient content message_type (now n) in
  modify (fun self =>
    set_base (mkBase (name (base self)) (memory (base self)) (S n)) self) ;;;
  remember message ;;;
  ret message.

(** [receive_message] *)
Definition receive_message (message : Message)
  : prog Self (option Message) :=
  remember message ;;;
  process_message message.

End BaseAgent.

End base_agent.

(** ** src/agents/author_agent.py: answering [describe_scene] *)

Module author_agent.
Import base_agent.

(** [class AuthorAgent]: the base part, the list
    [current_story['scenes_for_illustration']], and the text
    generator ([None] until a model is loaded), taken as a function of
    the scene its prompt is built from. *)
Record AuthorAgent : Type := mkAuthor {
  base : BaseAgent;
  scenes_for_illustration : list pyval;
  generator : option (dict -> string)
}.

Definition set_base (b : BaseAgent) (self : AuthorAgent) : AuthorAgent :=
  mkAuthor b (scenes_for_illustration self) (generator self).

(** [_generate_text], for the prompt built from [scene] *)
Definition _generate_text (scene : dict) (self : AuthorAgent) : string :=
  match generator self with
  | None => "[Model not loaded]"
  | Some g => g scene
  end.

(** [a == b] for two results of [dict.get('id')]: strings, or [None]
    when a scene has no id *)
Definition id_eqb (a b : pyval) : bool :=
  match a, b with
  | VStr x, VStr y => String.eqb x y
  | VNone, VNone => true
  | _, _ => false
  end.

(** [_enhance_scene_description] *)
Fixpoint enhance_in (scenes : list pyval) (scene_id : pyval)
    (self : AuthorAgent) : outcome string :=
  match scenes with
  | [] => Ok "Scene not found"
  | scene :: rest =>
      obind (as_dict scene) (fun d =>
      if id_eqb (get d "id") scene_id then Ok (_generate_text d self)
      else enhance_in rest scene_id self)
  end.
Definition _enhance_scene_description (scene_id : pyval)
  : prog AuthorAgent string :=
  let* self := get_state in
  eval (enhance_in (scenes_for_illustration self) scene_id self).

Section AuthorAgent.
Variable now : nat -> Z.
(** [execute_task], the story writing itself *)
Variable execute_task : dict -> prog AuthorAgent dict.

(** [process_message] *)
Definition process_message (message : Message)
  : prog AuthorAgent (option Message) :=
  if String.eqb (message_type message) "request" then
    if eq_str (get (content message) "action") "create_story" then
      let* result := execute_task (content message) in
      let* m := send_message base set_base now (sender message) result "response" in
      ret (Some m)
    else if eq_str (get (content message) "action") "describe_scene" then
      let scene_id := get (content message) "scene_id" in
      let* description := _enhance_scene_description scene_id in
      let* m := send_message base set_base now (sender message)
                  (list_to_map [ ("scene_id", scene_id);
                                 ("description", VStr description) ])
                  "response" in
      ret (Some m)
    else ret None
  else ret None.

Definition receive_message : Message -> prog AuthorAgent (option Message) :=
  base_agent.receive_message base set_base process_message.

End AuthorAgent.

(** [scene['description'] = v] on the [i]-th scene, seen from the
    author: the list the orchestrator walks is the author's own
    [scenes_for_illustration] object. *)
Definition scene_assigned (i : nat) (v : pyval) (self : AuthorAgent)
  : AuthorAgent :=
  mkAuthor (base self)
    (alter (fun scene => match scene with
                         | VDict d => VDict (<["description" := v]> d)
                         | _ => scene
                         end) i (scenes_for_illustration self))
    (generator self).

End author_agent.

(** ** src/orchestrator/coordinator.py *)

Module coordinator.
Import base_agent.

(** [class StoryOrchestrator].  [agents] is the state of the three
    agent objects.  [calls] records every invocation of an agent's
    [receive_message], with the agent's name; [ticks] counts the
    orchestrator's readings of [datetime.now()]. *)
Record StoryOrchestrator (W : Type) : Type := mkOrchestrator {
  config : dict;
  agents : W;
  ticks : nat;
  calls : list (string * Message)
}.
Arguments mkOrchestrator {W}.
Arguments config {W}.
Arguments agents {W}.
Arguments ticks {W}.
Arguments calls {W}.

Section StoryOrchestrator.
Context {W : Type}.
(** [self.author.receive_message] and its two siblings *)
Variable author : Message -> prog W (option Message).
Variable illustrator : Message -> prog W (option Message).
Variable publisher : Message -> prog W (option Message).
(** What the in-place assignment [scene['description'] = v] to the
    [i]-th scene of the list does to the agents: the list came out
    of the author's response and the author may still hold it. *)
Variable scene_assigned : nat -> pyval -> W -> W.
Variable now : nat -> Z.

Abbreviation Orchestrator := (StoryOrchestrator W).

Definition set_agents (w : W) (s : Orchestrator) : Orchestrator :=
  mkOrchestrator (config s) w (ticks s) (calls s).

(** [Message(sender=..., recipient=..., content=..., message_type=...)] *)
Definition new_message (sender recipient : string) (content : dict)
    (message_type : string) : prog Orchestrator Message :=
  let* self := get_state in
  modify (fun s => mkOrchestrator (config s) (agents s) (S (ticks s)) (calls s)) ;;;
  ret (Message_init sender recipient content message_type (now (ticks self))).

(** [agent.receive_message(message)] *)
Definition call_agent (agent_name : string)
    (agent : Message -> prog W (option Message)) (message : Message)
  : prog Orchestrator (option Message) :=
  modify (fun s => mkOrchestrator (config s) (agents s) (ticks s)
                     (calls s ++ [(agent_name, message)])%list) ;;;
  zoom agents set_agents (agent message).

Definition error_result : dict := {["status" := VStr "error"]}.

(** [_scene_needs_clarification] *)
Definition _scene_needs_clarification (scene : pyval) : outcome bool :=
  obind (as_dict scene) (fun d =>
  let description := get_or d "description" (VStr EmptyString) in
  obind (len description) (fun n =>
  if (n <? 50)%nat then Ok true
  else
    obind (lower_val description) (fun low =>
    if negb (existsb (fun word => contains word low)
                     ["standing"; "sitting"; "looking"])
    then Ok true
    else Ok false))).

(** [_phase_story_creation] *)
Definition _phase_story_creation (story_idea : dict)
  : prog Orchestrator dict :=
  let* message :=
    new_message "Orchestrator" "AuthorAgent"
      (list_to_map
         [ ("action", VStr "create_story");
           ("plot", get_or story_idea "plot" (VStr EmptyString));
           ("themes", get_or story_idea "themes" (VList []));
           ("target_age", get_or story_idea "target_age" (VStr "8-12"));
           ("length", get_or story_idea "length" (VStr "short")) ])
      "request" in
  let* response := call_agent "AuthorAgent" author message in
  match response with
  | Some response =>
      if eq_str (get (content response) "status") "complete" then
        let* chapters := eval (subscript (content response) "chapters") in
        eval (len chapters) ;;;
        ret (content response)
      else ret error_result
  | None => ret error_result
  end.

(** The body of the [for scene in scenes] loop of
    [_phase_illustration], for the [i]-th scene: it returns the
    scene as the body leaves it. *)
Definition clarify_scene (i : nat) (scene : pyval)
  : prog Orchestrator pyval :=
  let* needs := eval (_scene_needs_clarification scene) in
  if needs : bool then
    let* d := eval (as_dict scene) in
    let* clarification_msg :=
      new_message "IllustratorAgent" "AuthorAgent"
        (list_to_map [ ("action", VStr "describe_scene");
                       ("scene_id", get d "id") ])
        "request" in
    let* author_response :=
      call_agent "AuthorAgent" author clarification_msg in
    match author_response with
    | Some author_response =>
        let* old := eval (subscript d "description") in
        let v := get_or (content author_response) "description" old in
        modify (fun s => set_agents (scene_assigned i v (agents s)) s) ;;;
        ret (VDict (<["description" := v]> d))
    | None => ret scene
    end
  else ret scene.

(** the loop itself, from the [i]-th scene on *)
Fixpoint clarify_scenes (i : nat) (scenes : list pyval)
  : prog Orchestrator (list pyval) :=
  match scenes with
  | [] => ret []
  | scene :: rest =>
      let* scene' := clarify_scene i scene in
      let* rest' := clarify_scenes (S i) rest in
      ret (scene' :: rest')
  end.

(** [_phase_illustration] *)
Definition _phase_illustration (story_result : dict) (art_style : pyval)
  : prog Orchestrator dict :=
  let scenes := get_or story_result "illustration_scenes" (VList []) in
  let* story := eval (subscript story_result "story") in
  let* story := eval (as_dict story) in
  let characters := get_or story "characters" (VList []) in
  eval (len scenes) ;;;
  let* elements := eval (iter scenes) in
  let* elements' := clarify_scenes 0 elements in
  let scenes' := match scenes with VList _ => VList elements' | _ => scenes end in
  let* message :=
    new_message "Orchestrator" "IllustratorAgent"
      (list_to_map
         [ ("action", VStr "generate_illustrations");
           ("scenes", scenes');
           ("characters", characters);
           ("art_style", art_style) ])
      "request" in
  let* response := call_agent "IllustratorAgent" illustrator message in
  match response with
  | Some response =>
      if eq_str (get (content response) "status") "complete" then
        let* images := eval (subscript (content response) "images") in
        eval (len images) ;;;
        ret (content response)
      else ret error_result
  | None => ret error_result
  end.

(** [_phase_publication] *)
Definition _phase_publication (story_result illustration_result story_idea : dict)
  : prog Orchestrator dict :=
  let* story := eval (subscript story_result "story") in
  let* images := eval (subscript illustration_result "images") in
  let* title :=
    eval (slice_to 50 (get_or story_idea "plot" (VStr "Untitled Story"))) in
  let* self := get_state in
  let* message :=
    new_message "Orchestrator" "PublisherAgent"
      (list_to_map
         [ ("action", VStr "publish");
           ("story", story);
           ("images", images);
           ("title", title);
           ("output_dir",
            get_or (config self) "output_dir" (VStr "output/publications")) ])
      "request" in
  let* response := call_agent "PublisherAgent" publisher message in
  match response with
  | Some response =>
      if eq_str (get (content response) "status") "complete" then
        let files := get_or (content response) "files" (VDict ∅) in
        eval (len files) ;;;
        eval (as_dict files) ;;;
        ret (content response)
      else ret error_result
  | None => ret error_result
  end.

(** [create_story] *)
Definition create_story (story_idea : dict) : prog Orchestrator dict :=
  (* the log line [', '.join(story_idea.get('themes', []))] *)
  eval (join_check (get_or story_idea "themes" (VList []))) ;;;
  let* story_result := _phase_story_creation story_idea in
  let* st := eval (subscript story_result "status") in
  if negb (eq_str st "complete") then
    ret (list_to_map [ ("status", VStr "error");
                       ("message", VStr "Story creation failed") ])
  else
  let* illustration_result :=
    _phase_illustration story_result
      (get_or story_idea "art_style" (VStr "children_book")) in
  let* st := eval (subscript illustration_result "status") in
  if negb (eq_str st "complete") then
    ret (list_to_map [ ("status", VStr "error");
                       ("message", VStr "Illustration failed") ])
  else
  let* publication_result :=
    _phase_publication story_result illustration_result story_idea in
  let* story := eval (subscript story_result "story") in
  let* images := eval (subscript illustration_result "images") in
  let* files := eval (subscript publication_result "files") in
  let* title :=
    eval (slice_to 50 (get_or story_idea "plot" (VStr "Untitled"))) in
  let* chapters := eval (subscript story_result "chapters") in
  let* n_chapters := eval (len chapters) in
  let* n_images := eval (len images) in
  ret (list_to_map
    [ ("status", VStr "complete");
      ("story", story);
      ("images", images);
      ("publications", files);
      ("metadata", VDict (list_to_map
         [ ("title", title);
           ("chapters", VInt (Z.of_nat n_chapters));
           ("images", VInt (Z.of_nat n_images));
           ("page_count", get_or publication_result "page_count" (VInt 0)) ])) ]).

End StoryOrchestrator.

(** the orchestrator after one more reading of the clock, and after
    logging a call *)
Definition ticked {W} (s : StoryOrchestrator W) : StoryOrchestrator W :=
  mkOrchestrator (config s) (agents s) (S (ticks s)) (calls s).
Definition logged {W} (agent_name : string) (message : Message)
    (s : StoryOrchestrator W) : StoryOrchestrator W :=
  mkOrchestrator (config s) (agents s) (ticks s)
                 (calls s ++ [(agent_name, message)])%list.

(** the request [_phase_story_creation] sends to the author when the
    clock reads [t] *)
Definition story_request (story_idea : dict) (t : Z) : Message :=
  Message_init "Orchestrator" "AuthorAgent"
    (list_to_map
       [ ("action", VStr "create_story");
         ("plot", get_or story_idea "plot" (VStr EmptyString));
         ("themes", get_or story_idea "themes" (VList []));
         ("target_age", get_or story_idea "target_age" (VStr "8-12"));
         ("length", get_or story_idea "length" (VStr "short")) ])
    "request" t.

(** the clarification request for the scene [d], sent when the clock
    reads [t] *)
Definition clarification_request (d : dict) (t : Z) : Message :=
  Message_init "IllustratorAgent" "AuthorAgent"
    (list_to_map [ ("action", VStr "describe_scene");
                   ("scene_id", get d "id") ])
    "request" t.

(** the clarity check says yes *)
Definition needs_clarification (scene : pyval) : bool :=
  match _scene_needs_clarification scene with
  | Ok true => true
  | _ => false
  end.

(** how many of [scenes] the clarity check says yes to *)
Definition unclear (scenes : list pyval) : nat :=
  List.length (List.filter needs_clarification scenes).

(** a call of the author's [receive_message], as logged *)
Definition to_author (message : Message) : string * Message :=
  ("AuthorAgent", message).

(** the scene [d] after the author's answer to its clarification
    request *)
Definition clarified (d : dict) (old : pyval) (answer : option Message)
  : pyval :=
  match answer with
  | Some r => VDict (<["description" := get_or (content r) "description" old]> d)
  | None => VDict d
  end.

(** the writing phase has failed: no response, or one whose status
    is not [complete] *)
Definition not_complete (response : option Message) : Prop :=
  match response with
  | Some r => eq_str (get (content r) "status") "complete" = false
  | None => True
  end.

End coordinator.

(** ** Object identity

    Neither [Message] class defines [__eq__], so [m1 == m2] is Python's
    default comparison of objects: identity.  Objects live in a store
    under the address they were allocated at. *)

Module identity.

Definition ref : Type := nat.

(** the objects of class [C] allocated so far, by address *)
Definition store (C : Type) : Type := list C.

(** a constructor call: the new object gets the next address *)
Definition alloc {C} (obj : C) (h : store C) : ref * store C :=
  (List.length h, (h ++ [obj])%list).

Definition deref {C} (h : store C) (r : ref) : option C := h !! r.

(** [a == b] for two objects of a class without [__eq__] *)
Definition object_eq (a b : ref) : bool := Nat.eqb a b.

End identity.

(** ** Concrete participants

    Stub workers, a disk and small inputs, on which the embedding is run
    in the examples below. *)

Module fixtures.

(** *** A disk: the files by path *)

Definition Files : Type := gmap string dict.
Definition disk_works (path : string) (d : dict) (fs : Files)
  : option exn * Files := (None, <[path := d]> fs).
Definition disk_full (path : string) (d : dict) (fs : Files)
  : option exn * Files :=
  (Some (Exn "OSError" "[Errno 28] No space left on device"), fs).

Definition uuid4 (n : nat) : string := "uuid-" ++ pretty n.
Definition now_iso (n : nat) : string := "2024-05-01T10:00:0" ++ pretty n.

Definition broker0 : message_broker.MessageBroker Files :=
  message_broker.MessageBroker_init None ∅.

(** *** A wrapped unit that fails on the plot [boom] *)

Definition stub_task (task : dict) : prog nat pyval :=
  fun n =>
    if eq_str (get task "plot") "boom"
    then (Raise (Exn "RuntimeError" "generation failed"), S n)
    else (Ok (VDict {["status" := VStr "complete"]}), S n).

Definition bad_request : message_broker.Message :=
  message_broker.Message_init "msg-1" "Orchestrator" "AuthorService" "request"
    (list_to_map [ ("action", VStr "create_story"); ("plot", VStr "boom") ])
    (Some "task-1") "2024-05-01T09:59:58".
Definition good_request : message_broker.Message :=
  message_broker.Message_init "msg-2" "Orchestrator" "AuthorService" "request"
    (list_to_map [ ("action", VStr "create_story"); ("plot", VStr "X") ])
    (Some "task-2") "2024-05-01T09:59:59".
Definition stray_request : message_broker.Message :=
  message_broker.Message_init "msg-3" "Orchestrator" "AuthorService" "request"
    (list_to_map [ ("action", VStr "translate") ])
    (Some "task-3") "2024-05-01T09:59:59".

(** a running author service with the given requests in its queue *)
Definition service_with (requests : list message_broker.Message)
  : agent_service.AgentService Files nat :=
  let s := agent_service.AgentService_init 0 "AuthorService" broker0 in
  agent_service.set_running true
    (agent_service.set_broker
       (message_broker.run_calls disk_works
          (map message_broker.CallPublish requests) (agent_service.broker s)).2
       s).

(** *** The distributed orchestrator and an error message for it *)

Definition orchestrator0
  : distributed_orchestrator.DistributedOrchestrator Files :=
  distributed_orchestrator.DistributedOrchestrator_init broker0.

Definition idea : dict :=
  list_to_map [ ("plot", VStr "X");
                ("themes", VList [VStr "a"; VStr "b"]);
                ("length", VStr "short") ].

Definition error_message : message_broker.Message :=
  message_broker.Message_init "uuid-7" "AuthorService" "Orchestrator" "response"
    (list_to_map [ ("receiver", VStr "Orchestrator");
                   ("action", VStr "error");
                   ("error", VStr "generation failed");
                   ("correlation_id", VStr "task-1") ])
    (Some "task-1") "2024-05-01T10:00:03".

Definition complete_message : message_broker.Message :=
  message_broker.Message_init "uuid-8" "PublisherService" "Orchestrator" "response"
    (list_to_map [ ("receiver", VStr "Orchestrator");
                   ("action", VStr "complete");
                   ("result", VDict {["files" := VDict ∅]});
                   ("correlation_id", VStr "task-1") ])
    (Some "task-1") "2024-05-01T10:00:04".

(** [create_story(story_idea, timeout=30)] with the fresh ids [task-1]
    and [msg-1], started at time 0 *)
Definition distributed_run_on (story_idea : dict)
    (rounds : list distributed_orchestrator.round) :=
  distributed_orchestrator.create_story disk_works story_idea 30
    "task-1" "msg-1" "2024-05-01T10:00:00" 0 0 rounds orchestrator0.
Definition distributed_run := distributed_run_on idea.

Definition boom_idea : dict := {["plot" := VStr "boom"]}.

(** One round of the service [name], wrapped around [stub_task], on
    the broker [b]; it returns the broker as the round leaves it. *)
Definition service_round (name : string)
    (b : message_broker.MessageBroker Files)
  : message_broker.MessageBroker Files :=
  agent_service.broker
    (agent_service.process_round disk_works stub_task uuid4 now_iso
       (agent_service.set_running true
          (agent_service.AgentService_init 0 name b))).2.

(** the broker once [create_story] has published its request, before
    any poll *)
Definition after_request (story_idea : dict)
  : message_broker.MessageBroker Files :=
  distributed_orchestrator.broker (distributed_run_on story_idea []).2.

(** the messages waiting for the orchestrator in [b] *)
Definition delivered (b : message_broker.MessageBroker Files)
  : list message_broker.Message :=
  distributed_orchestrator.inbox b.

(** *** In-process agents *)

Definition clock (n : nat) : Z := Z.of_nat n.
Definition author_clock (n : nat) : Z := 1000 + Z.of_nat n.

(** the author of the source with no model loaded, holding [scenes] *)
Definition unloaded_author (scenes : list pyval) : author_agent.AuthorAgent :=
  author_agent.mkAuthor (base_agent.mkBase "AuthorAgent" [] 0) scenes None.

(** an [execute_task] that fails, as a text generator out of memory
    does *)
Definition out_of_memory (task : dict) : prog author_agent.AuthorAgent dict :=
  raise (Exn "RuntimeError" "CUDA out of memory").


Definition silent_author {W}
  : base_agent.Message -> prog W (option base_agent.Message) :=
  fun _ => ret None.

Definition stub_illustrator {W}
  : base_agent.Message -> prog W (option base_agent.Message) :=
  fun m =>
    ret (Some (base_agent.Message_init "IllustratorAgent"
                 (base_agent.sender m)
                 (list_to_map
                    [ ("status", VStr "complete");
                      ("images", VList [VStr "img1.png"; VStr "img2.png"]);
                      ("character_references", VDict ∅) ])
                 "response" 2000)).

Definition stub_publisher {W}
  : base_agent.Message -> prog W (option base_agent.Message) :=
  fun m =>
    ret (Some (base_agent.Message_init "PublisherAgent"
                 (base_agent.sender m)
                 (list_to_map
                    [ ("status", VStr "complete");
                      ("files", VDict (list_to_map
                         [ ("pdf", VStr "path"); ("html", VStr "path") ]));
                      ("page_count", VInt 12) ])
                 "response" 3000)).

(** a publisher that reports a failure *)
Definition failed_publisher {W}
  : base_agent.Message -> prog W (option base_agent.Message) :=
  fun m =>
    ret (Some (base_agent.Message_init "PublisherAgent"
                 (base_agent.sender m)
                 {["status" := VStr "error"]} "response" 3000)).

(** a scene as [_parse_scenes] makes it, with the given description *)
Definition scene (description : string) : dict :=
  list_to_map [ ("id", VStr "ch1_scene1");
                ("chapter", VInt 1);
                ("description", VStr description);
                ("characters", VList []);
                ("mood", VStr "exciting") ].

Definition clear_scene : dict :=
  scene "Two children are standing at the edge of a quiet moonlit lake.".

(** a writer that returns three chapters and two clear scenes *)
Definition stub_writer_result : dict :=
  list_to_map
    [ ("status", VStr "complete");
      ("story", VDict {["characters" := VList []]});
      ("chapters", VList [VStr "one"; VStr "two"; VStr "three"]);
      ("illustration_scenes", VList [VDict clear_scene; VDict clear_scene]) ].
Definition stub_writer {W}
  : base_agent.Message -> prog W (option base_agent.Message) :=
  fun m =>
    ret (Some (base_agent.Message_init "AuthorAgent" (base_agent.sender m)
                 stub_writer_result "response" 1000)).

(** what the author returned for a story whose only scene has the
    given description *)
Definition story_result (description : string) : dict :=
  list_to_map
    [ ("status", VStr "complete");
      ("story", VDict {["characters" := VList []]});
      ("chapters", VList [VStr "one"]);
      ("illustration_scenes", VList [VDict (scene description)]) ].

(** the orchestrator whose author, with no model loaded, holds that
    scene *)
Definition studio (description : string)
  : coordinator.StoryOrchestrator author_agent.AuthorAgent :=
  coordinator.mkOrchestrator ∅ (unloaded_author [VDict (scene description)]) 0 [].

(** [_phase_illustration] on that story, with the author of the
    source *)
Definition illustration_run (description : string) :=
  coordinator._phase_illustration
    (author_agent.receive_message author_clock out_of_memory)
    stub_illustrator author_agent.scene_assigned clock
    (story_result description) (VStr "children_book") (studio description).

(** the scenes the illustrator was given in the last logged call *)
Definition scenes_illustrated (calls : list (string * base_agent.Message))
  : option pyval :=
  match last calls with
  | Some ("IllustratorAgent", task) => base_agent.content task !! "scenes"
  | _ => None
  end.

Definition result_of {S} (r : outcome dict * S) : dict :=
  match r.1 with Ok d => d | Raise _ => ∅ end.

End fixtures.

(** ** Further code of the repository

    The functions of the cited files that the properties above leave
    out, and those they reach. *)

Module broker_extras.
Import message_broker.

(** the messages waiting for [name] *)
Definition queue_of {Disk} (name : string) (b : MessageBroker Disk)
  : list Message := default [] (queues b !! name).

Section Receiving.
Context {Disk : Type}.

(** [k] calls of [receive(name, timeout)] in a row, with what each
    returned *)
Fixpoint receive_many (k : nat) (name : string)
  : prog (MessageBroker Disk) (list (option Message)) :=
  match k with
  | 0 => ret []
  | S k' =>
      let* r := receive name in
      let* rs := receive_many k' name in
      ret (r :: rs)
  end.

End Receiving.

(** An id that makes one path component: it holds no separator and
    no NUL. *)
Definition plain_id (s : string) : bool :=
  forallb (fun c => negb (Ascii.eqb c "/") && negb (Ascii.eqb c "\")
                    && negb (Ascii.eqb c "000"))
          (list_ascii_of_string s).

(** The file a message is saved to, [storage_path / f"{message_id}.json"]:
    for a plain id the join puts the file name behind the directory;
    for another id it may drop parts of it or leave the directory. *)
Definition message_path {Disk} (b : MessageBroker Disk) (m : Message) : string :=
  storage_path b ++ "/" ++ message_id m ++ ".json".

(** A disk on which every write succeeds: the files by path, a write
    replacing the file. *)
Abbreviation files := (gmap string dict).
Definition write_file (path : string) (d : dict) (fs : files)
  : option exn * files := (None, <[path := d]> fs).

(** *** [get_broker] and the module's [_broker_instance]

    [B] is the class of broker objects; [make_redis] and [make_memory]
    are the two constructors called with the keyword arguments, each of
    which may raise. *)
Section GetBroker.
Context {B : Type}.
Variable make_redis : dict -> outcome B.
Variable make_memory : dict -> outcome B.

(** [get_broker(broker_type, **kwargs)], on the module global *)
Definition get_broker (broker_type : string) (kwargs : dict)
  : prog (option B) B :=
  let* _broker_instance := get_state in
  match _broker_instance with
  | None =>
      let* b := eval (if String.eqb broker_type "redis"
                      then make_redis kwargs
                      else make_memory kwargs) in
      modify (fun _ => Some b) ;;;
      ret b
  | Some b => ret b
  end.

End GetBroker.

(** [DistributedOrchestrator.get_message_history] *)
Definition get_message_history {Disk} (correlation_id0 : string)
    (b : MessageBroker Disk) : list dict :=
  map to_dict (get_messages_by_correlation correlation_id0 b).

(** [[Message.from_dict(d) for d in ds]], all with the clock at [now] *)
Fixpoint from_dicts (ds : list dict) (now : string) : outcome (list Message) :=
  match ds with
  | [] => Ok []
  | d :: ds' =>
      obind (from_dict d now) (fun m =>
      obind (from_dicts ds' now) (fun ms => Ok (m :: ms)))
  end.

End broker_extras.

(** *** More of src/agents/base_agent.py *)

Module base_agent_extras.
Import base_agent.

(** [l[start:]] *)
Definition slice_from {A} (start : Z) (l : list A) : list A :=
  let n := Z.of_nat (List.length l) in
  let i := if (start <? 0)%Z then Z.max 0 (n + start) else Z.min start n in
  drop (Z.to_nat i) l.

(** [get_context]: [self.memory[-limit:]] *)
Definition get_context (limit : Z) (self : BaseAgent) : list Message :=
  slice_from (- limit) (memory self).

End base_agent_extras.

(** *** Text

    A string is a sequence of bytes here and a sequence of code points
    in Python: lengths, letter classes and case agree on ASCII text. *)

Module py_text.

Definition is_ascii (s : string) : bool :=
  forallb (fun c => (nat_of_ascii c <? 128)%nat) (list_ascii_of_string s).


End py_text.

(** *** src/agents/publisher_agent.py: file names and page counts *)

Module publisher_agent.

(** [\w], [\s] and the class [[-\s]] on the ASCII characters *)
Definition is_word (c : ascii) : bool :=
  let n := nat_of_ascii c in
  ((48 <=? n)%nat && (n <=? 57)%nat) || ((65 <=? n)%nat && (n <=? 90)%nat)
  || ((97 <=? n)%nat && (n <=? 122)%nat) || (n =? 95)%nat.
Definition is_space (c : ascii) : bool :=
  let n := nat_of_ascii c in
  ((9 <=? n)%nat && (n <=? 13)%nat) || ((28 <=? n)%nat && (n <=? 32)%nat).
Definition is_separator (c : ascii) : bool :=
  is_space c || (nat_of_ascii c =? 45)%nat.

(** [re.sub(r'[^\w\s-]', '', s)] *)
Fixpoint remove_invalid (s : string) : string :=
  match s with
  | EmptyString => EmptyString
  | String c s' =>
      if is_word c || is_separator c then String c (remove_invalid s')
      else remove_invalid s'
  end.

(** [re.sub(r'[-\s]+', '_', s)]; [in_run] tells that the character
    before belonged to a run already replaced *)
Fixpoint collapse_separators (in_run : bool) (s : string) : string :=
  match s with
  | EmptyString => EmptyString
  | String c s' =>
      if is_separator c
      then if in_run then collapse_separators true s'
           else String "_" (collapse_separators true s')
      else String c (collapse_separators false s')
  end.

(** every character of [s] is matched by [\w] *)
Fixpoint all_word (s : string) : bool :=
  match s with
  | EmptyString => true
  | String c s' => is_word c && all_word s'
  end.

(** [_sanitize_filename] *)
Definition _sanitize_filename (filename : string) : string :=
  take_str 50 (collapse_separators false (remove_invalid filename)).





End publisher_agent.

(** *** More of src/agents/author_agent.py: writing a story *)

Module author_extras.
Import base_agent author_agent.


(** [_parse_characters] *)
Definition _parse_characters (text : string) : list pyval :=
  [ VDict (list_to_map [ ("name", VStr "Character1");
                         ("age", VInt 10);
                         ("personality", VStr "brave") ]);
    VDict (list_to_map [ ("name", VStr "Character2");
                         ("age", VInt 9);
                         ("personality", VStr "clever") ]) ].

(** [_parse_outline] *)
Definition _parse_outline (text : string) (num_chapters : nat) : list dict :=
  map (fun i => list_to_map
                  [ ("title", VStr ("Chapter " ++ pretty (S i)));
                    ("events", VStr "Key events...") ])
      (seq 0 num_chapters).

(** [_parse_scenes] *)
Definition _parse_scenes (text : string) (chapter_num : Z) : list pyval :=
  map (fun i => VDict (list_to_map
                  [ ("id", VStr ("ch" ++ pretty chapter_num
                                 ++ "_scene" ++ pretty (S i)));
                    ("chapter", VInt chapter_num);
                    ("description", VStr "Scene description...");
                    ("characters", VList []);
                    ("mood", VStr "exciting") ]))
      (seq 0 2).

(** [{'short': 3, 'medium': 5, 'long': 8}.get(length, 3)]; a list or a
    dict cannot be looked up *)
Definition num_chapters (length : pyval) : outcome nat :=
  match length with
  | VStr s =>
      if String.eqb s "short" then Ok 3
      else if String.eqb s "medium" then Ok 5
      else if String.eqb s "long" then Ok 8
      else Ok 3
  | VList _ | VDict _ => Raise (TypeError "unhashable type")
  | _ => Ok 3
  end.

(** The whole [AuthorAgent]: the part above, its [status], the rest of
    [current_story], and the number of texts the model has sampled. *)
Record AuthorWorker : Type := mkWorker {
  agent : AuthorAgent;
  status : string;
  plot : pyval;
  themes : pyval;
  characters : list pyval;
  chapters : list pyval;
  sampled : nat
}.

Definition set_agent (a : AuthorAgent) (w : AuthorWorker) : AuthorWorker :=
  mkWorker a (status w) (plot w) (themes w) (characters w) (chapters w)
           (sampled w).
Definition set_status (x : string) (w : AuthorWorker) : AuthorWorker :=
  mkWorker (agent w) x (plot w) (themes w) (characters w) (chapters w)
           (sampled w).
Definition set_plot (x : pyval) (w : AuthorWorker) : AuthorWorker :=
  mkWorker (agent w) (status w) x (themes w) (characters w) (chapters w)
           (sampled w).
Definition set_themes (x : pyval) (w : AuthorWorker) : AuthorWorker :=
  mkWorker (agent w) (status w) (plot w) x (characters w) (chapters w)
           (sampled w).
Definition set_characters (x : list pyval) (w : AuthorWorker) : AuthorWorker :=
  mkWorker (agent w) (status w) (plot w) (themes w) x (chapters w)
           (sampled w).
Definition set_chapters (x : list pyval) (w : AuthorWorker) : AuthorWorker :=
  mkWorker (agent w) (status w) (plot w) (themes w) (characters w) x
           (sampled w).
Definition set_sampled (x : nat) (w : AuthorWorker) : AuthorWorker :=
  mkWorker (agent w) (status w) (plot w) (themes w) (characters w)
           (chapters w) x.

(** [self.current_story['scenes_for_illustration'].extend(scenes)] *)
Definition extend_scenes (scenes : list pyval) (w : AuthorWorker)
  : AuthorWorker :=
  set_agent (mkAuthor (base (agent w))
                      (scenes_for_illustration (agent w) ++ scenes)%list
                      (generator (agent w))) w.

(** [self.current_story] *)
Definition current_story (w : AuthorWorker) : dict :=
  list_to_map
    [ ("plot", plot w);
      ("characters", VList (characters w));
      ("chapters", VList (chapters w));
      ("themes", themes w);
      ("scenes_for_illustration",
       VList (scenes_for_illustration (agent w))) ].

(** [[c['name'] for c in characters]] *)
Fixpoint char_names (characters : list pyval) : outcome (list pyval) :=
  match characters with
  | [] => Ok []
  | c :: rest =>
      obind (subscript_val c "name") (fun n =>
      obind (char_names rest) (fun ns => Ok (n :: ns)))
  end.

(** [c.get('personality', '')] for each character, after its
    [c['name']] *)
Fixpoint char_descriptions (characters : list pyval) : outcome unit :=
  match characters with
  | [] => Ok tt
  | c :: rest =>
      obind (subscript_val c "name") (fun _ =>
      obind (as_dict c) (fun _ => char_descriptions rest))
  end.

(** [chapter['number']], an [int] *)
Definition int_item (d : dict) (k : string) : outcome Z :=
  match d !! k with
  | None => Raise (KeyError k)
  | Some (VInt n) => Ok n
  | Some _ => Raise (TypeError ("'" ++ k ++ "' is not an int"))
  end.

Section Writing.

(** The text the model samples, by call number (the pipeline is run
    with [do_sample=True], so the text is not a function of the prompt),
    after [.replace(prompt, '').strip()]; the call may raise. *)
Variable sample : nat -> outcome string.

(** [_generate_text], for the prompts of the story writing *)
Definition _generate_text : prog AuthorWorker string :=
  let* self := get_state in
  match generator (agent self) with
  | None => ret "[Model not loaded]"
  | Some _ =>
      modify (set_sampled (S (sampled self))) ;;;
      eval (sample (sampled self))
  end.

(** [_develop_characters] *)
Definition _develop_characters (plot themes : pyval)
  : prog AuthorWorker (list pyval) :=
  (* the prompt: [', '.join(themes)] *)
  eval (join_check themes) ;;;
  let* response := _generate_text in
  ret (_parse_characters response).

(** [_create_outline] *)
Definition _create_outline (plot : pyval) (characters : list pyval)
    (length : pyval) : prog AuthorWorker (list dict) :=
  let* n := eval (num_chapters length) in
  let* names := eval (char_names characters) in
  eval (join_check (VList names)) ;;;
  let* response := _generate_text in
  ret (_parse_outline response n).

(** [_write_chapter] *)
Definition _write_chapter (chapter_num : Z) (outline : dict)
    (characters : list pyval) : prog AuthorWorker dict :=
  eval (char_descriptions characters) ;;;
  let* chapter_text := _generate_text in
  ret (list_to_map
    [ ("number", VInt chapter_num);
      ("title", get_or outline "title"
                  (VStr ("Chapter " ++ pretty chapter_num)));
      ("text", VStr chapter_text);
      ("outline", VDict outline) ]).

(** [_identify_illustration_scenes] *)
Definition _identify_illustration_scenes (chapter : dict)
  : prog AuthorWorker (list pyval) :=
  (* the prompt: [chapter['title']] and [chapter['text'][:500]] *)
  eval (subscript chapter "title") ;;;
  let* text := eval (subscript chapter "text") in
  eval (slice_to 500 text) ;;;
  let* response := _generate_text in
  let* number := eval (int_item chapter "number") in
  ret (_parse_scenes response number).

(** the [for i, chapter_outline in enumerate(outline)] loop of
    [execute_task], from index [i] on; it returns the chapters written *)
Fixpoint write_chapters (i : nat) (outline : list dict)
    (characters : list pyval) : prog AuthorWorker (list pyval) :=
  match outline with
  | [] => ret []
  | chapter_outline :: rest =>
      let* chapter :=
        _write_chapter (Z.of_nat (S i)) chapter_outline characters in
      let* scenes := _identify_illustration_scenes chapter in
      modify (extend_scenes scenes) ;;;
      let* chapters := write_chapters (S i) rest characters in
      ret (VDict chapter :: chapters)
  end.

(** [execute_task]; the result's [story] is [self.current_story] as it
    is when the task returns *)
Definition execute_task (task : dict) : prog AuthorWorker dict :=
  modify (set_status "working") ;;;
  let plot_idea := get_or task "plot" (VStr EmptyString) in
  let themes := get_or task "themes" (VList []) in
  let length := get_or task "length" (VStr "short") in
  modify (set_plot plot_idea) ;;;
  modify (set_themes themes) ;;;
  let* characters := _develop_characters plot_idea themes in
  modify (set_characters characters) ;;;
  let* outline := _create_outline plot_idea characters length in
  let* chapters := write_chapters 0 outline characters in
  modify (set_chapters chapters) ;;;
  modify (set_status "ready") ;;;
  let* self := get_state in
  ret (list_to_map
    [ ("story", VDict (current_story self));
      ("status", VStr "complete");
      ("chapters", VList chapters);
      ("illustration_scenes",
       VList (scenes_for_illustration (agent self))) ]).

End Writing.

(** the scenes a story of [n] chapters adds, from chapter [S i] on *)
Fixpoint scenes_from (i n : nat) : list pyval :=
  match n with
  | 0 => []
  | S n' => (_parse_scenes EmptyString (Z.of_nat (S i))
             ++ scenes_from (S i) n')%list
  end.


End author_extras.

Module service_extras.
Import message_broker agent_service.

(** [data.get(k, dflt)] where the constructor's annotation asks for a
    [str], and for a [dict]; as in [from_dict], a value of another kind
    is outside the annotated input type and rejected *)
Definition str_or (data : dict) (k dflt : string) : outcome string :=
  match data !! k with
  | None => Ok dflt
  | Some (VStr s) => Ok s
  | Some _ => Raise (TypeError ("'" ++ k ++ "' is not a str"))
  end.
Definition dict_or (data : dict) (k : string) (dflt : dict) : outcome dict :=
  match data !! k with
  | None => Ok dflt
  | Some (VDict d) => Ok d
  | Some _ => Raise (TypeError ("'" ++ k ++ "' is not a dict"))
  end.

Section Routes.
Context {Disk Agent : Type}.
Variable write_json : string -> dict -> Disk -> option exn * Disk.
Variable uuid4 : nat -> string.
Variable now : nat -> string.

(** The handler of [POST /send], on the JSON body [data]; it returns
    the body of the response. *)
Definition send_message (data : dict) : prog (AgentService Disk Agent) dict :=
  let* self := get_state in
  let n := clock self in
  modify (set_clock (S n)) ;;;
  let* sender := eval (str_or data "sender" "external") in
  let* message_type := eval (str_or data "message_type" "request") in
  let* content := eval (dict_or data "content" ∅) in
  let* correlation_id := eval (opt_str_item data "correlation_id") in
  let message :=
    Message_init (uuid4 n) sender (agent_name self) message_type content
                 correlation_id (now n) in
  on_broker (publish write_json message) ;;;
  ret (list_to_map [ ("status", VStr "accepted");
                     ("message_id", VStr (message_id message)) ]).

End Routes.

(** a [stop()] is among the events *)
Definition stops (evs : list event) : bool :=
  existsb (fun ev => match ev with Stop => true | _ => false end) evs.

End service_extras.

Module orchestrator_extras.
Import message_broker distributed_orchestrator.

(** A message the poll loop of the task [cid] passes over: one of
    another correlation id, or one of its own whose action is neither
    [complete] nor [error]. *)
Definition passed_over (cid : string) (m : Message) : bool :=
  negb (String.eqb (correlation_id m) cid)
  || (negb (eq_str (get (content m) "action") "complete")
      && negb (eq_str (get (content m) "action") "error")).


(** rounds in which nothing arrives, with the given clock readings *)
Definition quiet (readings : list Z) : list round :=
  map (fun t => (t, [])) readings.

(** the request [create_story] publishes *)
Definition story_request (story_idea0 : dict)
    (fresh_correlation_id fresh_message_id now : string) : Message :=
  Message_init fresh_message_id "Orchestrator" "AuthorService" "request"
    (story_idea0 ∪ {["action" := VStr "create_story"]})
    (Some fresh_correlation_id) now.

End orchestrator_extras.

(** ** More concrete inputs *)

Module more_fixtures.
Import fixtures.

(** a body for [POST /send] *)
Definition send_data : dict :=
  list_to_map [ ("content", VDict {["plot" := VStr "X"]});
                ("correlation_id", VStr "task-9") ].

(** what a handler returned, or the empty mapping *)
Definition forwarded {S} (r : outcome (option dict) * S) : dict :=
  match r.1 with Ok (Some d) => d | _ => ∅ end.

(** a running service of the given name around [stub_task] *)
Definition service_named (name : string)
  : agent_service.AgentService Files nat :=
  agent_service.set_running true
    (agent_service.AgentService_init 0 name broker0).

(** the message a service sends on for [m], as the next service
    receives it *)
Definition sent_on (name next id : string) (m : message_broker.Message)
  : message_broker.Message :=
  message_broker.Message_init id name next "request"
    (forwarded (agent_service._handle_message stub_task m (service_named name)))
    (Some (message_broker.correlation_id m)) "2024-05-01T10:00:01".

Definition to_illustrator : message_broker.Message :=
  sent_on "AuthorService" "IllustratorService" "uuid-1" good_request.
Definition to_publisher : message_broker.Message :=
  sent_on "IllustratorService" "PublisherService" "uuid-2" to_illustrator.

(** a response for another task, waiting in the orchestrator's queue *)
Definition other_message : message_broker.Message :=
  message_broker.Message_init "uuid-6" "PublisherService" "Orchestrator" "response"
    (list_to_map [ ("receiver", VStr "Orchestrator");
                   ("action", VStr "complete");
                   ("result", VDict ∅);
                   ("correlation_id", VStr "task-0") ])
    (Some "task-0") "2024-05-01T10:00:02".

(** the orchestrator after the request of [task-1], with three
    responses waiting *)
Definition crowded : distributed_orchestrator.DistributedOrchestrator Files :=
  let s := (distributed_run_on idea []).2 in
  distributed_orchestrator.set_broker
    (message_broker.run_calls disk_works
       (map message_broker.CallPublish
            [other_message; complete_message; error_message])
       (distributed_orchestrator.broker s)).2 s.

(** what [create_story] returned, or the empty mapping *)
Definition final_result {S} (r : outcome (option dict) * S) : dict :=
  forwarded r.

(** a scene with no description *)
Definition bare_scene : dict := {["id" := VStr "ch1_scene1"]}.

(** the author of the source, no model loaded, holding that scene, and
    the orchestrator around it *)
Definition bare_studio
  : coordinator.StoryOrchestrator author_agent.AuthorAgent :=
  coordinator.mkOrchestrator ∅ (unloaded_author [VDict bare_scene]) 0 [].
Definition bare_answer :=
  author_agent.receive_message author_clock out_of_memory
    (coordinator.clarification_request bare_scene (clock 0))
    (unloaded_author [VDict bare_scene]).
Definition answer_of {S} (r : outcome (option base_agent.Message) * S)
  : option base_agent.Message :=
  match r.1 with Ok a => a | Raise _ => None end.

(** a message that is no request *)
Definition notice : base_agent.Message :=
  base_agent.Message_init "Orchestrator" "AuthorAgent"
    {["action" := VStr "create_story"]} "info" 0.

(** the in-process pipeline with the stub agents *)
Definition stub_run :=
  coordinator.create_story (W := unit)
    stub_writer stub_illustrator stub_publisher
    (fun _ _ w => w) clock idea
    (coordinator.mkOrchestrator ∅ tt 0 []).

(** a loaded author that has written nothing yet, and its model *)
Definition sample (k : nat) : outcome string :=
  Ok ("Once upon a time " ++ pretty k).


(** a wrapped unit that fails on every task, and one round of the
    service [name] around the unit [task] on the broker [b] *)
Definition failing_task (task : dict) : prog nat pyval :=
  fun n => (Raise (Exn "RuntimeError" "generation failed"), S n).
Definition service_round_with (task : dict -> prog nat pyval) (name : string)
    (b : message_broker.MessageBroker Files)
  : message_broker.MessageBroker Files :=
  agent_service.broker
    (agent_service.process_round disk_works task uuid4 now_iso
       (agent_service.set_running true
          (agent_service.AgentService_init 0 name b))).2.

End more_fixtures.

(** * Properties *)

(** unfolding the effect monad *)
Ltac run_prog :=
  unfold bind, ret, raise, modify, get_state, eval, zoom, try_except; simpl.



(** ** Running the effect monad *)

Lemma bind_ok {S A B} (m : prog S A) (k : A -> prog S B) s a s' :
  m s = (Ok a, s') -> bind m k s = k a s'.
Proof. intros H. unfold bind. by rewrite H. Qed.


Lemma zoom_ok {S T A} (proj : S -> T) (upd : T -> S -> S) (m : prog T A) s r t' :
  m (proj s) = (r, t') -> zoom proj upd m s = (r, upd t' s).
Proof. intros H. unfold zoom. by rewrite H. Qed.

(** ** The message envelope *)

Section MessageFacts.
Import message_broker.

Lemma or_str_nonempty (c : option string) (d : string) :
  d ≠ EmptyString -> or_str c d ≠ EmptyString.
Proof.
  intros Hd. destruct c as [s|]; simpl; [|done].
  destruct (String.eqb_spec s EmptyString); done.
Qed.

Lemma or_str_keep (s d : string) : s ≠ EmptyString -> or_str (Some s) d = s.
Proof. intros Hs. simpl. by destruct (String.eqb_spec s EmptyString). Qed.

Lemma from_dict_correlation_id (data : dict) (now : string) (m : Message) :
  from_dict data now = Ok m ->
  exists cid, opt_str_item data "correlation_id" = Ok cid
              /\ correlation_id m = or_str cid (message_id m).
Proof.
  unfold from_dict. intros H.
  destruct (str_item data "message_id") as [mid|]; simpl in H; [|done].
  destruct (str_item data "sender") as [sd|]; simpl in H; [|done].
  destruct (str_item data "receiver") as [rc|]; simpl in H; [|done].
  destruct (str_item data "message_type") as [mt|]; simpl in H; [|done].
  destruct (dict_item data "content") as [ct|]; simpl in H; [|done].
  destruct (opt_str_item data "correlation_id") as [cid|]; simpl in H; [|done].
  exists cid. split; [done|].
  destruct (data !! "timestamp"); simpl in H.
  - destruct (str_item data "timestamp"); simpl in H; [|done].
    by inversion H.
  - by inversion H.
Qed.

Lemma from_dict_defaulted (m : Message) (now : string) (v : option pyval) :
  v = None \/ v = Some VNone \/ v = Some (VStr EmptyString) ->
  from_dict (message_broker.with_correlation_entry v m) now = Ok (message_broker.defaulted m).
Proof.
  intros [-> | [-> | ->]]; destruct m; vm_compute; reflexivity.
Qed.

End MessageFacts.

(** C10.  A falsy [correlation_id] is replaced, not only an absent one:
    a [Message] constructed with [correlation_id] [None] or [''] gets
    its [message_id] as correlation id; so does a message rebuilt by
    [from_dict] from a mapping whose [correlation_id] entry is absent,
    [None] or [''] (and [from_dict] does return on a serialized message
    changed in that way); hence a message whose [message_id] is not
    empty never has an empty [correlation_id], whatever the caller
    passed. *)
Theorem falsy_correlation_id_replaced
    (mid snd rcv mty : string) (cnt : dict) (now : string)
    (m0 : message_broker.Message) :
  let init := message_broker.Message_init mid snd rcv mty cnt in
  message_broker.correlation_id (init None now) = mid
  /\ message_broker.correlation_id (init (Some EmptyString) now) = mid
  /\ (forall v, v = None \/ v = Some VNone \/ v = Some (VStr EmptyString) ->
        message_broker.from_dict (message_broker.with_correlation_entry v m0) now
        = Ok (message_broker.defaulted m0))
  /\ (forall data m,
        message_broker.from_dict data now = Ok m ->
        data !! "correlation_id" = None
        \/ data !! "correlation_id" = Some VNone
        \/ data !! "correlation_id" = Some (VStr EmptyString) ->
        message_broker.correlation_id m = message_broker.message_id m)
  /\ (forall cid, mid ≠ EmptyString ->
        message_broker.correlation_id (init cid now) ≠ EmptyString)
  /\ (forall data m,
        message_broker.from_dict data now = Ok m ->
        message_broker.message_id m ≠ EmptyString ->
        message_broker.correlation_id m ≠ EmptyString).
Proof.
  simpl. repeat split.
  - intros v Hv. by apply from_dict_defaulted.
  - intros data m Hm Hc.
    destruct (from_dict_correlation_id _ _ _ Hm) as (cid & Hcid & ->).
    unfold message_broker.opt_str_item in Hcid.
    destruct Hc as [Hc | [Hc | Hc]]; rewrite Hc in Hcid;
      inversion Hcid; reflexivity.
  - intros cid Hmid. by apply or_str_nonempty.
  - intros data m Hm Hne.
    destruct (from_dict_correlation_id _ _ _ Hm) as (cid & _ & ->).
    by apply or_str_nonempty.
Qed.

(** The constructor given [''] for a message with id [m-1], and
    [from_dict] on the same message serialized without the entry. *)
Lemma falsy_correlation_id_replaced_witness :
  let m := message_broker.Message_init "m-1" "a" "b" "request" ∅ (Some EmptyString) "t0" in
  message_broker.correlation_id m ≠ EmptyString
  /\ message_broker.from_dict (message_broker.with_correlation_entry None m) "t1" = Ok (message_broker.defaulted m).
Proof.
  pose proof (falsy_correlation_id_replaced "m-1" "a" "b" "request" ∅ "t1"
                (message_broker.Message_init "m-1" "a" "b" "request" ∅ (Some EmptyString) "t0"))
    as (_ & _ & Hfrom & _ & Hne & _).
  split.
  - apply (Hne (Some EmptyString)). discriminate.
  - apply Hfrom. left. reflexivity.
Defined.

(** ** The broker *)

Section BrokerFacts.
Import message_broker.
Context {Disk : Type}.
Variable write_json : string -> dict -> Disk -> option exn * Disk.

Abbreviation Broker := (MessageBroker Disk).

Lemma create_queue_spec (n : string) (b : Broker) :
  create_queue n b
  = (Ok tt, match queues b !! n with
            | None => set_queues (<[n := []]> (queues b)) b
            | Some _ => b
            end).
Proof. unfold create_queue. run_prog. by destruct (queues b !! n). Qed.

Lemma _save_message_spec (m : Message) (b : Broker) :
  _save_message write_json m b
  = (Ok tt,
     set_disk (write_json (storage_path b ++ "/" ++ message_id m ++ ".json")
                          (to_dict m) (disk b)).2 b).
Proof.
  unfold _save_message. run_prog.
  by destruct (write_json _ _ _) as [[e|] d'].
Qed.

Lemma publish_spec (m : Message) (b : Broker) :
  exists b',
    publish write_json m b = (Ok tt, b')
    /\ queues b' = enqueued m (queues b)
    /\ message_history b' = (message_history b ++ [m])%list
    /\ subscribers b' = subscribers b
    /\ storage_path b' = storage_path b
    /\ threads b'
       = (threads b
          ++ map (fun cb => (cb, m)) (default [] (subscribers b !! receiver m)))%list
    /\ disk b'
       = (write_json (storage_path b ++ "/" ++ message_id m ++ ".json")
                     (to_dict m) (disk b)).2.
Proof.
  unfold publish, enqueued.
  rewrite (bind_ok _ _ b b b) by reflexivity.
  destruct (queues b !! receiver m) as [q|] eqn:Hq.
  - run_prog. rewrite Hq. simpl. rewrite _save_message_spec. simpl.
    destruct (subscribers b !! receiver m) eqn:Hs; simpl;
      eexists; (split; [reflexivity|]); simpl; rewrite ?app_nil_r; done.
  - rewrite (bind_ok _ _ _ tt _ (create_queue_spec _ _)). rewrite Hq.
    run_prog. rewrite lookup_insert_eq. simpl. rewrite insert_insert_eq.
    rewrite _save_message_spec. simpl.
    destruct (subscribers b !! receiver m) eqn:Hs; simpl;
      eexists; (split; [reflexivity|]); simpl; rewrite ?app_nil_r; done.
Qed.

Lemma subscribe_spec (n : string) (cb : callback) (b : Broker) :
  exists b',
    subscribe n cb b = (Ok tt, b')
    /\ queues b' = queues b
    /\ message_history b' = message_history b.
Proof.
  unfold subscribe. run_prog.
  destruct (subscribers b !! n) eqn:Hs; simpl.
  - rewrite Hs. eexists. split; [reflexivity|]. done.
  - rewrite lookup_insert_eq. eexists. split; [reflexivity|]. done.
Qed.

Lemma receive_spec (n : string) (b : Broker) :
  exists r b',
    receive n b = (Ok r, b')
    /\ message_history b' = message_history b
    /\ subscribers b' = subscribers b
    /\ storage_path b' = storage_path b
    /\ disk b' = disk b
    /\ threads b' = threads b
    /\ match queues b !! n with
       | Some (m :: q) => r = Some m /\ queues b' = <[n := q]> (queues b)
       | Some [] => r = None /\ queues b' = queues b
       | None => r = None /\ queues b' = <[n := []]> (queues b)
       end.
Proof.
  unfold receive.
  rewrite (bind_ok _ _ b b b) by reflexivity.
  destruct (queues b !! n) as [[|m q]|] eqn:Hq.
  - run_prog. rewrite Hq. by eexists _, _.
  - run_prog. rewrite Hq. by eexists _, _.
  - rewrite (bind_ok _ _ _ tt _ (create_queue_spec _ _)). rewrite Hq.
    run_prog. rewrite lookup_insert_eq. by eexists _, _.
Qed.

Lemma clear_queue_spec (n : string) (b : Broker) :
  exists b',
    clear_queue n b = (Ok tt, b')
    /\ message_history b' = message_history b
    /\ (forall k, is_Some (queues b !! k) -> is_Some (queues b' !! k)).
Proof.
  unfold clear_queue. run_prog.
  destruct (queues b !! n) eqn:Hq; simpl; eexists; (split; [reflexivity|]);
    (split; [done|]); simpl; [|done].
  intros k Hk. destruct (decide (n = k)) as [->|Hne].
  - rewrite lookup_insert_eq. eauto.
  - by rewrite lookup_insert_ne.
Qed.

(** no call raises, a call other than [publish] leaves the history
    alone, and no call removes a queue *)
Lemma run_call_spec (c : call) (b : Broker) :
  exists b',
    run_call write_json c b = (Ok tt, b')
    /\ message_history b' = (message_history b ++ published [c])%list
    /\ (forall k, is_Some (queues b !! k) -> is_Some (queues b' !! k)).
Proof.
  destruct c as [n|m|n cb|n|n]; simpl.
  - rewrite create_queue_spec. eexists. split; [reflexivity|].
    rewrite app_nil_r.
    destruct (queues b !! n) eqn:Hq; simpl; (split; [done|]); [done|].
    intros k Hk. destruct (decide (n = k)) as [->|Hne].
    + rewrite lookup_insert_eq. eauto.
    + by rewrite lookup_insert_ne.
  - destruct (publish_spec m b) as (b' & Hp & Hqs & Hh & _).
    exists b'. split; [done|]. split; [done|].
    intros k Hk. rewrite Hqs. unfold enqueued.
    destruct (decide (receiver m = k)) as [->|Hne].
    + rewrite lookup_insert_eq. eauto.
    + by rewrite lookup_insert_ne.
  - destruct (subscribe_spec n cb b) as (b' & Hp & Hqs & Hh).
    exists b'. rewrite app_nil_r, Hqs. done.
  - destruct (receive_spec n b) as (r & b' & Hr & Hh & _ & _ & _ & _ & Hq).
    exists b'. rewrite (bind_ok _ _ _ _ _ Hr). run_prog.
    rewrite app_nil_r. split; [done|]. split; [done|].
    intros k Hk.
    destruct (queues b !! n) as [[|m q]|] eqn:Hn; destruct Hq as [_ ->];
      [done| |];
      (destruct (decide (n = k)) as [->|Hne];
       [rewrite lookup_insert_eq; eauto | by rewrite lookup_insert_ne]).
  - destruct (clear_queue_spec n b) as (b' & Hc & Hh & Hq).
    exists b'. rewrite app_nil_r. done.
Qed.

Lemma published_cons (c : call) (cs : list call) :
  published (c :: cs) = (published [c] ++ published cs)%list.
Proof. unfold published. simpl. by destruct c. Qed.

Lemma run_calls_spec (cs : list call) (b : Broker) :
  exists b',
    run_calls write_json cs b = (Ok tt, b')
    /\ message_history b' = (message_history b ++ published cs)%list
    /\ (forall k, is_Some (queues b !! k) -> is_Some (queues b' !! k)).
Proof.
  revert b. induction cs as [|c cs IH]; intros b.
  - exists b. simpl. rewrite app_nil_r. done.
  - destruct (run_call_spec c b) as (b1 & H1 & Hh1 & Hq1).
    destruct (IH b1) as (b2 & H2 & Hh2 & Hq2).
    exists b2. split; [simpl; by rewrite (bind_ok _ _ _ _ _ H1)|].
    split; [|by auto].
    by rewrite Hh2, Hh1, (published_cons c cs), <- app_assoc.
Qed.

Lemma filter_none {A} (P : A -> Prop) `{!forall x, Decision (P x)} (l : list A) :
  Forall (fun x => ~ P x) l -> filter P l = [].
Proof.
  induction 1 as [|x l Hx _ IH]; [done|].
  by rewrite filter_cons_False.
Qed.

(** a map holds one entry per key *)
Lemma one_entry_per_key {V} (m : gmap string V) (k : string) :
  is_Some (m !! k) ->
  List.length (filter (fun kv => kv.1 = k) (map_to_list m)) = 1.
Proof.
  intros [v Hv].
  rewrite <- (insert_delete_id _ _ _ Hv).
  rewrite map_to_list_insert by apply lookup_delete_eq.
  rewrite filter_cons_True by done. simpl. f_equal.
  rewrite filter_none; [done|].
  apply Forall_forall. intros [k' v'] Hin Hk. simpl in Hk. subst k'.
  apply elem_of_map_to_list in Hin. by rewrite lookup_delete_eq in Hin.
Qed.

(** C5.  Whatever calls the participants make on the broker, in
    whatever interleaving, [get_messages_by_correlation c] returns
    exactly the published messages whose [correlation_id] is [c], in
    publish order (after those the history already held): every
    message returned carries [c], so none of a differently correlated
    task is among them, and the result is a subsequence of the
    history.  On a new broker it is the filtered publish sequence
    itself. *)
Theorem get_messages_by_correlation_exact
    (c : string) (cs : list call) (b : Broker)
    (path : option string) (d : Disk) :
  let b' := (run_calls write_json cs b).2 in
  let b0' := (run_calls write_json cs (MessageBroker_init path d)).2 in
  (run_calls write_json cs b).1 = Ok tt
  /\ get_messages_by_correlation c b'
     = (get_messages_by_correlation c b
        ++ filter (fun m => correlation_id m = c) (published cs))%list
  /\ get_messages_by_correlation c b0'
     = filter (fun m => correlation_id m = c) (published cs)
  /\ Forall (fun m => correlation_id m = c) (get_messages_by_correlation c b')
  /\ sublist (get_messages_by_correlation c b') (message_history b').
Proof.
  simpl.
  destruct (run_calls_spec cs b) as (b' & Hr & Hh & _).
  destruct (run_calls_spec cs (MessageBroker_init path d)) as (b0' & Hr0 & Hh0 & _).
  rewrite Hr, Hr0. simpl. unfold get_messages_by_correlation.
  rewrite Hh, Hh0. simpl. rewrite filter_app.
  repeat split.
  - rewrite <- filter_app. apply Forall_forall. intros m Hm.
    by apply list_elem_of_filter in Hm as [? _].
  - rewrite <- filter_app. apply sublist_filter.
Qed.

(** C7.  [create_queue] is idempotent.  The first call returns and
    leaves a queue for [name]; a second call, made right away or after
    any further broker calls [cs] (which may have enqueued messages),
    returns and leaves the whole broker, that queue and its messages
    included, as it found it; the queue map holds exactly one queue
    for [name]. *)
Theorem create_queue_idempotent
    (name : string) (b : Broker) (cs : list call) :
  let b1 := (create_queue name b).2 in
  let b2 := (run_calls write_json cs b1).2 in
  (create_queue name b).1 = Ok tt
  /\ is_Some (queues b1 !! name)
  /\ create_queue name b1 = (Ok tt, b1)
  /\ create_queue name b2 = (Ok tt, b2)
  /\ List.length (filter (fun kv => kv.1 = name) (map_to_list (queues b2))) = 1.
Proof.
  simpl. rewrite (create_queue_spec name b). simpl.
  set (b1 := match queues b !! name with
             | Some _ => b
             | None => set_queues (<[name:=[]]> (queues b)) b
             end).
  assert (H1 : is_Some (queues b1 !! name)).
  { subst b1. destruct (queues b !! name) eqn:Hq; simpl.
    - rewrite Hq. eauto.
    - rewrite lookup_insert_eq. eauto. }
  destruct (run_calls_spec cs b1) as (b2 & Hr & _ & Hq2).
  rewrite Hr. simpl.
  pose proof (Hq2 _ H1) as H2.
  repeat split; try done.
  - rewrite create_queue_spec. by destruct H1 as [q ->].
  - rewrite create_queue_spec. by destruct H2 as [q ->].
  - by apply one_entry_per_key.
Qed.

End BrokerFacts.

(** C6.  When the write of the message file raises, [publish] still
    returns, and the receiver's queue, the history and the callback
    threads started are those of a [publish] whose write succeeds: the
    message is at the tail of its receiver's queue and at the end of
    the history. *)
Theorem publish_survives_write_failure {Disk : Type}
    (write_fails write_works : string -> dict -> Disk -> option exn * Disk)
    (message : message_broker.Message) (b : message_broker.MessageBroker Disk)
    (e : exn) (d1 d2 : Disk) :
  let path := message_broker.storage_path b ++ "/"
              ++ message_broker.message_id message ++ ".json" in
  write_fails path (message_broker.to_dict message) (message_broker.disk b)
  = (Some e, d1) ->
  write_works path (message_broker.to_dict message) (message_broker.disk b)
  = (None, d2) ->
  exists b_failed b_saved,
    message_broker.publish write_fails message b = (Ok tt, b_failed)
    /\ message_broker.publish write_works message b = (Ok tt, b_saved)
    /\ message_broker.queues b_failed = message_broker.enqueued message (message_broker.queues b)
    /\ message_broker.message_history b_failed
       = (message_broker.message_history b ++ [message])%list
    /\ message_broker.queues b_failed = message_broker.queues b_saved
    /\ message_broker.message_history b_failed
       = message_broker.message_history b_saved
    /\ message_broker.threads b_failed = message_broker.threads b_saved.
Proof.
  intros path _ _.
  destruct (publish_spec write_fails message b)
    as (bf & Hf & Hqf & Hhf & _ & _ & Htf & _).
  destruct (publish_spec write_works message b)
    as (bs & Hs & Hqs & Hhs & _ & _ & Hts & _).
  exists bf, bs. repeat split; congruence.
Qed.

(** ** The worker wrapper *)

Section ServiceFacts.
Import message_broker agent_service.
Context {Disk Agent : Type}.
Variable write_json : string -> dict -> Disk -> option exn * Disk.
Variable execute_task : dict -> prog Agent pyval.
Variable uuid4 : nat -> string.
Variable now : nat -> string.

Abbreviation Service := (AgentService Disk Agent).
Abbreviation handle := (_handle_message (Disk := Disk) execute_task).
Abbreviation round := (process_round write_json execute_task uuid4 now).
Abbreviation loop := (_process_messages write_json execute_task uuid4 now).

Lemma truthy_dict (d : dict) (k : string) (v : pyval) :
  d !! k = Some v -> truthy (VDict d) = true.
Proof.
  intros H. simpl. apply negb_true_iff, bool_decide_eq_false.
  intros ->. by rewrite lookup_empty in H.
Qed.

Lemma routed_action (act rcv next : string) :
  routing_table act = Some (rcv, next) ->
  truthy (VStr act) = true
  /\ ((act = "create_story" /\ rcv = "IllustratorService"
       /\ next = "generate_illustrations")
      \/ (act = "generate_illustrations" /\ rcv = "PublisherService"
          /\ next = "create_publication")
      \/ (act = "create_publication" /\ rcv = "Orchestrator"
          /\ next = "complete")).
Proof.
  unfold routing_table.
  destruct (String.eqb_spec act "create_story") as [->|_].
  { intros [= <- <-]. split; [done|]. by left. }
  destruct (String.eqb_spec act "generate_illustrations") as [->|_].
  { intros [= <- <-]. split; [done|]. right. by left. }
  destruct (String.eqb_spec act "create_publication") as [->|_]; [|done].
  intros [= <- <-]. split; [done|]. right. by right.
Qed.

(** a known action whose task returns *)
Lemma handle_routed (m : Message) (s : Service) (act rcv next : string)
    (result : pyval) (a' : Agent) :
  get (content m) "action" = VStr act ->
  routing_table act = Some (rcv, next) ->
  execute_task (content m) (agent s) = (Ok result, a') ->
  exists response,
    handle m s = (Ok (Some response), set_agent a' s)
    /\ response !! "receiver" = Some (VStr rcv)
    /\ response !! "action" = Some (VStr next)
    /\ response !! "correlation_id" = Some (VStr (correlation_id m)).
Proof.
  intros Hact Hroute Hexec. unfold _handle_message. rewrite Hact.
  destruct (routed_action _ _ _ Hroute) as [-> Hcases]. simpl.
  destruct Hcases as [(-> & -> & ->) | [(-> & -> & ->) | (-> & -> & ->)]];
    simpl; unfold try_except, bind, on_agent, zoom; rewrite Hexec; simpl;
    eexists; (split; [reflexivity|]); done.
Qed.

(** a known action whose task raises *)
Lemma handle_raised (m : Message) (s : Service) (act rcv next : string)
    (e : exn) (a' : Agent) :
  get (content m) "action" = VStr act ->
  routing_table act = Some (rcv, next) ->
  execute_task (content m) (agent s) = (Raise e, a') ->
  handle m s
  = (Ok (Some (list_to_map
       [ ("receiver", VStr (sender m));
         ("action", VStr "error");
         ("error", VStr (str_of_exn e));
         ("correlation_id", VStr (correlation_id m)) ])),
     set_agent a' s).
Proof.
  intros Hact Hroute Hexec. unfold _handle_message. rewrite Hact.
  destruct (routed_action _ _ _ Hroute) as [-> Hcases]. simpl.
  destruct Hcases as [(-> & -> & ->) | [(-> & -> & ->) | (-> & -> & ->)]];
    simpl; unfold try_except, bind, on_agent, zoom; rewrite Hexec; done.
Qed.

(** no action, or one the table does not know *)
Lemma handle_dropped (m : Message) (s : Service) :
  (forall act, get (content m) "action" = VStr act ->
               routing_table act = None) ->
  handle m s = (Ok None, s).
Proof.
  intros Hnone. unfold _handle_message.
  destruct (get (content m) "action") as [| | |act| |] eqn:Hact;
    try (by destruct (negb (truthy _))).
  specialize (Hnone act eq_refl). unfold routing_table in Hnone.
  destruct (negb (truthy (VStr act))); [done|]. simpl.
  destruct (String.eqb act "create_story"); [done|].
  destruct (String.eqb act "generate_illustrations"); [done|].
  destruct (String.eqb act "create_publication"); done.
Qed.

Lemma receive_head (n : string) (b : MessageBroker Disk) (m : Message)
    (q : list Message) :
  queues b !! n = Some (m :: q) ->
  receive n b = (Ok (Some m), set_queues (<[n := q]> (queues b)) b).
Proof. intros H. unfold receive. run_prog. by rewrite !H. Qed.

(** A round that finds [m] at the head of the service's queue and in
    which [_handle_message] hands back a non-empty [response]
    publishes one message, built from [response]. *)
Lemma round_publishes (s s1 : Service) (m : Message) (q : list Message)
    (response : dict) (rcv : string) :
  queues (broker s) !! agent_name s = Some (m :: q) ->
  handle m (set_broker (set_queues (<[agent_name s := q]> (queues (broker s)))
                                   (broker s)) s)
  = (Ok (Some response), s1) ->
  agent_name s1 = agent_name s -> clock s1 = clock s ->
  running s1 = running s ->
  broker s1 = set_queues (<[agent_name s := q]> (queues (broker s))) (broker s) ->
  response !! "receiver" = Some (VStr rcv) ->
  let r := Message_init (uuid4 (clock s)) (agent_name s) rcv "response"
                        response (Some (correlation_id m)) (now (clock s)) in
  exists s',
    round s = (Ok tt, s')
    /\ agent s' = agent s1
    /\ agent_name s' = agent_name s
    /\ running s' = running s
    /\ clock s' = S (clock s)
    /\ message_history (broker s')
       = (message_history (broker s) ++ [r])%list
    /\ queues (broker s')
       = enqueued r (<[agent_name s := q]> (queues (broker s))).
Proof.
  intros Hq Hh Hn Hc Hr Hb Hrcv r.
  destruct (publish_spec write_json r (broker s1))
    as (b' & Hp & Hqs & Hhist & _).
  exists (set_broker b' (set_clock (S (clock s)) s1)).
  split.
  - unfold process_round, try_except.
    rewrite (bind_ok _ _ s s s) by reflexivity.
    rewrite (bind_ok _ _ _ _ _
               (zoom_ok broker set_broker _ _ _ _ (receive_head _ _ _ _ Hq))).
    rewrite (bind_ok _ _ _ _ _ Hh).
    rewrite (truthy_dict _ _ _ Hrcv).
    rewrite (bind_ok _ _ s1 s1 s1) by reflexivity.
    unfold get_or. rewrite Hrcv. simpl.
    unfold bind at 1. unfold bind at 1. simpl. unfold modify, eval. simpl.
    unfold on_broker, zoom. simpl. rewrite Hn, Hc. fold r. rewrite Hp.
    reflexivity.
  - simpl. rewrite Hqs, Hhist, Hb. simpl. done.
Qed.

(** A round that finds [m] at the head of the queue and in which
    [_handle_message] hands back nothing publishes nothing. *)
Lemma round_drops (s : Service) (m : Message) (q : list Message) :
  queues (broker s) !! agent_name s = Some (m :: q) ->
  (forall act, get (content m) "action" = VStr act ->
               routing_table act = None) ->
  round s
  = (Ok tt, set_broker (set_queues (<[agent_name s := q]> (queues (broker s)))
                                   (broker s)) s).
Proof.
  intros Hq Hnone.
  unfold process_round, try_except.
  rewrite (bind_ok _ _ s s s) by reflexivity.
  rewrite (bind_ok _ _ _ _ _
             (zoom_ok broker set_broker _ _ _ _ (receive_head _ _ _ _ Hq))).
  rewrite (bind_ok _ _ _ _ _ (handle_dropped m _ Hnone)).
  reflexivity.
Qed.

(** C4.  The dispatch of the worker wrapper is the static routing
    table.  Let [m] be the message a round of the loop receives.  If
    the table sends [m]'s action to [(rcv, next)] and the wrapped
    unit's task execution, invoked on [m]'s payload, returns, then
    [_handle_message] produces a response naming receiver [rcv] and
    action [next], and the round publishes exactly that one message,
    addressed to [rcv]; it carries [m]'s correlation id in its payload,
    and as its own [correlation_id] whenever [m]'s is not empty (which
    holds for every message constructed with a non-empty id).  If the
    action is missing or not in the table, [_handle_message] produces
    nothing, the task is not executed and nothing is published: the
    message is dropped. *)
Theorem dispatch_follows_routing_table
    (s : Service) (m : Message) (q : list Message) :
  queues (broker s) !! agent_name s = Some (m :: q) ->
  let popped := <[agent_name s := q]> (queues (broker s)) in
  (forall act rcv next result a',
      get (content m) "action" = VStr act ->
      routing_table act = Some (rcv, next) ->
      execute_task (content m) (agent s) = (Ok result, a') ->
      exists r s',
        (handle m s).1 = Ok (Some (content r))
        /\ round s = (Ok tt, s')
        /\ agent s' = a'
        /\ message_history (broker s')
           = (message_history (broker s) ++ [r])%list
        /\ queues (broker s') = enqueued r popped
        /\ sender r = agent_name s
        /\ receiver r = rcv
        /\ message_type r = "response"
        /\ content r !! "receiver" = Some (VStr rcv)
        /\ content r !! "action" = Some (VStr next)
        /\ content r !! "correlation_id" = Some (VStr (correlation_id m))
        /\ (correlation_id m ≠ EmptyString -> correlation_id r = correlation_id m))
  /\ ((forall act, get (content m) "action" = VStr act ->
                   routing_table act = None) ->
      exists s',
        handle m s = (Ok None, s)
        /\ round s = (Ok tt, s')
        /\ agent s' = agent s
        /\ message_history (broker s') = message_history (broker s)
        /\ threads (broker s') = threads (broker s)
        /\ queues (broker s') = popped).
Proof.
  intros Hq popped. split.
  - intros act rcv next result a' Hact Hroute Hexec.
    set (s0 := set_broker (set_queues popped (broker s)) s).
    destruct (handle_routed m s0 act rcv next result a' Hact Hroute Hexec)
      as (response & Hh & Hrcv & Hnext & Hcid).
    destruct (handle_routed m s act rcv next result a' Hact Hroute Hexec)
      as (response' & Hh' & _).
    assert (response' = response) as ->.
    { unfold _handle_message in Hh, Hh'. rewrite Hact in Hh, Hh'.
      destruct (routed_action _ _ _ Hroute) as [Ht Hcases].
      rewrite Ht in Hh, Hh'. simpl in Hh, Hh'.
      destruct Hcases as [(-> & _) | [(-> & _) | (-> & _)]];
        simpl in Hh, Hh';
        unfold try_except, bind, on_agent, zoom in Hh, Hh';
        simpl in Hh, Hh'; rewrite Hexec in Hh, Hh'; simpl in Hh, Hh';
        congruence. }
    destruct (round_publishes
                s (set_agent a' s0) m q response rcv Hq Hh
                eq_refl eq_refl eq_refl eq_refl Hrcv)
      as (s' & Hround & Ha & _ & _ & _ & Hhist & Hqs).
    exists (Message_init (uuid4 (clock s)) (agent_name s) rcv "response"
              response (Some (correlation_id m)) (now (clock s))), s'.
    split; [by rewrite Hh'|].
    split; [exact Hround|]. split; [by rewrite Ha|].
    split; [exact Hhist|]. split; [exact Hqs|].
    simpl. repeat split; try done.
    intros Hne. by apply or_str_keep.
  - intros Hnone. eexists. split; [exact (handle_dropped m s Hnone)|].
    split; [exact (round_drops s m q Hq Hnone)|]. done.
Qed.

(** C2.  Let [m], with an action the routing table knows, be the
    message a round of the running loop receives, and let the wrapped
    unit's task execution raise [e] on it.  The round does not raise;
    it publishes exactly one message: a response sent by the service to
    [m]'s sender, whose payload has action [error], [str(e)] as its
    [error] and [m]'s correlation id, and whose own [correlation_id] is
    [m]'s whenever that is not empty (which holds for every message
    constructed with a non-empty id).  The loop is still running and
    goes on with the next round, the rest of its queue untouched. *)
Theorem task_exception_becomes_error_response
    (s : Service) (m : Message) (q : list Message)
    (act rcv next : string) (e : exn) (a' : Agent) (evs : list event) :
  queues (broker s) !! agent_name s = Some (m :: q) ->
  running s = true ->
  get (content m) "action" = VStr act ->
  routing_table act = Some (rcv, next) ->
  execute_task (content m) (agent s) = (Raise e, a') ->
  exists r s',
    round s = (Ok tt, s')
    /\ message_history (broker s')
       = (message_history (broker s) ++ [r])%list
    /\ queues (broker s')
       = enqueued r (<[agent_name s := q]> (queues (broker s)))
    /\ sender r = agent_name s
    /\ receiver r = sender m
    /\ message_type r = "response"
    /\ content r !! "action" = Some (VStr "error")
    /\ content r !! "error" = Some (VStr (str_of_exn e))
    /\ content r !! "correlation_id" = Some (VStr (correlation_id m))
    /\ (correlation_id m ≠ EmptyString -> correlation_id r = correlation_id m)
    /\ running s' = true
    /\ loop (Idle :: evs) s = loop evs s'.
Proof.
  intros Hq Hrun Hact Hroute Hexec.
  set (s0 := set_broker (set_queues (<[agent_name s := q]> (queues (broker s)))
                                    (broker s)) s).
  pose proof (handle_raised m s0 act rcv next e a' Hact Hroute Hexec) as Hh.
  destruct (round_publishes
              s (set_agent a' s0) m q _ (sender m) Hq Hh
              eq_refl eq_refl eq_refl eq_refl eq_refl)
    as (s' & Hround & _ & _ & Hrun' & _ & Hhist & Hqs).
  eexists _, s'. split; [exact Hround|].
  split; [exact Hhist|]. split; [exact Hqs|].
  simpl. repeat split; try done.
  - intros Hne. by apply or_str_keep.
  - congruence.
  - unfold bind, happen, ret, get_state. simpl. by rewrite Hrun, Hround.
Qed.

End ServiceFacts.

(** ** The distributed orchestrator *)

Section OrchestratorFacts.
Import message_broker distributed_orchestrator.
Context {Disk : Type}.
Variable write_json : string -> dict -> Disk -> option exn * Disk.

Abbreviation Orch := (DistributedOrchestrator Disk).






End OrchestratorFacts.

(** ** The in-process orchestrator *)

Lemma bind_inv_ok {S A B} (m : prog S A) (k : A -> prog S B) s b s' :
  bind m k s = (Ok b, s') ->
  exists a s1, m s = (Ok a, s1) /\ k a s1 = (Ok b, s').
Proof.
  unfold bind. destruct (m s) as [[a|e] s1]; [|done]. eauto.
Qed.

Lemma eval_inv_ok {S A} (o : outcome A) (s s' : S) a :
  eval o s = (Ok a, s') -> o = Ok a /\ s' = s.
Proof. unfold eval. by intros [= -> ->]. Qed.

Ltac invert_binds :=
  repeat match goal with
    | H : bind _ _ _ = (Ok _, _) |- _ =>
        let a := fresh "a" in let s := fresh "s" in let Ha := fresh "Ha" in
        apply bind_inv_ok in H as (a & s & Ha & H)
    | H : eval _ _ = (Ok _, _) |- _ =>
        apply eval_inv_ok in H as [H ->]
    | H : ret _ _ = (Ok _, _) |- _ =>
        unfold ret in H; injection H as <- <-
    | H : get_state _ = (Ok _, _) |- _ =>
        unfold get_state in H; injection H as <- <-
    end.

Section CoordinatorFacts.
Import base_agent coordinator.
Context {W : Type}.
Variable author illustrator publisher : Message -> prog W (option Message).
Variable scene_assigned : nat -> pyval -> W -> W.
Variable now : nat -> Z.

Abbreviation Orch := (StoryOrchestrator W).
Abbreviation create := (create_story author illustrator publisher scene_assigned now).
Abbreviation clarify := (clarify_scenes author scene_assigned now).
Abbreviation illustrate :=
  (_phase_illustration author illustrator scene_assigned now).

(** a description shorter than the threshold fails the clarity check *)
Lemma short_needs_clarification (d : dict) (description : string) :
  d !! "description" = Some (VStr description) ->
  String.length description < 50 ->
  _scene_needs_clarification (VDict d) = Ok true.
Proof.
  intros Hd Hlen. unfold _scene_needs_clarification, get_or. simpl.
  rewrite Hd. simpl.
  destruct (Nat.ltb_spec (String.length description) 50); [done|lia].
Qed.

Lemma new_message_eq (sender recipient : string) (content : dict)
    (message_type : string) (s : Orch) :
  new_message now sender recipient content message_type s
  = (Ok (Message_init sender recipient content message_type (now (ticks s))),
     ticked s).
Proof. reflexivity. Qed.

Lemma call_agent_eq (agent_name : string)
    (agent : Message -> prog W (option Message)) (message : Message)
    (s : Orch) :
  call_agent agent_name agent message s
  = ((agent message (agents s)).1,
     set_agents (agent message (agents s)).2 (logged agent_name message s)).
Proof.
  unfold call_agent, bind, modify, zoom. simpl.
  by destruct (agent message (agents s)).
Qed.




(** *** The clarification loop *)

Lemma clarify_scene_clear (i : nat) (scene scene' : pyval) (s s1 : Orch) :
  needs_clarification scene = false ->
  clarify_scene author scene_assigned now i scene s = (Ok scene', s1) ->
  scene' = scene /\ s1 = s.
Proof.
  unfold needs_clarification, clarify_scene. intros Hn H.
  apply bind_inv_ok in H as (needs & s0 & Hneeds & H).
  apply eval_inv_ok in Hneeds as [Hneeds ->]. rewrite Hneeds in Hn.
  destruct needs; [done|]. by injection H as <- <-.
Qed.

Lemma clarify_scene_unclear (i : nat) (d : dict) (old scene' : pyval)
    (s s1 : Orch) :
  _scene_needs_clarification (VDict d) = Ok true ->
  d !! "description" = Some old ->
  clarify_scene author scene_assigned now i (VDict d) s = (Ok scene', s1) ->
  let request := clarification_request d (now (ticks s)) in
  exists answer w1,
    author request (agents s) = (Ok answer, w1)
    /\ calls s1 = (calls s ++ [to_author request])%list
    /\ scene' = clarified d old answer.
Proof.
  intros Hn Hold H. unfold clarify_scene in H.
  rewrite (bind_ok _ _ s true s) in H by (unfold eval; by rewrite Hn).
  rewrite (bind_ok _ _ s d s) in H by reflexivity.
  rewrite (bind_ok _ _ _ _ _ (new_message_eq _ _ _ _ _)) in H.
  fold (clarification_request d (now (ticks s))) in H.
  apply bind_inv_ok in H as (answer & s2 & Hcall & H).
  rewrite call_agent_eq in Hcall. simpl in Hcall.
  destruct (author (clarification_request d (now (ticks s))) (agents s))
    as [[ans|e] w1] eqn:Ha; simpl in Hcall; [|done].
  injection Hcall as -> <-.
  exists answer, w1. split; [done|].
  destruct answer as [r|].
  - unfold subscript in H. rewrite Hold in H.
    unfold bind, eval, modify, ret in H. simpl in H.
    injection H as <- <-. done.
  - injection H as <- <-. done.
Qed.

Lemma clarify_scene_calls (i : nat) (scene scene' : pyval) (s s1 : Orch) :
  clarify_scene author scene_assigned now i scene s = (Ok scene', s1) ->
  exists requests,
    calls s1 = (calls s ++ map to_author requests)%list
    /\ List.length requests = unclear [scene].
Proof.
  intros H. unfold unclear. simpl.
  destruct (needs_clarification scene) eqn:Hn.
  - pose proof H as H'. unfold clarify_scene in H.
    apply bind_inv_ok in H as (needs & s0 & Hneeds & H).
    apply eval_inv_ok in Hneeds as [Hneeds ->].
    unfold needs_clarification in Hn. rewrite Hneeds in Hn.
    destruct needs; [|done].
    apply bind_inv_ok in H as (d & s0 & Hd & H).
    apply eval_inv_ok in Hd as [Hd ->].
    rewrite (bind_ok _ _ _ _ _ (new_message_eq _ _ _ _ _)) in H.
    apply bind_inv_ok in H as (answer & s2 & Hcall & H).
    rewrite call_agent_eq in Hcall. simpl in Hcall.
    injection Hcall as _ <-.
    eexists [_]. split; [|done].
    destruct answer as [r|].
    + apply bind_inv_ok in H as (old & s3 & Hold & H).
      apply eval_inv_ok in Hold as [_ ->].
      unfold bind, modify, ret in H. simpl in H. injection H as _ <-.
      reflexivity.
    + injection H as _ <-. reflexivity.
  - destruct (clarify_scene_clear _ _ _ _ _ Hn H) as [_ ->].
    exists []. simpl. by rewrite app_nil_r.
Qed.

Lemma unclear_app (l1 l2 : list pyval) :
  unclear (l1 ++ l2) = unclear l1 + unclear l2.
Proof. unfold unclear. by rewrite List.filter_app, length_app. Qed.

(** the loop makes one call of the author for each scene the clarity
    check says yes to, and no other; it keeps the number of scenes *)
Lemma clarify_scenes_calls (i : nat) (scenes out : list pyval) (s s' : Orch) :
  clarify i scenes s = (Ok out, s') ->
  exists requests,
    calls s' = (calls s ++ map to_author requests)%list
    /\ List.length requests = unclear scenes
    /\ List.length out = List.length scenes.
Proof.
  revert i out s. induction scenes as [|scene rest IH]; intros i out s H.
  - injection H as <- <-. exists []. simpl. by rewrite app_nil_r.
  - simpl in H.
    apply bind_inv_ok in H as (scene' & s1 & Hbody & H).
    apply bind_inv_ok in H as (rest' & s2 & Hrest & H).
    injection H as <- <-.
    destruct (clarify_scene_calls _ _ _ _ _ Hbody) as (r1 & Hc1 & Hl1).
    destruct (IH _ _ _ Hrest) as (r2 & Hc2 & Hl2 & Hlen).
    exists (r1 ++ r2)%list. split; [|split].
    + by rewrite Hc2, Hc1, map_app, app_assoc.
    + rewrite length_app, Hl1, Hl2. apply (eq_sym (unclear_app [scene] rest)).
    + simpl. by rewrite Hlen.
Qed.

(** the loop over [before ++ rest] is the loop over [before] followed
    by the loop over [rest] *)
Lemma clarify_scenes_app (i : nat) (before rest out : list pyval)
    (s s' : Orch) :
  clarify i (before ++ rest) s = (Ok out, s') ->
  exists before' rest' s1,
    clarify i before s = (Ok before', s1)
    /\ clarify (i + List.length before) rest s1 = (Ok rest', s')
    /\ out = (before' ++ rest')%list.
Proof.
  revert i out s. induction before as [|scene before IH]; intros i out s H.
  - exists [], out, s. simpl. by rewrite Nat.add_0_r.
  - simpl in H.
    apply bind_inv_ok in H as (scene' & s1 & Hbody & H).
    apply bind_inv_ok in H as (tail & s2 & Htail & H).
    injection H as <- <-.
    destruct (IH _ _ _ Htail) as (before' & rest' & s3 & Hb & Hr & ->).
    exists (scene' :: before'), rest', s3. split; [|split; [|done]].
    + simpl. rewrite (bind_ok _ _ _ _ _ Hbody), (bind_ok _ _ _ _ _ Hb).
      reflexivity.
    + simpl. by rewrite <- Nat.add_succ_comm.
Qed.

(** C8, as the code has it.  Take a scene of the list given to
    [_phase_illustration] whose description is a string shorter than
    the threshold of 50, in a run in which the phase returns.  The
    scene fails the clarity check.  Of the author's calls logged during
    the phase, exactly one belongs to this scene: one [describe_scene]
    request for its id, between the calls made for the scenes before it
    and those made for the scenes after it (one for each scene that
    fails the check, and none more: there is no second round).  The
    illustration task is invoked after all of them, and the scene it
    is given at that position is [clarified]: when the author answered
    with a message, the scene's description is the [description] of the
    answer, or the original one when the answer has none; when the
    author answered [None], the scene is as it was. *)
Theorem clarification_round_trip
    (story_result : dict) (art_style : pyval) (before after : list pyval)
    (d : dict) (description : string) (result : dict) (s s' : Orch) :
  story_result !! "illustration_scenes"
  = Some (VList (before ++ VDict d :: after)) ->
  d !! "description" = Some (VStr description) ->
  String.length description < 50 ->
  illustrate story_result art_style s = (Ok result, s') ->
  exists (s1 : Orch) (answer : option Message) (w1 : W)
         (asked_before asked_after : list Message)
         (before' after' : list pyval) (task : Message),
    let request := clarification_request d (now (ticks s1)) in
    _scene_needs_clarification (VDict d) = Ok true
    /\ clarify 0 before s = (Ok before', s1)
    /\ author request (agents s1) = (Ok answer, w1)
    /\ calls s'
       = (calls s ++ map to_author asked_before ++ [to_author request]
          ++ map to_author asked_after ++ [("IllustratorAgent", task)])%list
    /\ List.length asked_before = unclear before
    /\ List.length asked_after = unclear after
    /\ content task !! "action" = Some (VStr "generate_illustrations")
    /\ content task !! "scenes"
       = Some (VList (before'
                      ++ clarified d (VStr description) answer :: after'))
    /\ List.length before' = List.length before
    /\ List.length after' = List.length after.
Proof.
  intros Hscenes Hdesc Hshort H.
  pose proof (short_needs_clarification d description Hdesc Hshort) as Hneeds.
  unfold _phase_illustration, get_or in H. rewrite Hscenes in H. simpl in H.
  apply bind_inv_ok in H as (story & s0 & Hstory & H).
  apply eval_inv_ok in Hstory as [_ ->].
  apply bind_inv_ok in H as (story_d & s0 & Hsd & H).
  apply eval_inv_ok in Hsd as [_ ->].
  apply bind_inv_ok in H as (n & s0 & Hn & H).
  apply eval_inv_ok in Hn as [_ ->].
  apply bind_inv_ok in H as (elements & s0 & Hel & H).
  apply eval_inv_ok in Hel as [[= <-] ->].
  apply bind_inv_ok in H as (out & s4 & Hloop & H).
  destruct (clarify_scenes_app _ _ _ _ _ _ Hloop)
    as (before' & rest' & s1 & Hb & Hrest & ->).
  simpl in Hrest.
  apply bind_inv_ok in Hrest as (scene' & s2 & Hbody & Hrest).
  apply bind_inv_ok in Hrest as (after' & s3 & Hafter & Hrest).
  injection Hrest as <- <-.
  destruct (clarify_scene_unclear _ _ _ _ _ _ Hneeds Hdesc Hbody)
    as (answer & w1 & Hanswer & Hcalls2 & ->).
  destruct (clarify_scenes_calls _ _ _ _ _ Hb) as (rb & Hcb & Hlb & Hlenb).
  destruct (clarify_scenes_calls _ _ _ _ _ Hafter) as (ra & Hca & Hla & Hlena).
  rewrite (bind_ok _ _ _ _ _ (new_message_eq _ _ _ _ _)) in H.
  apply bind_inv_ok in H as (response & s5 & Hcall & H).
  rewrite call_agent_eq in Hcall. injection Hcall as _ <-.
  assert (Hs' : calls s'
                = (calls s3 ++ [("IllustratorAgent",
                     Message_init "Orchestrator" "IllustratorAgent"
                       (list_to_map
                          [ ("action", VStr "generate_illustrations");
                            ("scenes", VList (before' ++ clarified d (VStr description) answer :: after'));
                            ("characters", default (VList []) (story_d !! "characters"));
                            ("art_style", art_style) ])
                       "request" (now (ticks s3)))])%list).
  { destruct response as [r|].
    - destruct (eq_str (get (content r) "status") "complete").
      + apply bind_inv_ok in H as (images & s6 & Hi & H).
        apply eval_inv_ok in Hi as [_ ->].
        apply bind_inv_ok in H as (k & s6 & Hk & H).
        apply eval_inv_ok in Hk as [_ ->].
        by injection H as _ <-.
      + by injection H as _ <-.
    - by injection H as _ <-. }
  eexists s1, answer, w1, rb, ra, before', after', _.
  split; [exact Hneeds|]. split; [exact Hb|]. split; [exact Hanswer|].
  split.
  { rewrite Hs', Hca, Hcalls2, Hcb. rewrite <- !app_assoc. reflexivity. }
  split; [exact Hlb|]. split; [exact Hla|].
  split; [reflexivity|]. split; [reflexivity|]. done.
Qed.

End CoordinatorFacts.
(** ** The two [create_story] *)

Section PollAnswers.
Import message_broker distributed_orchestrator orchestrator_extras.
Context {Disk : Type}.
Variable write_json : string -> dict -> Disk -> option exn * Disk.


End PollAnswers.


(** ** The embedding at work *)

Section Examples.
Import fixtures.

(** P1: messages published to one receiver are received in publish
    order, and a receive on the emptied queue returns [None]. *)
Example fifo_per_receiver :
  let b := (message_broker.run_calls disk_works
              [ message_broker.CallPublish bad_request;
                message_broker.CallPublish good_request ] broker0).2 in
  let r1 := message_broker.receive "AuthorService" b in
  let r2 := message_broker.receive "AuthorService" r1.2 in
  let r3 := message_broker.receive "AuthorService" r2.2 in
  r1.1 = Ok (Some bad_request) /\ r2.1 = Ok (Some good_request)
  /\ r3.1 = Ok None.
Proof. vm_compute. done. Qed.

(** P5: three requests, the first failing, the second unknown, the
    third fine: the loop answers the first with an error, drops the
    second and routes the third on. *)
Example wrapper_isolation :
  let s := (agent_service._process_messages disk_works stub_task uuid4 now_iso
              [agent_service.Idle; agent_service.Idle; agent_service.Idle]
              (service_with [bad_request; stray_request; good_request])).2 in
  map (fun m => (message_broker.receiver m,
                 message_broker.content m !! "action",
                 message_broker.correlation_id m))
      (message_broker.message_history (agent_service.broker s))
  = [ ("AuthorService", Some (VStr "create_story"), "task-1");
      ("AuthorService", Some (VStr "translate"), "task-3");
      ("AuthorService", Some (VStr "create_story"), "task-2");
      ("Orchestrator", Some (VStr "error"), "task-1");
      ("IllustratorService", Some (VStr "generate_illustrations"), "task-2") ]
  /\ agent_service.running s = true
  /\ agent_service.agent s = 2.
Proof. vm_compute. done. Qed.

(** P6, in process: stub writer (three chapters, two scenes), stub
    illustrator (two images), stub publisher (pdf and html). *)
Example in_process_happy_path :
  let result :=
    result_of (coordinator.create_story (W := unit)
                 stub_writer stub_illustrator stub_publisher
                 (fun _ _ w => w) clock idea
                 (coordinator.mkOrchestrator ∅ tt 0 [])) in
  result !! "status" = Some (VStr "complete")
  /\ result !! "metadata"
     = Some (VDict (list_to_map [ ("title", VStr "X");
                                  ("chapters", VInt 3);
                                  ("images", VInt 2);
                                  ("page_count", VInt 12) ]))
  /\ result !! "publications"
     = Some (VDict (list_to_map [ ("pdf", VStr "path"); ("html", VStr "path") ])).
Proof. vm_compute. done. Qed.

(** A publisher that reports an error status: the first two phases
    are checked for it, the third is not, and [create_story] fails on
    the missing [files]. *)
Example in_process_publication_failure :
  (coordinator.create_story (W := unit)
     stub_writer stub_illustrator failed_publisher
     (fun _ _ w => w) clock idea
     (coordinator.mkOrchestrator ∅ tt 0 [])).1
  = Raise (KeyError "files").
Proof. vm_compute. done. Qed.

(** P7: nothing arrives and the clock passes the timeout. *)
Example distributed_timeout :
  (distributed_run [(1%Z, []); (15%Z, []); (30%Z, [])]).1
  = Ok (Some (list_to_map
      [ ("status", VStr "timeout");
        ("message", VStr "Story creation timed out after 30 seconds");
        ("correlation_id", VStr "task-1") ])).
Proof. vm_compute. done. Qed.

(** the completion path removes the pending entry *)
Example distributed_complete :
  let run := distributed_run [(1%Z, [complete_message])] in
  run.1 = Ok (Some (list_to_map
      [ ("status", VStr "complete");
        ("files", VDict ∅);
        ("correlation_id", VStr "task-1") ]))
  /\ distributed_orchestrator.pending_tasks run.2 !! "task-1" = None.
Proof. vm_compute. done. Qed.

(** The distributed pipeline end to end, the author's task failing:
    the author service turns the exception into an error message for
    the orchestrator, and [create_story] returns status [error]. *)
Example distributed_worker_failure :
  let arrivals := delivered (service_round "AuthorService"
                               (after_request boom_idea)) in
  List.length arrivals = 1
  /\ (distributed_run_on boom_idea [(1%Z, arrivals)]).1
     = Ok (Some (list_to_map
         [ ("status", VStr "error");
           ("message", VStr "generation failed");
           ("correlation_id", VStr "task-1") ])).
Proof. vm_compute. done. Qed.

(** P6, distributed: the request goes through the three services in
    turn, and the publisher's response completes the task. *)
Example distributed_happy_path :
  let arrivals :=
    delivered (service_round "PublisherService"
                 (service_round "IllustratorService"
                    (service_round "AuthorService" (after_request idea)))) in
  List.length arrivals = 1
  /\ (distributed_run [(1%Z, arrivals)]).1
     = Ok (Some (list_to_map
         [ ("status", VStr "complete");
           ("correlation_id", VStr "task-1") ])).
Proof. vm_compute. done. Qed.

End Examples.

(** C3.  The error path of the poll loop.  The request of [task-1] is
    answered by a message of that correlation id whose action is
    [error]: [create_story] returns status [error] with the message
    carried, and the entry of [task-1] is still in [pending_tasks],
    where [get_task_status] goes on reporting it as [started]; the
    completion path deletes the entry. *)
Theorem error_path_keeps_pending_entry :
  let run := fixtures.distributed_run [(1%Z, [fixtures.error_message])] in
  run.1 = Ok (Some (list_to_map
      [ ("status", VStr "error");
        ("message", VStr "generation failed");
        ("correlation_id", VStr "task-1") ]))
  /\ distributed_orchestrator.pending_tasks run.2 !! "task-1"
     = Some (distributed_orchestrator.mkPending "started" 0 fixtures.idea)
  /\ distributed_orchestrator.get_task_status "task-1" 500 run.2 !! "status"
     = Some (VStr "started").
Proof. vm_compute. done. Qed.

(** ** Equality of messages *)

(** C9, as the code has it.  Neither [Message] class defines [__eq__]:
    [==] on messages is identity.  Two messages constructed one after
    the other are two objects, and compare unequal even when they carry
    the same id (the same [message_id] for a broker message; the same
    sender, recipient and timestamp, hence the same [id], for an agent
    message); a message equals itself; and two references compare equal
    exactly when they are the same object. *)
Theorem message_equality_is_identity
    (mid snd rcv mty : string) (cnt : dict) (cid : option string)
    (t1 t2 : string) (t : Z)
    (h : identity.store message_broker.Message)
    (k : identity.store base_agent.Message) :
  let m1 := message_broker.Message_init mid snd rcv mty cnt cid t1 in
  let m2 := message_broker.Message_init mid snd rcv mty cnt cid t2 in
  let n1 := base_agent.Message_init snd rcv cnt mty t in
  let n2 := base_agent.Message_init snd rcv cnt mty t in
  let a := identity.alloc m1 h in
  let b := identity.alloc m2 a.2 in
  let c := identity.alloc n1 k in
  let d := identity.alloc n2 c.2 in
  identity.deref b.2 a.1 = Some m1
  /\ identity.deref b.2 b.1 = Some m2
  /\ message_broker.message_id m1 = message_broker.message_id m2
  /\ identity.object_eq a.1 b.1 = false
  /\ identity.object_eq a.1 a.1 = true
  /\ identity.deref d.2 c.1 = Some n1
  /\ identity.deref d.2 d.1 = Some n2
  /\ base_agent.id n1 = base_agent.id n2
  /\ identity.object_eq c.1 d.1 = false
  /\ (forall x y, identity.object_eq x y = true <-> x = y).
Proof.
  simpl. unfold identity.deref, identity.object_eq.
  repeat split.
  - rewrite lookup_app_l by (rewrite length_app; simpl; lia).
    by rewrite list_lookup_middle.
  - by rewrite list_lookup_middle by (rewrite length_app; simpl; lia).
  - apply Nat.eqb_neq. rewrite length_app. simpl. lia.
  - apply Nat.eqb_refl.
  - rewrite lookup_app_l by (rewrite length_app; simpl; lia).
    by rewrite list_lookup_middle.
  - by rewrite list_lookup_middle by (rewrite length_app; simpl; lia).
  - apply Nat.eqb_neq. rewrite length_app. simpl. lia.
  - apply Nat.eqb_eq.
  - apply Nat.eqb_eq.
Qed.

(** Two broker messages built from the same arguments, id [m-1]
    included: equal ids, yet [==] is false. *)
Lemma same_id_messages_differ :
  let m := message_broker.Message_init "m-1" "a" "b" "request" ∅ None "t" in
  let a := identity.alloc m [] in
  let b := identity.alloc m a.2 in
  identity.deref b.2 a.1 = Some m
  /\ identity.deref b.2 b.1 = Some m
  /\ ~ (identity.object_eq a.1 b.1 = true
        <-> message_broker.message_id m = message_broker.message_id m).
Proof.
  simpl. repeat split; try reflexivity.
  intros [_ H]. specialize (H eq_refl). discriminate H.
Qed.

(** ** The theorems at concrete inputs *)

Section Witnesses.
Import fixtures.

Lemma task_exception_becomes_error_response_witness :
  exists r s',
    agent_service.process_round disk_works stub_task uuid4 now_iso
      (service_with [bad_request; good_request]) = (Ok tt, s')
    /\ message_broker.receiver r = "Orchestrator"
    /\ message_broker.message_type r = "response"
    /\ message_broker.content r !! "action" = Some (VStr "error")
    /\ message_broker.content r !! "error" = Some (VStr "generation failed")
    /\ message_broker.correlation_id r = "task-1"
    /\ message_broker.message_history (agent_service.broker s')
       = [bad_request; good_request; r]
    /\ agent_service.running s' = true.
Proof.
  destruct (task_exception_becomes_error_response disk_works stub_task
              uuid4 now_iso (service_with [bad_request; good_request])
              bad_request [good_request]
              "create_story" "IllustratorService" "generate_illustrations"
              (Exn "RuntimeError" "generation failed") 1 [])
    as (r & s' & Hround & Hhist & _ & _ & Hrcv & Hty & Hact & Herr & _
        & Hcid & Hrun & _);
    try (vm_compute; reflexivity).
  exists r, s'. repeat split; try assumption.
  apply Hcid. discriminate.
Defined.

Lemma dispatch_follows_routing_table_witness :
  (exists r s',
      agent_service.process_round disk_works stub_task uuid4 now_iso
        (service_with [good_request]) = (Ok tt, s')
      /\ message_broker.receiver r = "IllustratorService"
      /\ message_broker.content r !! "action"
         = Some (VStr "generate_illustrations")
      /\ message_broker.correlation_id r = "task-2"
      /\ message_broker.message_history (agent_service.broker s')
         = [good_request; r])
  /\ (exists s',
        agent_service.process_round disk_works stub_task uuid4 now_iso
          (service_with [stray_request]) = (Ok tt, s')
        /\ message_broker.message_history (agent_service.broker s')
           = [stray_request]).
Proof.
  split.
  - destruct (dispatch_follows_routing_table disk_works stub_task
                uuid4 now_iso (service_with [good_request]) good_request [])
      as [Hknown _]; [vm_compute; reflexivity|].
    destruct (Hknown "create_story" "IllustratorService"
                "generate_illustrations"
                (VDict {["status" := VStr "complete"]}) 1)
      as (r & s' & _ & Hround & _ & Hhist & _ & _ & Hrcv & _ & _ & Hact
          & _ & Hcid);
      try (vm_compute; reflexivity).
    exists r, s'. repeat split; try assumption.
    apply Hcid. discriminate.
  - destruct (dispatch_follows_routing_table disk_works stub_task
                uuid4 now_iso (service_with [stray_request]) stray_request [])
      as [_ Hunknown]; [vm_compute; reflexivity|].
    destruct Hunknown as (s' & _ & Hround & _ & Hhist & _).
    + intros act Hact. vm_compute in Hact. injection Hact as <-.
      reflexivity.
    + exists s'. split; assumption.
Defined.

Lemma publish_survives_write_failure_witness :
  exists b_failed b_saved,
    message_broker.publish disk_full good_request broker0 = (Ok tt, b_failed)
    /\ message_broker.publish disk_works good_request broker0 = (Ok tt, b_saved)
    /\ message_broker.queues b_failed !! "AuthorService" = Some [good_request]
    /\ message_broker.message_history b_failed = [good_request]
    /\ message_broker.queues b_failed = message_broker.queues b_saved
    /\ message_broker.message_history b_failed
       = message_broker.message_history b_saved.
Proof.
  destruct (publish_survives_write_failure disk_full disk_works
              good_request broker0
              (Exn "OSError" "[Errno 28] No space left on device")
              ∅ (<["output/messages/msg-2.json" :=
                     message_broker.to_dict good_request]> ∅))
    as (bf & bs & Hf & Hs & Hq & Hh & Hqs & Hhs & _);
    try reflexivity.
  exists bf, bs. repeat split; try assumption.
  rewrite Hq. reflexivity.
Defined.


Lemma clarification_round_trip_witness :
  exists task,
    last (coordinator.calls (illustration_run "Scene description...").2)
    = Some ("IllustratorAgent", task)
    /\ base_agent.content task !! "scenes"
       = Some (VList [VDict (scene "[Model not loaded]")])
    /\ List.length (coordinator.calls (illustration_run "Scene description...").2)
       = 2.
Proof.
  destruct (clarification_round_trip
              (author_agent.receive_message author_clock out_of_memory)
              stub_illustrator author_agent.scene_assigned clock
              (story_result "Scene description...") (VStr "children_book")
              [] [] (scene "Scene description...") "Scene description..."
              (result_of (illustration_run "Scene description..."))
              (studio "Scene description...")
              (illustration_run "Scene description...").2)
    as (s1 & answer & w1 & qb & qa & before' & after' & task & H).
  - reflexivity.
  - reflexivity.
  - simpl. lia.
  - vm_compute. reflexivity.
  - cbv zeta in H.
    destruct H as (_ & Hb & Hanswer & Hcalls & Hqb & Hqa & _ & Hscenes
                   & Hlb & Hla).
    injection Hb as <- <-.
    destruct after'; [|discriminate Hla].
    destruct qb; [|discriminate Hqb]. destruct qa; [|discriminate Hqa].
    vm_compute in Hanswer. injection Hanswer as <- _.
    exists task. rewrite Hcalls. split; [reflexivity|].
    split; [|reflexivity].
    rewrite Hscenes. vm_compute. reflexivity.
Defined.

End Witnesses.

(** ** Where the code departs from the specification *)


(** C8 at a scene whose description is already the text the author
    answers with when no model is loaded (as the scenes of an earlier
    story are, which the author keeps): the scene fails the clarity
    check, one clarification request is made and answered, and the
    illustrator is given the scene with the description it had. *)
Lemma clarified_description_unchanged :
  let run := fixtures.illustration_run "[Model not loaded]" in
  coordinator._scene_needs_clarification
    (VDict (fixtures.scene "[Model not loaded]")) = Ok true
  /\ map fst (coordinator.calls run.2) = ["AuthorAgent"; "IllustratorAgent"]
  /\ fixtures.scenes_illustrated (coordinator.calls run.2)
     = Some (VList [VDict (fixtures.scene "[Model not loaded]")]).
Proof. vm_compute. done. Qed.

(** ** More on messages and the broker *)

Section MoreBrokerFacts.
Import message_broker broker_extras.
Context {Disk : Type}.
Variable write_json : string -> dict -> Disk -> option exn * Disk.

Lemma from_dict_to_dict_fields (mid snd rcv mty : string) (cnt : dict)
    (c : ascii) (cid ts now : string) :
  from_dict (to_dict (mkMessage mid snd rcv mty cnt (String c cid) ts)) now
  = Ok (mkMessage mid snd rcv mty cnt (String c cid) ts).
Proof. vm_compute. reflexivity. Qed.

(** X1.  [from_dict] undoes [to_dict] on every message whose correlation
    id is not empty: the message comes back field by field, timestamp
    included, whatever the clock reads. *)
Theorem to_dict_from_dict (m : Message) (now : string) :
  correlation_id m ≠ EmptyString ->
  from_dict (to_dict m) now = Ok m.
Proof.
  destruct m as [mid snd rcv mty cnt cid ts]. simpl. intros Hne.
  destruct cid as [|c cid]; [done|]. apply from_dict_to_dict_fields.
Qed.

Lemma queue_of_publish (n : string) (m : Message) (b b' : MessageBroker Disk) :
  queues b' = enqueued m (queues b) ->
  queue_of n b' = if decide (receiver m = n)
                  then (queue_of n b ++ [m])%list else queue_of n b.
Proof.
  intros Hq. unfold queue_of. rewrite Hq. unfold enqueued.
  destruct (decide (receiver m = n)) as [->|Hne].
  - by rewrite lookup_insert_eq.
  - by rewrite lookup_insert_ne.
Qed.

Lemma queue_of_published (n : string) (ms : list Message)
    (b : MessageBroker Disk) :
  queue_of n (run_calls write_json (map CallPublish ms) b).2
  = (queue_of n b ++ filter (fun m => receiver m = n) ms)%list.
Proof.
  revert b. induction ms as [|m ms IH]; intros b.
  - simpl. by rewrite app_nil_r.
  - destruct (publish_spec write_json m b) as (b1 & Hp & Hq & _).
    simpl. rewrite (bind_ok _ _ _ _ _ Hp). rewrite IH.
    rewrite (queue_of_publish n _ _ _ Hq).
    destruct (decide (receiver m = n)) as [He|Hne].
    + rewrite filter_cons_True by done. by rewrite <- app_assoc.
    + by rewrite filter_cons_False.
Qed.

Lemma receive_queue_of (n : string) (b : MessageBroker Disk) :
  exists b',
    receive n b = (Ok (head (queue_of n b)), b')
    /\ queue_of n b' = tail (queue_of n b)
    /\ message_history b' = message_history b
    /\ subscribers b' = subscribers b
    /\ threads b' = threads b
    /\ disk b' = disk b
    /\ (forall k, k ≠ n -> queues b' !! k = queues b !! k).
Proof.
  destruct (receive_spec n b) as (r & b' & Hr & Hh & Hs & _ & Hd & Ht & Hq).
  exists b'. unfold queue_of.
  destruct (queues b !! n) as [[|m q]|] eqn:E; simpl;
    destruct Hq as [-> Hq]; rewrite Hq;
    (split; [done|]); rewrite ?E, ?lookup_insert_eq;
    repeat split; try done;
    intros k Hk; by rewrite lookup_insert_ne.
Qed.

Lemma receive_many_spec (k : nat) (n : string) (b : MessageBroker Disk) :
  k <= List.length (queue_of n b) ->
  exists b',
    receive_many k n b = (Ok (map Some (take k (queue_of n b))), b')
    /\ queue_of n b' = drop k (queue_of n b)
    /\ message_history b' = message_history b.
Proof.
  revert b. induction k as [|k IH]; intros b Hk.
  - exists b. simpl. rewrite drop_0. done.
  - destruct (receive_queue_of n b) as (b1 & Hr & Hq1 & Hh1 & _).
    destruct (queue_of n b) as [|m q] eqn:E; simpl in Hk; [lia|].
    simpl in Hr, Hq1.
    destruct (IH b1) as (b2 & Hrm & Hq2 & Hh2); [rewrite Hq1; lia|].
    exists b2. simpl. rewrite (bind_ok _ _ _ _ _ Hr), (bind_ok _ _ _ _ _ Hrm).
    rewrite Hq1 in *. split; [done|]. split; [done|]. congruence.
Qed.

(** X2.  FIFO per receiver.  After any messages [ms] have been
    published, to whatever receivers, the messages waiting for [name] are
    those that waited before followed by those of [ms] addressed to
    [name], in publish order: that many calls of [receive] return exactly
    them, in that order, and the next call returns [None]. *)
Theorem receive_in_publish_order
    (name : string) (ms : list Message) (b : MessageBroker Disk) :
  let b1 := (run_calls write_json (map CallPublish ms) b).2 in
  let expected :=
    (queue_of name b ++ filter (fun m => receiver m = name) ms)%list in
  let received := receive_many (List.length expected) name b1 in
  received.1 = Ok (map Some expected)
  /\ (receive name received.2).1 = Ok None.
Proof.
  simpl.
  destruct (receive_many_spec
              (List.length (queue_of name b
                            ++ filter (fun m => receiver m = name) ms)%list)
              name (run_calls write_json (map CallPublish ms) b).2)
    as (b2 & Hr & Hq & _).
  { by rewrite queue_of_published. }
  rewrite Hr. simpl. rewrite queue_of_published in *.
  rewrite firstn_all. split; [done|].
  destruct (receive_queue_of name b2) as (b3 & Hr3 & _).
  rewrite Hr3, Hq. simpl. by rewrite drop_all.
Qed.

(** X3.  A timeout is not an error: [receive] for a participant with
    nothing waiting, its queue empty or not yet created, returns [None]
    and does not raise; afterwards the (possibly new) queue is empty, and
    the history, the subscribers and every other queue are as before. *)
Theorem receive_nothing_waiting (name : string) (b : MessageBroker Disk) :
  queue_of name b = [] ->
  exists b',
    receive name b = (Ok None, b')
    /\ queues b' !! name = Some []
    /\ message_history b' = message_history b
    /\ subscribers b' = subscribers b
    /\ (forall k, k ≠ name -> queues b' !! k = queues b !! k).
Proof.
  intros He.
  destruct (receive_spec name b) as (r & b' & Hr & Hh & Hs & _ & _ & _ & Hq).
  exists b'. unfold queue_of in He.
  destruct (queues b !! name) as [[|m q]|] eqn:E; simpl in He; try done;
    destruct Hq as [-> Hq]; rewrite Hq;
    (split; [done|]); rewrite ?E, ?lookup_insert_eq;
    repeat split; try done.
  intros k Hk. by rewrite lookup_insert_ne.
Qed.

Lemma enqueued_local (m : Message) (b b' : MessageBroker Disk) :
  queues b' = enqueued m (queues b) ->
  queue_of (receiver m) b' = (queue_of (receiver m) b ++ [m])%list
  /\ (forall k, k ≠ receiver m -> queues b' !! k = queues b !! k).
Proof.
  intros Hq. split.
  - rewrite (queue_of_publish _ _ _ _ Hq). by rewrite decide_True.
  - intros k Hk. rewrite Hq. unfold enqueued. by rewrite lookup_insert_ne.
Qed.

(** X4.  [publish] is local to the receiver: it puts the message at the
    tail of the receiver's queue, behind everything already waiting
    there, adds it at the end of the history, and leaves every other
    participant's queue as it was. *)
Theorem publish_touches_one_queue (m : Message) (b : MessageBroker Disk) :
  exists b',
    publish write_json m b = (Ok tt, b')
    /\ queue_of (receiver m) b' = (queue_of (receiver m) b ++ [m])%list
    /\ message_history b' = (message_history b ++ [m])%list
    /\ (forall k, k ≠ receiver m -> queues b' !! k = queues b !! k).
Proof.
  destruct (publish_spec write_json m b) as (b' & Hp & Hq & Hh & _).
  destruct (enqueued_local m b b' Hq) as [Htail Hother].
  exists b'. split; [done|]. split; [done|]. split; done.
Qed.

(** X5.  [clear_queue] drains without processing: afterwards nothing
    waits for [name] (the next [receive] returns [None]), while the
    history, and with it every correlation query, keeps the drained
    messages, and the other queues are untouched.  It does not raise when
    there is no such queue. *)
Theorem clear_queue_drains (name c : string) (b : MessageBroker Disk) :
  exists b',
    clear_queue name b = (Ok tt, b')
    /\ queue_of name b' = []
    /\ (receive name b').1 = Ok None
    /\ message_history b' = message_history b
    /\ get_messages_by_correlation c b' = get_messages_by_correlation c b
    /\ (forall k, k ≠ name -> queues b' !! k = queues b !! k).
Proof.
  unfold clear_queue. run_prog.
  destruct (queues b !! name) as [q|] eqn:E; simpl;
    eexists; (split; [reflexivity|]).
  - assert (Hq : queue_of name (set_queues (<[name:=[]]> (queues b)) b) = []).
    { unfold queue_of. simpl. by rewrite lookup_insert_eq. }
    split; [done|]. split.
    + destruct (receive_queue_of name (set_queues (<[name:=[]]> (queues b)) b))
        as (b3 & -> & _). by rewrite Hq.
    + repeat split; try done. intros k Hk. simpl. by rewrite lookup_insert_ne.
  - assert (Hq : queue_of name b = []) by (unfold queue_of; by rewrite E).
    split; [done|]. split; [|done].
    destruct (receive_queue_of name b) as (b3 & -> & _). by rewrite Hq.
Qed.

Lemma subscribe_full_spec (n : string) (cb : callback) (b : MessageBroker Disk) :
  exists b',
    subscribe n cb b = (Ok tt, b')
    /\ subscribers b'
       = <[n := (default [] (subscribers b !! n) ++ [cb])%list]> (subscribers b)
    /\ queues b' = queues b
    /\ threads b' = threads b
    /\ message_history b' = message_history b.
Proof.
  unfold subscribe. run_prog.
  destruct (subscribers b !! n) eqn:Hs; simpl.
  - rewrite Hs. eexists. split; [reflexivity|]. done.
  - rewrite lookup_insert_eq. eexists. split; [reflexivity|]. simpl.
    by rewrite insert_insert_eq.
Qed.

Lemma subscribed_all (n : string) (cbs : list callback) (b : MessageBroker Disk) :
  let b' := (run_calls write_json (map (CallSubscribe n) cbs) b).2 in
  default [] (subscribers b' !! n)
  = (default [] (subscribers b !! n) ++ cbs)%list
  /\ (forall k, k ≠ n -> subscribers b' !! k = subscribers b !! k)
  /\ threads b' = threads b.
Proof.
  revert b. induction cbs as [|cb cbs IH]; intros b.
  - simpl. by rewrite app_nil_r.
  - destruct (subscribe_full_spec n cb b) as (b1 & Hs & Hsub & _ & Ht & _).
    simpl. rewrite (bind_ok _ _ _ _ _ Hs).
    destruct (IH b1) as (H1 & H2 & H3). simpl in H1, H2, H3.
    rewrite H1, H3, Hsub, lookup_insert_eq. simpl.
    split; [by rewrite <- app_assoc|]. split; [|done].
    intros k Hk. rewrite (H2 k Hk), Hsub. by rewrite lookup_insert_ne.
Qed.

(** X6.  Several subscribers per participant are allowed and all are
    invoked.  After the callbacks [cbs] have subscribed to [name], in
    that order, a [publish] of a message addressed to [name] starts one
    thread per callback subscribed, those of before first and then [cbs]
    in subscription order, each on that message; a message addressed to
    someone without subscribers starts none. *)
Theorem publish_notifies_all_subscribers
    (name : string) (cbs : list callback) (m : Message)
    (b : MessageBroker Disk) :
  let b1 := (run_calls write_json (map (CallSubscribe name) cbs) b).2 in
  let b2 := (publish write_json m b1).2 in
  (receiver m = name ->
   threads b2
   = (threads b
      ++ map (fun cb => (cb, m)) (default [] (subscribers b !! name) ++ cbs))%list)
  /\ (receiver m ≠ name -> subscribers b !! receiver m = None ->
      threads b2 = threads b).
Proof.
  simpl.
  destruct (subscribed_all name cbs b) as (H1 & H2 & H3). simpl in H1, H2, H3.
  destruct (publish_spec write_json m
              (run_calls write_json (map (CallSubscribe name) cbs) b).2)
    as (b2 & Hp & _ & _ & _ & _ & Ht & _).
  rewrite Hp. simpl. rewrite Ht, H3. split.
  - intros ->. by rewrite H1.
  - intros Hne Hnone. rewrite (H2 _ Hne), Hnone. simpl. by rewrite app_nil_r.
Qed.

End MoreBrokerFacts.

(** *** The message log on a working disk *)

Lemma string_length_app (a b : string) :
  String.length (a ++ b) = String.length a + String.length b.
Proof. induction a as [|c a IH]; simpl; [done|]. by rewrite IH. Qed.

Lemma string_app_inj_r (a b s : string) : (a ++ s = b ++ s)%string -> a = b.
Proof.
  revert b. induction a as [|c a IH]; intros [|c' b] H; simpl in H.
  - done.
  - apply (f_equal String.length) in H.
    rewrite !string_length_app in H. simpl in H. lia.
  - apply (f_equal String.length) in H.
    rewrite !string_length_app in H. simpl in H. lia.
  - injection H as -> H. f_equal. by apply IH.
Qed.

Section MessageLog.
Import message_broker broker_extras.

Abbreviation DiskBroker := (MessageBroker files).

Lemma message_path_inj (b : DiskBroker) (m m' : Message) :
  message_path b m = message_path b m' -> message_id m = message_id m'.
Proof.
  unfold message_path. intros H.
  apply String.app_inj in H. apply (String.app_inj "/") in H.
  by apply string_app_inj_r in H.
Qed.

Lemma run_call_disk (c : call) (b : DiskBroker) :
  exists b',
    run_call write_file c b = (Ok tt, b')
    /\ storage_path b' = storage_path b
    /\ disk b' = match c with
                 | CallPublish m => <[message_path b m := to_dict m]> (disk b)
                 | _ => disk b
                 end.
Proof.
  destruct c as [n|m|n cb|n|n]; simpl.
  - rewrite create_queue_spec. eexists. split; [reflexivity|].
    by destruct (queues b !! n).
  - destruct (publish_spec write_file m b) as (b' & Hp & _ & _ & _ & Hsp & _ & Hd).
    exists b'. done.
  - unfold subscribe. run_prog.
    destruct (subscribers b !! n) eqn:Hs; simpl.
    + rewrite Hs. eexists. split; [reflexivity|]. done.
    + rewrite lookup_insert_eq. eexists. split; [reflexivity|]. done.
  - destruct (receive_spec n b) as (r & b' & Hr & _ & _ & Hsp & Hd & _).
    exists b'. rewrite (bind_ok _ _ _ _ _ Hr). done.
  - unfold clear_queue. run_prog.
    destruct (queues b !! n); simpl; eexists; (split; [reflexivity|]); done.
Qed.

Lemma run_calls_app (cs1 cs2 : list call) (b : DiskBroker) :
  run_calls write_file (cs1 ++ cs2) b
  = run_calls write_file cs2 (run_calls write_file cs1 b).2.
Proof.
  revert b. induction cs1 as [|c cs1 IH]; intros b; [done|].
  destruct (run_call_disk c b) as (b1 & Hc & _).
  simpl. rewrite !(bind_ok _ _ _ _ _ Hc). apply IH.
Qed.

Lemma run_calls_storage_path (cs : list call) (b : DiskBroker) :
  storage_path (run_calls write_file cs b).2 = storage_path b.
Proof.
  revert b. induction cs as [|c cs IH]; intros b; [done|].
  destruct (run_call_disk c b) as (b1 & Hc & Hsp & _).
  simpl. rewrite (bind_ok _ _ _ _ _ Hc). by rewrite IH.
Qed.

(** a file survives the calls that do not publish under its id *)
Lemma run_calls_keep_file (cs : list call) (b : DiskBroker) (m : Message) :
  Forall (fun m' => message_id m' ≠ message_id m) (published cs) ->
  disk (run_calls write_file cs b).2 !! message_path b m
  = disk b !! message_path b m.
Proof.
  revert b. induction cs as [|c cs IH]; intros b Hids; [done|].
  destruct (run_call_disk c b) as (b1 & Hc & Hsp & Hd).
  simpl. rewrite (bind_ok _ _ _ _ _ Hc).
  assert (Hp : message_path b1 m = message_path b m).
  { unfold message_path. by rewrite Hsp. }
  rewrite <- Hp, IH, Hp, Hd.
  - destruct c as [n|m'|n cb|n|n]; try done.
    rewrite lookup_insert_ne; [done|].
    intros Heq. apply message_path_inj in Heq.
    unfold published in Hids. simpl in Hids.
    apply Forall_cons in Hids as [Hne _]. done.
  - rewrite (published_cons c cs) in Hids.
    by apply Forall_app in Hids as [_ ?].
Qed.

(** X7.  The persisted log is keyed by message id.  Take messages
    whose ids are plain file names (no path separator, as the ids made
    by [uuid4] are), on a disk whose writes succeed.  After any sequence
    of broker calls the file [<storage_path>/<message_id>.json] of a
    published message holds that message's serialized envelope, unless a
    message published later has the same [message_id] (whose envelope
    then replaces it). *)
Theorem message_log_keyed_by_id
    (before after : list call) (m : Message) (b : DiskBroker) :
  plain_id (message_id m) = true ->
  Forall (fun m' => plain_id (message_id m') = true) (published after) ->
  Forall (fun m' => message_id m' ≠ message_id m) (published after) ->
  let b' := (run_calls write_file (before ++ CallPublish m :: after) b).2 in
  disk b' !! message_path b m = Some (to_dict m)
  /\ from_dict (default ∅ (disk b' !! message_path b m)) (timestamp m)
     = Ok (mkMessage (message_id m) (sender m) (receiver m) (message_type m)
                     (content m)
                     (or_str (Some (correlation_id m)) (message_id m))
                     (timestamp m)).
Proof.
  intros _ _ Hids. simpl.
  assert (H : disk (run_calls write_file (before ++ CallPublish m :: after) b).2
              !! message_path b m = Some (to_dict m)).
  { rewrite run_calls_app.
    set (b1 := (run_calls write_file before b).2).
    assert (Hsp1 : message_path b1 m = message_path b m).
    { unfold message_path, b1. by rewrite run_calls_storage_path. }
    change (CallPublish m :: after) with ([CallPublish m] ++ after)%list.
    rewrite run_calls_app.
    set (b2 := (run_calls write_file [CallPublish m] b1).2).
    assert (Hsp2 : message_path b2 m = message_path b m).
    { unfold message_path, b2. by rewrite run_calls_storage_path. }
    rewrite <- Hsp2, run_calls_keep_file by done.
    rewrite Hsp2, <- Hsp1. unfold b2. simpl.
    destruct (publish_spec write_file m b1) as (b' & Hp & _ & _ & _ & _ & _ & Hd).
    rewrite (bind_ok _ _ _ _ _ Hp). simpl. rewrite Hd. simpl.
    apply lookup_insert_eq. }
  split; [exact H|]. rewrite H. simpl.
  destruct m as [mid snd rcv mty cnt cid ts]. vm_compute. reflexivity.
Qed.

End MessageLog.

(** X8.  [get_broker] hands out one broker per process.  Once a call has
    built the instance, every later call returns that same broker and
    builds nothing, whatever type and keyword arguments it asks for: a
    later request for a Redis broker is answered with the in-memory one
    made first.  When the construction raises, the exception reaches the
    caller and no instance is kept, so the next call builds again. *)
Theorem get_broker_singleton {B : Type}
    (make_redis make_memory : dict -> outcome B)
    (type1 type2 : string) (kwargs1 kwargs2 : dict) :
  let first := broker_extras.get_broker make_redis make_memory type1 kwargs1 None in
  match first.1 with
  | Ok b =>
      first.2 = Some b
      /\ broker_extras.get_broker make_redis make_memory type2 kwargs2 first.2
         = (Ok b, first.2)
  | Raise e =>
      first.2 = None
      /\ (if String.eqb type1 "redis" then make_redis kwargs1
          else make_memory kwargs1) = Raise e
  end.
Proof.
  unfold broker_extras.get_broker. run_prog.
  destruct (if String.eqb type1 "redis" then make_redis kwargs1
            else make_memory kwargs1) as [b|e]; simpl; done.
Qed.

(** ** More on the worker wrapper *)

Section MoreServiceFacts.
Import message_broker agent_service broker_extras service_extras.
Context {Disk Agent : Type}.
Variable write_json : string -> dict -> Disk -> option exn * Disk.
Variable execute_task : dict -> prog Agent pyval.
Variable uuid4 : nat -> string.
Variable now : nat -> string.

Abbreviation Service := (AgentService Disk Agent).
Abbreviation handle := (_handle_message (Disk := Disk) execute_task).
Abbreviation round := (process_round write_json execute_task uuid4 now).
Abbreviation loop := (_process_messages write_json execute_task uuid4 now).

(** whatever the message and whatever the task does, [_handle_message]
    returns, with nothing or with a response that names a receiver; it
    touches the agent only *)
Lemma handle_shape (m : Message) (s : Service) :
  exists o s1,
    handle m s = (Ok o, s1)
    /\ broker s1 = broker s /\ agent_name s1 = agent_name s
    /\ clock s1 = clock s /\ running s1 = running s
    /\ (o = None -> agent s1 = agent s
                    \/ exists act, get (content m) "action" = VStr act)
    /\ (forall r, o = Some r ->
          exists rcv, r !! "receiver" = Some (VStr rcv)).
Proof.
  unfold _handle_message.
  destruct (negb (truthy (get (content m) "action"))) eqn:Ht.
  { exists None, s. repeat split; try done. by left. }
  unfold try_except, bind, on_agent, zoom.
  destruct (get (content m) "action") as [| | |act| |] eqn:Hact; simpl;
    try (exists None, s; repeat split; try done; by left).
  destruct (String.eqb act "create_story").
  { destruct (execute_task (content m) (agent s)) as [[res|e] a'];
      simpl; eexists (Some _), _; repeat split; try done;
      intros r [= <-]; eexists; reflexivity. }
  destruct (String.eqb act "generate_illustrations").
  { destruct (execute_task (content m) (agent s)) as [[res|e] a'];
      simpl; eexists (Some _), _; repeat split; try done;
      intros r [= <-]; eexists; reflexivity. }
  destruct (String.eqb act "create_publication").
  { destruct (execute_task (content m) (agent s)) as [[res|e] a'];
      simpl; eexists (Some _), _; repeat split; try done;
      intros r [= <-]; eexists; reflexivity. }
  exists None, s. repeat split; try done. right. eauto.
Qed.

Lemma round_outcome (s : Service) :
  exists s' l,
    round s = (Ok tt, s')
    /\ message_history (broker s') = (message_history (broker s) ++ l)%list
    /\ List.length l <= 1
    /\ running s' = running s
    /\ agent_name s' = agent_name s
    /\ (queue_of (agent_name s) (broker s) = [] ->
        l = [] /\ agent s' = agent s /\ clock s' = clock s).
Proof.
  destruct (queues (broker s) !! agent_name s) as [[|m q]|] eqn:Hq.
  - destruct (receive_spec (agent_name s) (broker s))
      as (r & b' & Hr & Hh & _ & _ & _ & _ & Hq'). rewrite Hq in Hq'.
    destruct Hq' as [-> _].
    exists (set_broker b' s), []. split.
    { unfold process_round, try_except.
      rewrite (bind_ok _ _ s s s) by reflexivity.
      by rewrite (bind_ok _ _ _ _ _ (zoom_ok broker set_broker _ _ _ _ Hr)). }
    simpl. rewrite app_nil_r. repeat split; try done. lia.
  - set (s0 := set_broker (set_queues (<[agent_name s := q]> (queues (broker s)))
                                      (broker s)) s).
    destruct (handle_shape m s0) as (o & s1 & Hh & Hb & Hn & Hc & Hrun & _ & Hsome).
    destruct o as [response|].
    + destruct (Hsome response eq_refl) as [rcv Hrcv].
      destruct (round_publishes write_json execute_task uuid4 now
                  s s1 m q response rcv Hq Hh Hn Hc Hrun Hb Hrcv)
        as (s' & Hround & _ & Hn' & Hrun' & _ & Hhist & _).
      exists s', [Message_init (uuid4 (clock s)) (agent_name s) rcv "response"
                    response (Some (correlation_id m)) (now (clock s))].
      split; [exact Hround|]. split; [exact Hhist|].
      split; [simpl; lia|]. split; [congruence|]. split; [exact Hn'|].
      intros He. unfold queue_of in He. by rewrite Hq in He.
    + exists s1, []. split.
      { unfold process_round, try_except.
        rewrite (bind_ok _ _ s s s) by reflexivity.
        rewrite (bind_ok _ _ _ _ _
                   (zoom_ok broker set_broker _ _ _ _ (receive_head _ _ _ _ Hq))).
        by rewrite (bind_ok _ _ _ _ _ Hh). }
      rewrite Hb, Hn, Hrun. simpl. rewrite app_nil_r.
      split; [done|]. split; [lia|]. split; [done|]. split; [done|].
      intros He. unfold queue_of in He. by rewrite Hq in He.
  - destruct (receive_spec (agent_name s) (broker s))
      as (r & b' & Hr & Hh & _ & _ & _ & _ & Hq'). rewrite Hq in Hq'.
    destruct Hq' as [-> _].
    exists (set_broker b' s), []. split.
    { unfold process_round, try_except.
      rewrite (bind_ok _ _ s s s) by reflexivity.
      by rewrite (bind_ok _ _ _ _ _ (zoom_ok broker set_broker _ _ _ _ Hr)). }
    simpl. rewrite app_nil_r. repeat split; try done. lia.
Qed.

(** X9.  A round of the worker loop never raises, whatever is queued
    and whatever the wrapped task does; it publishes at most one message,
    and leaves the service's name and its running flag alone.  With
    nothing waiting for the service, the round publishes nothing and
    touches neither the agent nor the clock. *)
Theorem round_never_raises (s : Service) :
  exists s' l,
    round s = (Ok tt, s')
    /\ message_history (broker s') = (message_history (broker s) ++ l)%list
    /\ List.length l <= 1
    /\ running s' = running s
    /\ agent_name s' = agent_name s
    /\ (queue_of (agent_name s) (broker s) = [] ->
        l = [] /\ agent s' = agent s /\ clock s' = clock s).
Proof.
  destruct (round_outcome s)
    as (s' & l & Hround & Hhist & Hlen & Hrun & Hname & Hidle).
  exists s', l. split; [exact Hround|]. split; [exact Hhist|].
  split; [exact Hlen|]. split; [exact Hrun|]. split; [exact Hname|].
  exact Hidle.
Qed.

Lemma happen_keeps_running (ev : event) (s : Service) :
  (match ev with Stop => False | _ => True end) ->
  exists s1, happen write_json ev s = (Ok tt, s1) /\ running s1 = running s.
Proof.
  destruct ev as [| |m]; intros Hev; [|done|].
  - exists s. done.
  - destruct (publish_spec write_json m (broker s)) as (b' & Hp & _).
    exists (set_broker b' s). split; [|done].
    unfold happen, on_broker, zoom. by rewrite Hp.
Qed.

(** X10.  The worker loop ends on [stop()] and on nothing else.  Started
    running, the loop over any events of the other threads never raises;
    it has exited at the end of the events exactly when a [stop()] is
    among them.  At the first [stop()] it exits at once: the service is
    as the rounds before left it, with [running] false, and whatever
    happens afterwards, or still waits in its queue, is not processed. *)
Theorem loop_ends_on_stop_only (evs : list event) (s : Service) :
  running s = true ->
  (exists s', loop evs s = (Ok (stops evs), s')
              /\ running s' = negb (stops evs))
  /\ (forall before after,
        evs = (before ++ Stop :: after)%list -> stops before = false ->
        loop evs s = (Ok true, set_running false (loop before s).2)).
Proof.
  revert s. induction evs as [|ev evs IH]; intros s Hrun.
  - split.
    + exists s. simpl. by rewrite Hrun.
    + intros before after H. by destruct before.
  - destruct ev as [| |m].
    + destruct (round_outcome s) as (s1 & l & Hround & _ & _ & Hrun1 & _).
      destruct (IH s1) as [(s' & Hloop & Hrun') Hcut]; [congruence|].
      assert (Hstep : forall rest,
                 loop (Idle :: rest) s = loop rest s1).
      { intros rest. simpl. unfold bind, happen, ret, get_state. simpl.
        by rewrite Hrun, Hround. }
      split.
      * exists s'. by rewrite Hstep.
      * intros before after Hevs Hno. destruct before as [|b0 before].
        { done. }
        injection Hevs as <- Hevs. simpl in Hno.
        rewrite !Hstep. by apply (Hcut before after).
    + split.
      * exists (set_running false s). simpl.
        unfold bind, happen, stop, modify, get_state, ret. simpl. done.
      * intros before after Hevs Hno. destruct before as [|b0 before].
        { simpl. unfold bind, happen, stop, modify, get_state, ret. simpl. done. }
        injection Hevs as <- _. done.
    + destruct (happen_keeps_running (Arrive m) s I) as (s0 & Hhap & Hrun0).
      destruct (round_outcome s0) as (s1 & l & Hround & _ & _ & Hrun1 & _).
      destruct (IH s1) as [(s' & Hloop & Hrun') Hcut]; [congruence|].
      assert (Hstep : forall rest,
                 loop (Arrive m :: rest) s = loop rest s1).
      { intros rest. simpl. rewrite (bind_ok _ _ _ _ _ Hhap).
        unfold bind, get_state at 1. simpl.
        rewrite Hrun0, Hrun. unfold bind. by rewrite Hround. }
      split.
      * exists s'. by rewrite Hstep.
      * intros before after Hevs Hno. destruct before as [|b0 before].
        { done. }
        injection Hevs as <- Hevs. simpl in Hno.
        rewrite !Hstep. by apply (Hcut before after).
Qed.

(** X11.  [POST /send] enqueues for this service and nobody else.  For
    a body whose [sender], [message_type], [content] and
    [correlation_id], where present, have the kinds the message
    constructor asks for, the handler does not raise and answers
    [accepted] with the fresh message id; the message it has built is
    the last of the history and the last waiting for this service, is
    addressed to this service whatever the body says, and has the body's
    correlation id, or its own id when the body has none or an empty
    one. *)
Theorem send_route_enqueues (data : dict) (s : Service)
    (snd mty : string) (cnt : dict) (cid : option string) :
  str_or data "sender" "external" = Ok snd ->
  str_or data "message_type" "request" = Ok mty ->
  dict_or data "content" ∅ = Ok cnt ->
  opt_str_item data "correlation_id" = Ok cid ->
  let m := Message_init (uuid4 (clock s)) snd (agent_name s) mty cnt cid
                        (now (clock s)) in
  exists s',
    send_message write_json uuid4 now data s
    = (Ok (list_to_map [ ("status", VStr "accepted");
                         ("message_id", VStr (uuid4 (clock s))) ]), s')
    /\ receiver m = agent_name s
    /\ correlation_id m = or_str cid (uuid4 (clock s))
    /\ queue_of (agent_name s) (broker s')
       = (queue_of (agent_name s) (broker s) ++ [m])%list
    /\ message_history (broker s') = (message_history (broker s) ++ [m])%list
    /\ agent s' = agent s
    /\ clock s' = S (clock s).
Proof.
  intros Hsnd Hmty Hcnt Hcid m.
  destruct (publish_spec write_json m (broker s)) as (b' & Hp & Hq0 & Hh & _).
  destruct (enqueued_local m (broker s) b' Hq0) as [Hq _].
  exists (set_broker b' (set_clock (S (clock s)) s)). split.
  - unfold send_message.
    rewrite (bind_ok _ _ s s s) by reflexivity.
    rewrite (bind_ok _ _ s tt (set_clock (S (clock s)) s)) by reflexivity.
    unfold eval. rewrite Hsnd, Hmty, Hcnt, Hcid.
    unfold bind at 1. unfold bind at 1. unfold bind at 1. unfold bind at 1.
    fold m. unfold bind, on_broker, zoom. simpl. rewrite Hp. reflexivity.
  - simpl. repeat split; done.
Qed.

End MoreServiceFacts.

(** ** The pipeline through the services *)

(** X12.  What the author wrote reaches the publisher unchanged.  Let the
    author service handle a [create_story] message, the illustrator
    service the message made from its response, and the publisher service
    the message made from the illustrator's, each task returning.  The
    publisher's message carries the author's result as [story_data] and
    the illustrator's as [illustrations]; the response of the publisher
    service is addressed to the Orchestrator with action [complete] and
    carries the publisher's result alone: neither the story nor the
    illustrations travel on to the orchestrator. *)
Theorem story_data_reaches_publisher {Disk A1 A2 A3 : Type}
    (author_task : dict -> prog A1 pyval)
    (illustrator_task : dict -> prog A2 pyval)
    (publisher_task : dict -> prog A3 pyval)
    (m1 m2 m3 : message_broker.Message)
    (s1 : agent_service.AgentService Disk A1)
    (s2 : agent_service.AgentService Disk A2)
    (s3 : agent_service.AgentService Disk A3)
    (story images files : pyval) (a1 : A1) (a2 : A2) (a3 : A3) :
  get (message_broker.content m1) "action" = VStr "create_story" ->
  author_task (message_broker.content m1) (agent_service.agent s1)
  = (Ok story, a1) ->
  (agent_service._handle_message author_task m1 s1).1
  = Ok (Some (message_broker.content m2)) ->
  illustrator_task (message_broker.content m2) (agent_service.agent s2)
  = (Ok images, a2) ->
  (agent_service._handle_message illustrator_task m2 s2).1
  = Ok (Some (message_broker.content m3)) ->
  publisher_task (message_broker.content m3) (agent_service.agent s3)
  = (Ok files, a3) ->
  message_broker.content m3 !! "story_data" = Some story
  /\ message_broker.content m3 !! "illustrations" = Some images
  /\ message_broker.content m3 !! "receiver" = Some (VStr "PublisherService")
  /\ exists r3,
       (agent_service._handle_message publisher_task m3 s3).1 = Ok (Some r3)
       /\ r3 !! "receiver" = Some (VStr "Orchestrator")
       /\ r3 !! "action" = Some (VStr "complete")
       /\ r3 !! "result" = Some files
       /\ r3 !! "story_data" = None
       /\ r3 !! "illustrations" = None
       /\ r3 !! "correlation_id"
          = Some (VStr (message_broker.correlation_id m3)).
Proof.
  intros Hact1 He1 Hh1 He2 Hh2 He3.
  unfold agent_service._handle_message in Hh1. rewrite Hact1 in Hh1.
  simpl in Hh1.
  unfold try_except, bind, agent_service.on_agent, zoom in Hh1.
  rewrite He1 in Hh1. simpl in Hh1. injection Hh1 as Hc2.
  unfold agent_service._handle_message in Hh2.
  assert (Hact2 : get (message_broker.content m2) "action"
                  = VStr "generate_illustrations") by (by rewrite <- Hc2).
  assert (Hsd : get (message_broker.content m2) "story_data" = story)
    by (by rewrite <- Hc2).
  rewrite Hact2, Hsd in Hh2. simpl in Hh2.
  unfold try_except, bind, agent_service.on_agent, zoom in Hh2.
  rewrite He2 in Hh2. simpl in Hh2. injection Hh2 as Hc3.
  assert (Hact3 : get (message_broker.content m3) "action"
                  = VStr "create_publication") by (by rewrite <- Hc3).
  split; [by rewrite <- Hc3|]. split; [by rewrite <- Hc3|].
  split; [by rewrite <- Hc3|].
  unfold agent_service._handle_message. rewrite Hact3. simpl.
  unfold try_except, bind, agent_service.on_agent, zoom.
  rewrite He3. simpl. eexists. split; [reflexivity|]. done.
Qed.

(** ** More on the distributed orchestrator *)

Section MoreOrchestratorFacts.
Import message_broker distributed_orchestrator orchestrator_extras broker_extras.
Context {Disk : Type}.
Variable write_json : string -> dict -> Disk -> option exn * Disk.

Abbreviation Orch := (DistributedOrchestrator Disk).

Lemma receive_orchestrator (s : Orch) (m : Message) (q : list Message) :
  inbox (broker s) = m :: q ->
  exists b',
    on_broker (receive "Orchestrator") s = (Ok (Some m), set_broker b' s)
    /\ inbox b' = q
    /\ message_history b' = message_history (broker s).
Proof.
  intros Hin.
  destruct (receive_queue_of "Orchestrator" (broker s))
    as (b' & Hr & Hq & Hh & _).
  change (queue_of "Orchestrator" (broker s)) with (inbox (broker s)) in *.
  change (queue_of "Orchestrator" b') with (inbox b') in *.
  rewrite Hin in Hr, Hq. simpl in Hr, Hq.
  exists b'. split; [|done]. unfold on_broker, zoom. by rewrite Hr.
Qed.

(** X13.  Cross-talk is discarded, not requeued.  Let the orchestrator's
    queue hold some messages the loop passes over (of other tasks, or
    progress messages of this one), then a completion of this task whose
    result is the mapping [d], then further messages.  With nothing else
    arriving and a clock reading before the deadline for each of them,
    [create_story]'s poll loop receives them one per round and returns
    the completion's result, [d] with [status] set to [complete] and
    [correlation_id] to the task's: every other key of [d] comes back as
    the publisher gave it.  The messages passed over are gone from the
    queue, those behind the completion still wait, and the pending entry
    is removed. *)
Theorem poll_discards_cross_talk
    (cid : string) (t_start timeout : Z) (readings : list Z)
    (skipped waiting : list Message) (m : Message) (d : dict) (s : Orch) :
  inbox (broker s) = (skipped ++ m :: waiting)%list ->
  forallb (passed_over cid) skipped = true ->
  correlation_id m = cid ->
  eq_str (get (content m) "action") "complete" = true ->
  get_or (content m) "result" (VDict ∅) = VDict d ->
  is_Some (pending_tasks s !! cid) ->
  List.length readings = S (List.length skipped) ->
  Forall (fun t => (t - t_start < timeout)%Z) readings ->
  exists s',
    poll write_json cid t_start timeout (quiet readings) s
    = (Ok (Some (<["correlation_id" := VStr cid]>
                   (<["status" := VStr "complete"]> d))), s')
    /\ inbox (broker s') = waiting
    /\ pending_tasks s' !! cid = None.
Proof.
  intros Hin Hskip Hcid Hact Hres Hpend Hlen Hearly.
  revert readings s Hin Hpend Hlen Hearly.
  induction skipped as [|x skipped IH]; intros readings s Hin Hpend Hlen Hearly.
  - destruct readings as [|t [|? ?]]; try done.
    apply Forall_cons in Hearly as [Ht _].
    destruct (receive_orchestrator s m waiting Hin) as (b' & Hr & Hq & Hh).
    simpl. destruct (Z.ltb_spec (t - t_start) timeout) as [_|?]; [|lia].
    rewrite (bind_ok _ _ s tt s) by (by destruct s).
    rewrite (bind_ok _ _ _ _ _ Hr).
    rewrite Hcid, String.eqb_refl, Hact, Hres. run_prog.
    destruct Hpend as [task Htask]. rewrite Htask. simpl.
    eexists. split; [reflexivity|]. simpl.
    by rewrite lookup_delete_eq.
  - destruct readings as [|t readings]; [done|].
    apply Forall_cons in Hearly as [Ht Hearly].
    simpl in Hskip. apply andb_true_iff in Hskip as [Hx Hskip].
    destruct (receive_orchestrator s x (skipped ++ m :: waiting)%list Hin)
      as (b' & Hr & Hq & Hh).
    destruct (IH Hskip readings (set_broker b' s)) as (s' & Hpoll & Hrest);
      [done|done|simpl in Hlen; lia|done|].
    exists s'. split; [|exact Hrest].
    simpl. destruct (Z.ltb_spec (t - t_start) timeout) as [_|?]; [|lia].
    rewrite (bind_ok _ _ s tt s) by (by destruct s).
    rewrite (bind_ok _ _ _ _ _ Hr).
    unfold passed_over in Hx.
    destruct (String.eqb (correlation_id x) cid); [|exact Hpoll].
    simpl in Hx. apply andb_true_iff in Hx as [Hc He].
    apply negb_true_iff in Hc, He. rewrite Hc, He. exact Hpoll.
Qed.

Lemma publish_all_history (ms : list Message) (b : MessageBroker Disk) :
  exists b',
    publish_all write_json ms b = (Ok tt, b')
    /\ message_history b' = (message_history b ++ ms)%list.
Proof.
  revert b. induction ms as [|m ms IH]; intros b.
  - exists b. simpl. by rewrite app_nil_r.
  - destruct (publish_spec write_json m b) as (b1 & Hp & _ & Hh & _).
    destruct (IH b1) as (b2 & Hp2 & Hh2).
    exists b2. split; [simpl; by rewrite (bind_ok _ _ _ _ _ Hp)|].
    by rewrite Hh2, Hh, <- app_assoc.
Qed.

(** the poll loop only adds to the history, whatever it ends with *)
Lemma poll_history (cid : string) (t_start timeout : Z) (rounds : list round)
    (s : Orch) :
  exists l,
    message_history (broker (poll write_json cid t_start timeout rounds s).2)
    = (message_history (broker s) ++ l)%list.
Proof.
  revert s. induction rounds as [|[t arrivals] rounds IH]; intros s.
  - exists []. simpl. by rewrite app_nil_r.
  - simpl. destruct (t - t_start <? timeout)%Z.
    2:{ exists []. simpl. by rewrite app_nil_r. }
    destruct (publish_all_history arrivals (broker s)) as (b1 & Hp & Hh1).
    destruct (receive_spec "Orchestrator" b1) as (r & b2 & Hr & Hh2 & _).
    rewrite (bind_ok _ _ _ _ _ (zoom_ok broker set_broker _ _ _ _ Hp)).
    assert (Hrecv : on_broker (receive "Orchestrator") (set_broker b1 s)
                    = (Ok r, set_broker b2 s)).
    { unfold on_broker, zoom. simpl. by rewrite Hr. }
    rewrite (bind_ok _ _ _ _ _ Hrecv).
    assert (Hnext : exists l,
               message_history
                 (broker (poll write_json cid t_start timeout rounds
                               (set_broker b2 s)).2)
               = (message_history (broker s) ++ l)%list).
    { destruct (IH (set_broker b2 s)) as [l Hl]. exists (arrivals ++ l)%list.
      rewrite Hl. simpl. by rewrite Hh2, Hh1, <- app_assoc. }
    assert (Hhere : message_history (broker (set_broker b2 s))
                    = (message_history (broker s) ++ arrivals)%list).
    { simpl. by rewrite Hh2, Hh1. }
    destruct r as [m|]; [|exact Hnext].
    destruct (String.eqb (correlation_id m) cid); [|exact Hnext].
    destruct (eq_str (get (content m) "action") "complete").
    + exists arrivals. run_prog.
      destruct (setitem _ _ _) as [d|e]; simpl; [|by rewrite Hh2, Hh1].
      destruct (pending_tasks s !! cid); simpl; by rewrite Hh2, Hh1.
    + destruct (eq_str (get (content m) "action") "error"); [|exact Hnext].
      exists arrivals. exact Hhere.
Qed.

(** what a poll that returns has done to [pending_tasks] *)
Lemma poll_outcome_inv (cid : string) (t_start timeout : Z)
    (rounds : list round) (s s' : Orch) (o : option dict) :
  poll write_json cid t_start timeout rounds s = (Ok o, s') ->
  poll_outcome cid s s' o.
Proof.
  revert s. induction rounds as [|[t arrivals] rounds IH]; intros s H.
  - injection H as <- <-. done.
  - simpl in H. destruct (t - t_start <? timeout)%Z.
    2:{ injection H as <- <-. right. right. done. }
    destruct (publish_all_history arrivals (broker s)) as (b1 & Hp & _).
    destruct (receive_spec "Orchestrator" b1) as (r & b2 & Hr & _).
    rewrite (bind_ok _ _ _ _ _ (zoom_ok broker set_broker _ _ _ _ Hp)) in H.
    assert (Hrecv : on_broker (receive "Orchestrator") (set_broker b1 s)
                    = (Ok r, set_broker b2 s)).
    { unfold on_broker, zoom. simpl. by rewrite Hr. }
    rewrite (bind_ok _ _ _ _ _ Hrecv) in H.
    assert (Hnext : poll write_json cid t_start timeout rounds (set_broker b2 s)
                    = (Ok o, s') -> poll_outcome cid s s' o).
    { intros H'. apply IH in H'. exact H'. }
    destruct r as [m|]; [|by apply Hnext].
    destruct (String.eqb (correlation_id m) cid); [|by apply Hnext].
    destruct (eq_str (get (content m) "action") "complete").
    + apply bind_inv_ok in H as (d & s1 & Hd & H).
      apply eval_inv_ok in Hd as [Hd ->].
      apply bind_inv_ok in H as (self & s1 & Hself & H).
      injection Hself as <- <-.
      apply bind_inv_ok in H as (u & s1 & Hdel & H).
      injection H as <- <-. simpl in Hdel.
      destruct (pending_tasks s !! cid); [|done].
      unfold modify in Hdel. injection Hdel as _ <-.
      left. simpl. split; [|done].
      rewrite lookup_insert_ne by done.
      destruct (get_or (content m) "result" (VDict ∅)); try done.
      injection Hd as <-. by rewrite lookup_insert_eq.
    + destruct (eq_str (get (content m) "action") "error"); [|by apply Hnext].
      injection H as <- <-. right. left. done.
Qed.

Lemma create_story_unfold (story_idea0 : dict) (timeout : Z)
    (cid mid now : string) (t_task t_start : Z) (rounds : list round)
    (s : Orch) :
  plot_sliceable story_idea0 ->
  exists b1,
    publish write_json (story_request story_idea0 cid mid now) (broker s)
    = (Ok tt, b1)
    /\ create_story write_json story_idea0 timeout cid mid now
                    t_task t_start rounds s
       = poll write_json cid t_start timeout rounds
           (set_broker b1
              (set_pending_tasks
                 (<[cid := mkPending "started" t_task story_idea0]>
                    (pending_tasks s)) s)).
Proof.
  intros [v Hv].
  destruct (publish_spec write_json (story_request story_idea0 cid mid now)
              (broker s)) as (b1 & Hp & _).
  exists b1. split; [done|]. unfold create_story.
  rewrite (bind_ok _ _ s v s) by (unfold eval; by rewrite Hv).
  rewrite (bind_ok _ _ s s s) by reflexivity.
  erewrite (bind_ok _ _ s tt) by reflexivity.
  fold (story_request story_idea0 cid mid now).
  erewrite bind_ok; [reflexivity|].
  unfold on_broker, zoom. simpl. by rewrite Hp.
Qed.

(** X14.  A deadline already passed.  When the first clock reading of
    the loop is not before the deadline (as with a timeout of zero),
    [create_story] returns status [timeout] at once, with the message
    naming the timeout; by then it has published its request to the
    author service all the same, has received nothing (the orchestrator's
    queue is as it was, and what would have arrived is not awaited), and
    has left the task in [pending_tasks]. *)
Theorem deadline_already_passed
    (story_idea0 : dict) (timeout : Z) (cid mid now : string)
    (t_task t_start t : Z) (arrivals : list Message) (rounds : list round)
    (s : Orch) :
  plot_sliceable story_idea0 ->
  (timeout <= t - t_start)%Z ->
  exists s',
    create_story write_json story_idea0 timeout cid mid now t_task t_start
                 ((t, arrivals) :: rounds) s
    = (Ok (Some (list_to_map
         [ ("status", VStr "timeout");
           ("message", VStr ("Story creation timed out after "
                             ++ pretty timeout ++ " seconds"));
           ("correlation_id", VStr cid) ])), s')
    /\ message_history (broker s')
       = (message_history (broker s)
          ++ [story_request story_idea0 cid mid now])%list
    /\ queue_of "AuthorService" (broker s')
       = (queue_of "AuthorService" (broker s)
          ++ [story_request story_idea0 cid mid now])%list
    /\ inbox (broker s') = inbox (broker s)
    /\ pending_tasks s' !! cid = Some (mkPending "started" t_task story_idea0).
Proof.
  intros Hplot Hlate.
  destruct (create_story_unfold story_idea0 timeout cid mid now t_task t_start
              ((t, arrivals) :: rounds) s Hplot) as (b1 & Hp & ->).
  destruct (publish_spec write_json
              (story_request story_idea0 cid mid now) (broker s))
    as (b1' & Hp' & Hq0 & Hh & _).
  destruct (enqueued_local _ _ _ Hq0) as [Hq Hother].
  rewrite Hp in Hp'. injection Hp' as <-.
  simpl. destruct (Z.ltb_spec (t - t_start) timeout) as [?|_]; [lia|].
  eexists. split; [reflexivity|]. simpl.
  split; [done|]. split; [done|]. split.
  - unfold inbox. by rewrite Hother.
  - by rewrite lookup_insert_eq.
Qed.

(** X15.  A timed-out task stays pending.  Whenever [create_story]
    returns status [timeout], after however many rounds, the task's entry
    is still in [pending_tasks], with status [started] and the start
    time, and [get_task_status] goes on reporting the task as [started],
    with the time elapsed since the start. *)
Theorem timeout_leaves_task_pending
    (story_idea0 : dict) (timeout : Z) (cid mid now : string)
    (t_task t_start t : Z) (rounds : list round) (s s' : Orch)
    (result : dict) :
  create_story write_json story_idea0 timeout cid mid now t_task t_start
               rounds s = (Ok (Some result), s') ->
  result !! "status" = Some (VStr "timeout") ->
  pending_tasks s' !! cid = Some (mkPending "started" t_task story_idea0)
  /\ get_task_status cid t s' !! "status" = Some (VStr "started")
  /\ get_task_status cid t s' !! "elapsed_seconds" = Some (VInt (t - t_task)).
Proof.
  intros Hrun Hst.
  assert (Hplot : plot_sliceable story_idea0).
  { unfold create_story in Hrun.
    apply bind_inv_ok in Hrun as (v & s0 & Hv & _).
    apply eval_inv_ok in Hv as [Hv _]. by exists v. }
  destruct (create_story_unfold story_idea0 timeout cid mid now t_task t_start
              rounds s Hplot) as (b1 & _ & Heq).
  rewrite Heq in Hrun. apply poll_outcome_inv in Hrun. simpl in Hrun.
  assert (Hp : pending_tasks s' !! cid
               = Some (mkPending "started" t_task story_idea0)).
  { destruct Hrun as [[H1 _] | [[H1 _] | [_ H2]]]; [congruence|congruence|].
    rewrite H2. by rewrite lookup_insert_eq. }
  split; [exact Hp|]. unfold get_task_status. rewrite Hp. done.
Qed.

Lemma request_in_history
    (story_idea0 : dict) (timeout : Z) (cid mid now : string)
    (t_task t_start : Z) (rounds : list round) (s : Orch) :
  plot_sliceable story_idea0 ->
  exists later,
    message_history
      (broker (create_story write_json story_idea0 timeout cid mid now
                            t_task t_start rounds s).2)
    = (message_history (broker s)
       ++ story_request story_idea0 cid mid now :: later)%list.
Proof.
  intros Hplot.
  destruct (create_story_unfold story_idea0 timeout cid mid now t_task t_start
              rounds s Hplot) as (b1 & Hp & ->).
  destruct (publish_spec write_json (story_request story_idea0 cid mid now)
              (broker s)) as (b1' & Hp' & _ & Hh & _).
  rewrite Hp in Hp'. injection Hp' as <-.
  edestruct poll_history as [l Hl]. rewrite Hl. simpl. rewrite Hh.
  exists l. by rewrite <- app_assoc.
Qed.

(** X16.  The request carries the whole task input.  [create_story]
    publishes one request to the author service before it polls: it is in
    the history right behind what was there, whatever the loop then does.
    Its payload is the task input with the action tag added: every entry
    of the task input is in it unchanged, and its [action] is
    [create_story] unless the task input has an [action] entry of its
    own, which then wins. *)
Theorem request_carries_task_input
    (story_idea0 : dict) (timeout : Z) (cid mid now : string)
    (t_task t_start : Z) (rounds : list round) (s : Orch) :
  plot_sliceable story_idea0 ->
  let request := story_request story_idea0 cid mid now in
  let s' := (create_story write_json story_idea0 timeout cid mid now
                          t_task t_start rounds s).2 in
  (exists later,
      message_history (broker s')
      = (message_history (broker s) ++ request :: later)%list)
  /\ receiver request = "AuthorService"
  /\ sender request = "Orchestrator"
  /\ (forall k v, story_idea0 !! k = Some v -> content request !! k = Some v)
  /\ (forall k, k ≠ "action" -> content request !! k = story_idea0 !! k)
  /\ content request !! "action"
     = Some (default (VStr "create_story") (story_idea0 !! "action")).
Proof.
  intros Hplot. simpl.
  split; [|split; [done|split; [done|split; [|split]]]].
  - by apply request_in_history.
  - intros k v Hk. simpl. by apply lookup_union_Some_l.
  - intros k Hk. simpl. rewrite lookup_union.
    rewrite lookup_singleton_ne by done. by destruct (story_idea0 !! k).
  - simpl. rewrite lookup_union, lookup_singleton_eq.
    by destruct (story_idea0 !! "action").
Qed.

(** X17.  A completed task is answered from the history.  After
    [create_story] has returned status [complete] for a task with a
    non-empty correlation id, [get_task_status] finds no pending entry
    and reads the message history, which holds at least the request: it
    reports [completed] when the latest message of the task is addressed
    to the Orchestrator and [in_progress] otherwise, never [started] or
    [not_found]. *)
Theorem completed_task_status_from_history
    (story_idea0 : dict) (timeout : Z) (cid mid now : string)
    (t_task t_start t : Z) (rounds : list round) (s s' : Orch)
    (result : dict) :
  cid ≠ EmptyString ->
  create_story write_json story_idea0 timeout cid mid now t_task t_start
               rounds s = (Ok (Some result), s') ->
  result !! "status" = Some (VStr "complete") ->
  exists latest,
    last (get_messages_by_correlation cid (broker s')) = Some latest
    /\ get_task_status cid t s' !! "status"
       = Some (VStr (if String.eqb (receiver latest) "Orchestrator"
                     then "completed" else "in_progress"))
    /\ get_task_status cid t s' !! "latest_agent"
       = Some (VStr (receiver latest)).
Proof.
  intros Hcid Hrun Hst.
  assert (Hplot : plot_sliceable story_idea0).
  { unfold create_story in Hrun.
    apply bind_inv_ok in Hrun as (v & s0 & Hv & _).
    apply eval_inv_ok in Hv as [Hv _]. by exists v. }
  destruct (request_in_history story_idea0 timeout cid mid now
              t_task t_start rounds s Hplot) as [later Hhist].
  rewrite Hrun in Hhist. simpl in Hhist.
  destruct (create_story_unfold story_idea0 timeout cid mid now t_task t_start
              rounds s Hplot) as (b1 & _ & Heq).
  rewrite Heq in Hrun. apply poll_outcome_inv in Hrun. simpl in Hrun.
  assert (Hp : pending_tasks s' !! cid = None).
  { destruct Hrun as [[_ H2] | [[H1 _] | [H1 _]]]; [|congruence|congruence].
    rewrite H2. simpl. by rewrite lookup_delete_eq. }
  assert (Hne : get_messages_by_correlation cid (broker s') ≠ []).
  { unfold get_messages_by_correlation. rewrite Hhist, filter_app.
    rewrite filter_cons_True; [by destruct (filter _ (message_history _))|].
    simpl. by apply or_str_keep. }
  destruct (last (get_messages_by_correlation cid (broker s'))) as [latest|] eqn:Hl.
  - exists latest. split; [done|]. unfold get_task_status. rewrite Hp, Hl.
    done.
  - by apply last_None in Hl.
Qed.

(** X18.  The message history of a task serializes faithfully.  For a
    non-empty correlation id, rebuilding each entry of
    [get_message_history] with [from_dict] gives back exactly the
    messages of [get_messages_by_correlation], in order. *)
Theorem message_history_round_trip
    (cid now : string) (b : MessageBroker Disk) :
  cid ≠ EmptyString ->
  from_dicts (get_message_history cid b) now
  = Ok (get_messages_by_correlation cid b)
  /\ List.length (get_message_history cid b)
     = List.length (get_messages_by_correlation cid b).
Proof.
  intros Hcid. unfold get_message_history. split; [|by rewrite length_map].
  assert (H : Forall (fun m => correlation_id m = cid)
                     (get_messages_by_correlation cid b)).
  { unfold get_messages_by_correlation. apply Forall_forall. intros m Hm.
    by apply list_elem_of_filter in Hm as [? _]. }
  induction H as [|m ms Hm _ IH]; [done|].
  assert (Hback : from_dict (to_dict m) now = Ok m).
  { destruct m as [mid snd rcv mty cnt c ts]. simpl in Hm.
    destruct c as [|a c]; [congruence|]. apply from_dict_to_dict_fields. }
  simpl. rewrite Hback. simpl. by rewrite IH.
Qed.

End MoreOrchestratorFacts.

(** ** The agents' helpers *)

Section AgentHelperFacts.
Import base_agent base_agent_extras.

(** X19.  [get_context(limit)] returns the most recent messages: for a
    positive [limit], the last [limit] entries of the memory, or all of
    it when it holds fewer.  A [limit] of zero does not give an empty
    context: [memory[-0:]] is the whole memory. *)
Theorem get_context_recent (limit : Z) (self : BaseAgent) :
  ((0 < limit)%Z ->
   get_context limit self
   = drop (List.length (memory self) - Z.to_nat limit) (memory self)
   /\ List.length (get_context limit self)
      = Nat.min (Z.to_nat limit) (List.length (memory self))
   /\ exists older, memory self = (older ++ get_context limit self)%list)
  /\ get_context 0 self = memory self.
Proof.
  unfold get_context, slice_from. split.
  - intros Hpos.
    destruct (Z.ltb_spec (- limit) 0) as [_|?]; [|lia].
    assert (Hi : Z.to_nat (Z.max 0 (Z.of_nat (List.length (memory self)) + - limit))
                 = List.length (memory self) - Z.to_nat limit) by lia.
    rewrite Hi. split; [done|]. split.
    + rewrite length_drop. lia.
    + exists (take (List.length (memory self) - Z.to_nat limit) (memory self)).
      by rewrite take_drop.
  - change (- 0)%Z with 0%Z. simpl.
    replace (Z.to_nat (Z.min 0 (Z.of_nat (List.length (memory self))))) with 0 by lia.
    done.
Qed.

End AgentHelperFacts.

Section PublisherFacts.
Import py_text publisher_agent.

Lemma take_str_length (n : nat) (s : string) :
  String.length (take_str n s) = Nat.min n (String.length s).
Proof.
  revert s. induction n as [|n IH]; intros [|c s]; simpl; try done.
  by rewrite IH.
Qed.

Lemma take_str_all (n : nat) (s : string) :
  String.length s <= n -> take_str n s = s.
Proof.
  revert s. induction n as [|n IH]; intros [|c s] H; simpl in *; try done; try lia.
  rewrite IH; [done|lia].
Qed.

Lemma word_not_separator (c : ascii) : is_word c = true -> is_separator c = false.
Proof.
  destruct c as [[] [] [] [] [] [] [] []]; vm_compute; congruence.
Qed.

Lemma collapse_all_word (in_run : bool) (s : string) :
  all_word (collapse_separators in_run (remove_invalid s)) = true.
Proof.
  revert in_run. induction s as [|c s IH]; intros in_run; [done|].
  simpl. destruct (is_word c) eqn:Hw; simpl.
  - rewrite (word_not_separator c Hw). simpl. by rewrite Hw, IH.
  - destruct (is_separator c) eqn:Hs; simpl; [|apply IH].
    rewrite Hs. destruct in_run; simpl; by rewrite ?IH.
Qed.

Lemma all_word_take (n : nat) (s : string) :
  all_word s = true -> all_word (take_str n s) = true.
Proof.
  revert s. induction n as [|n IH]; intros [|c s] H; simpl in *; try done.
  apply andb_prop in H as [-> H]. simpl. by apply IH.
Qed.

Lemma all_word_fixed (s : string) :
  all_word s = true ->
  collapse_separators false (remove_invalid s) = s.
Proof.
  induction s as [|c s IH]; intros H; [done|].
  simpl in H. apply andb_prop in H as [Hw H].
  simpl. rewrite Hw. simpl. rewrite (word_not_separator c Hw).
  by rewrite IH.
Qed.

(** X20.  [_sanitize_filename] gives a name fit for a file: for an
    ASCII title, at most 50 characters, each a letter, a digit or an
    underscore, so that no path separator, dot, blank or hyphen is left;
    a name that is already of that form and length is returned as it
    is, and sanitizing twice changes nothing more. *)
Theorem sanitized_filename_safe (filename : string) :
  is_ascii filename = true ->
  String.length (_sanitize_filename filename) <= 50
  /\ all_word (_sanitize_filename filename) = true
  /\ _sanitize_filename (_sanitize_filename filename)
     = _sanitize_filename filename
  /\ (all_word filename = true -> String.length filename <= 50 ->
      _sanitize_filename filename = filename).
Proof.
  intros _.
  assert (Hfix : forall s, all_word s = true -> String.length s <= 50 ->
                           _sanitize_filename s = s).
  { intros s Hw Hl. unfold _sanitize_filename.
    rewrite all_word_fixed by done. by apply take_str_all. }
  assert (Hlen : String.length (_sanitize_filename filename) <= 50).
  { unfold _sanitize_filename. rewrite take_str_length. lia. }
  assert (Hword : all_word (_sanitize_filename filename) = true).
  { unfold _sanitize_filename. apply all_word_take.
    by apply collapse_all_word. }
  split; [done|]. split; [done|]. split; [by apply Hfix|]. apply Hfix.
Qed.


End PublisherFacts.

(** ** The author's answers *)

Section AuthorFacts.
Import base_agent author_agent author_extras.
Variable now : nat -> Z.
Variable execute_task : dict -> prog AuthorAgent dict.

Abbreviation receive := (author_agent.receive_message now execute_task).





(** X23.  What the author does not answer.  A message that is not a
    request, or a request whose action is neither [create_story] nor
    [describe_scene], gets no response: [receive_message] returns
    [None], having stored the message in the memory and done nothing
    else. *)
Theorem author_ignores_other_messages (message : Message) (self : AuthorAgent) :
  message_type message ≠ "request"
  \/ (eq_str (get (content message) "action") "create_story" = false
      /\ eq_str (get (content message) "action") "describe_scene" = false) ->
  receive message self
  = (Ok None,
     mkAuthor (mkBase (name (base self))
                      (memory (base self) ++ [message])%list
                      (base_agent.ticks (base self)))
              (scenes_for_illustration self) (generator self)).
Proof.
  intros H.
  unfold author_agent.receive_message, base_agent.receive_message,
    process_message, remember. run_prog.
  destruct H as [Hty | [H1 H2]].
  - destruct (String.eqb_spec (message_type message) "request"); done.
  - rewrite H1, H2. by destruct (String.eqb (message_type message) "request").
Qed.

End AuthorFacts.

(** ** More on the in-process orchestrator *)

Lemma lower_app (a b : string) : lower (a ++ b) = (lower a ++ lower b)%string.
Proof. induction a as [|c a IH]; simpl; [done|]. by rewrite IH. Qed.

Lemma prefix_app (w b : string) : String.prefix w (w ++ b) = true.
Proof.
  induction w as [|c w IH]; simpl; [by destruct b|].
  destruct (ascii_dec c c); [exact IH|done].
Qed.

Lemma contains_prefix (w hay : string) :
  String.prefix w hay = true -> contains w hay = true.
Proof. destruct hay; simpl; by intros ->. Qed.

Lemma contains_app (w a b : string) : contains w (a ++ w ++ b) = true.
Proof.
  induction a as [|c a IH].
  - change (contains w (w ++ b) = true). apply contains_prefix, prefix_app.
  - change (String c a ++ w ++ b)%string with (String c (a ++ w ++ b)).
    simpl. rewrite IH. apply orb_true_r.
Qed.

Section MoreCoordinatorFacts.
Import base_agent coordinator.
Context {W : Type}.
Variable author illustrator publisher : Message -> prog W (option Message).
Variable scene_assigned : nat -> pyval -> W -> W.
Variable now : nat -> Z.

Abbreviation Orch := (StoryOrchestrator W).
Abbreviation create := (create_story author illustrator publisher scene_assigned now).
Abbreviation clarify := (clarify_scenes author scene_assigned now).
Abbreviation illustrate :=
  (_phase_illustration author illustrator scene_assigned now).

Lemma story_phase_fails_at (idea : dict) (s : Orch)
    (response : option Message) (w' : W) :
  author (story_request idea (now (ticks s))) (agents s) = (Ok response, w') ->
  not_complete response ->
  _phase_story_creation author now idea s
  = (Ok error_result,
     set_agents w' (logged "AuthorAgent" (story_request idea (now (ticks s)))
                           (ticked s))).
Proof.
  intros Ha Hnot. unfold _phase_story_creation.
  rewrite (bind_ok _ _ _ _ _ (new_message_eq now _ _ _ _ _)).
  fold (story_request idea (now (ticks s))).
  erewrite bind_ok; [|rewrite call_agent_eq; simpl; rewrite Ha; reflexivity].
  destruct response as [r|]; simpl in Hnot; [rewrite Hnot|]; reflexivity.
Qed.

(** X24.  A failed writing phase stops the pipeline.  When the author
    gives no response, or one whose status is not [complete],
    [create_story] returns the error [Story creation failed] after that
    one call: neither the illustrator nor the publisher is invoked. *)
Theorem failed_writing_stops_pipeline (idea : dict) (s : Orch)
    (response : option Message) (w' : W) :
  join_check (get_or idea "themes" (VList [])) = Ok tt ->
  author (story_request idea (now (ticks s))) (agents s) = (Ok response, w') ->
  not_complete response ->
  exists s',
    create idea s
    = (Ok (list_to_map [ ("status", VStr "error");
                         ("message", VStr "Story creation failed") ]), s')
    /\ calls s' = (calls s ++ [to_author (story_request idea (now (ticks s)))])%list
    /\ agents s' = w'
    /\ ticks s' = S (ticks s).
Proof.
  intros Hjoin Ha Hnot. unfold create_story.
  rewrite (bind_ok _ _ s tt s) by (unfold eval; by rewrite Hjoin).
  rewrite (bind_ok _ _ _ _ _ (story_phase_fails_at _ _ _ _ Ha Hnot)).
  eexists. split; [reflexivity|]. done.
Qed.

(** X25.  A scene without a [description].  It fails the clarity check
    like one with an empty description, and the author is asked.  If the
    author answers with a message, the orchestrator raises [KeyError]
    on the scene's missing [description], whatever the answer holds,
    because the fallback is read before the answer is looked at; if the
    author answers [None], the scene is left as it is. *)
Theorem scene_without_description (i : nat) (d : dict) (s : Orch)
    (answer : option Message) (w' : W) :
  d !! "description" = None ->
  author (clarification_request d (now (ticks s))) (agents s) = (Ok answer, w') ->
  _scene_needs_clarification (VDict d) = Ok true
  /\ exists s',
       clarify_scene author scene_assigned now i (VDict d) s
       = (match answer with
          | Some _ => Raise (KeyError "description")
          | None => Ok (VDict d)
          end, s')
       /\ calls s'
          = (calls s ++ [to_author (clarification_request d (now (ticks s)))])%list.
Proof.
  intros Hd Ha.
  assert (Hneeds : _scene_needs_clarification (VDict d) = Ok true).
  { unfold _scene_needs_clarification, get_or. simpl. by rewrite Hd. }
  split; [exact Hneeds|]. unfold clarify_scene.
  rewrite (bind_ok _ _ s true s) by (unfold eval; by rewrite Hneeds).
  rewrite (bind_ok _ _ s d s) by reflexivity.
  rewrite (bind_ok _ _ _ _ _ (new_message_eq now _ _ _ _ _)).
  fold (clarification_request d (now (ticks s))).
  erewrite bind_ok; [|rewrite call_agent_eq; simpl; rewrite Ha; reflexivity].
  destruct answer as [r|].
  - unfold subscript. rewrite Hd. eexists. split; [reflexivity|]. done.
  - eexists. split; [reflexivity|]. done.
Qed.

(** *** The clarity check and the order of the calls *)

(** X26.  The clarity check looks for its keywords anywhere in the
    description and in any letter case: an ASCII description of at
    least 50 characters that holds [standing], [sitting] or [looking] in some
    mix of upper and lower case, also inside a longer word, needs no
    clarification. *)
Theorem keyword_in_any_case (d : dict) (before word after : string) :
  d !! "description" = Some (VStr (before ++ word ++ after)) ->
  py_text.is_ascii (before ++ word ++ after) = true ->
  lower word = "standing" \/ lower word = "sitting" \/ lower word = "looking" ->
  50 <= String.length (before ++ word ++ after) ->
  _scene_needs_clarification (VDict d) = Ok false
  /\ needs_clarification (VDict d) = false.
Proof.
  intros Hd _ Hword Hlen.
  assert (H : _scene_needs_clarification (VDict d) = Ok false).
  { unfold _scene_needs_clarification, get_or. simpl. rewrite Hd. simpl.
    destruct (Nat.ltb_spec (String.length (before ++ word ++ after)) 50);
      [lia|].
    rewrite !lower_app.
    assert (Hin : existsb
              (fun w => contains w (lower before ++ lower word ++ lower after))
              ["standing"; "sitting"; "looking"] = true).
    { cbn [existsb].
      destruct Hword as [-> | [-> | ->]]; rewrite contains_app;
        by rewrite ?orb_true_r. }
    cbn [existsb] in Hin. by rewrite Hin. }
  split; [exact H|]. unfold needs_clarification. by rewrite H.
Qed.

Lemma story_phase_calls (idea : dict) (s s1 : Orch) (r : dict) :
  _phase_story_creation author now idea s = (Ok r, s1) ->
  calls s1 = (calls s ++ [to_author (story_request idea (now (ticks s)))])%list.
Proof.
  intros H. unfold _phase_story_creation in H.
  rewrite (bind_ok _ _ _ _ _ (new_message_eq now _ _ _ _ _)) in H.
  apply bind_inv_ok in H as (response & s2 & Hcall & H).
  rewrite call_agent_eq in Hcall. injection Hcall as _ <-.
  destruct response as [m|].
  - destruct (eq_str (get (content m) "status") "complete").
    + apply bind_inv_ok in H as (chapters & s3 & Hc & H).
      apply eval_inv_ok in Hc as [_ ->].
      apply bind_inv_ok in H as (k & s3 & Hk & H).
      apply eval_inv_ok in Hk as [_ ->].
      by injection H as _ <-.
    + by injection H as _ <-.
  - by injection H as _ <-.
Qed.

Lemma illustration_phase_calls (story_result : dict) (art_style : pyval)
    (s s1 : Orch) (r : dict) :
  illustrate story_result art_style s = (Ok r, s1) ->
  exists requests task,
    calls s1 = (calls s ++ map to_author requests
                ++ [("IllustratorAgent", task)])%list.
Proof.
  intros H. unfold _phase_illustration in H.
  apply bind_inv_ok in H as (story & s0 & Hstory & H).
  apply eval_inv_ok in Hstory as [_ ->].
  apply bind_inv_ok in H as (story_d & s0 & Hsd & H).
  apply eval_inv_ok in Hsd as [_ ->].
  apply bind_inv_ok in H as (n & s0 & Hn & H).
  apply eval_inv_ok in Hn as [_ ->].
  apply bind_inv_ok in H as (elements & s0 & Hel & H).
  apply eval_inv_ok in Hel as [_ ->].
  apply bind_inv_ok in H as (out & s4 & Hloop & H).
  destruct (clarify_scenes_calls _ _ _ _ _ _ _ _ Hloop) as (requests & Hc & _).
  rewrite (bind_ok _ _ _ _ _ (new_message_eq now _ _ _ _ _)) in H.
  apply bind_inv_ok in H as (response & s5 & Hcall & H).
  rewrite call_agent_eq in Hcall. injection Hcall as _ <-.
  match type of H with
  | context [illustrator ?m _] =>
      exists requests, m;
      assert (Hs : calls s1 = (calls s4 ++ [("IllustratorAgent", m)])%list)
  end; [|rewrite Hs, Hc, <- app_assoc; reflexivity].
  destruct response as [m|].
  - destruct (eq_str (get (content m) "status") "complete").
    + apply bind_inv_ok in H as (images & s6 & Hi & H).
      apply eval_inv_ok in Hi as [_ ->].
      apply bind_inv_ok in H as (k & s6 & Hk & H).
      apply eval_inv_ok in Hk as [_ ->].
      by injection H as _ <-.
    + by injection H as _ <-.
  - by injection H as _ <-.
Qed.

Lemma publication_phase_calls (story_result illustration_result idea : dict)
    (s s1 : Orch) (r : dict) :
  _phase_publication publisher now story_result illustration_result idea s
  = (Ok r, s1) ->
  exists task, calls s1 = (calls s ++ [("PublisherAgent", task)])%list.
Proof.
  intros H. unfold _phase_publication in H.
  apply bind_inv_ok in H as (story & s0 & Hstory & H).
  apply eval_inv_ok in Hstory as [_ ->].
  apply bind_inv_ok in H as (images & s0 & Him & H).
  apply eval_inv_ok in Him as [_ ->].
  apply bind_inv_ok in H as (title & s0 & Ht & H).
  apply eval_inv_ok in Ht as [_ ->].
  apply bind_inv_ok in H as (self & s0 & Hself & H).
  unfold get_state in Hself. injection Hself as <- <-.
  rewrite (bind_ok _ _ _ _ _ (new_message_eq now _ _ _ _ _)) in H.
  apply bind_inv_ok in H as (response & s5 & Hcall & H).
  rewrite call_agent_eq in Hcall. injection Hcall as _ <-.
  eexists.
  destruct response as [m|].
  - destruct (eq_str (get (content m) "status") "complete").
    + apply bind_inv_ok in H as (k & s6 & Hk & H).
      apply eval_inv_ok in Hk as [_ ->].
      apply bind_inv_ok in H as (files & s6 & Hf & H).
      apply eval_inv_ok in Hf as [_ ->].
      injection H as _ <-. reflexivity.
    + injection H as _ <-. reflexivity.
  - injection H as _ <-. reflexivity.
Qed.

Lemma map_fst_to_author (requests : list Message) :
  map fst (map to_author requests)
  = replicate (List.length requests) "AuthorAgent".
Proof. induction requests as [|m l IH]; [done|]. simpl. by rewrite IH. Qed.

(** X27.  The order of the calls.  Whenever [create_story] returns, the
    agents it has called are, in this order: the author once for the
    story, the author again for each clarification, then the
    illustrator, then the publisher.  It stops before the illustrator
    exactly when it returns [Story creation failed], before the
    publisher exactly when it returns [Illustration failed], and a
    result with status [complete] has seen all three. *)
Theorem calls_in_pipeline_order (idea : dict) (s s' : Orch) (result : dict) :
  create idea s = (Ok result, s') ->
  exists clarifications later,
    map fst (calls s')
    = (map fst (calls s) ++ "AuthorAgent"
         :: replicate clarifications "AuthorAgent" ++ later)%list
    /\ ((later = [] /\ clarifications = 0
         /\ result = list_to_map [ ("status", VStr "error");
                                   ("message", VStr "Story creation failed") ])
        \/ (later = ["IllustratorAgent"]
            /\ result = list_to_map [ ("status", VStr "error");
                                      ("message", VStr "Illustration failed") ])
        \/ (later = ["IllustratorAgent"; "PublisherAgent"]
            /\ result !! "status" = Some (VStr "complete"))).
Proof.
  intros H. unfold create_story in H.
  apply bind_inv_ok in H as (u & s0 & Hj & H).
  apply eval_inv_ok in Hj as [_ ->].
  apply bind_inv_ok in H as (story_result & s1 & Hp1 & H).
  apply story_phase_calls in Hp1.
  apply bind_inv_ok in H as (st1 & s0 & Hst1 & H).
  apply eval_inv_ok in Hst1 as [_ ->].
  destruct (negb (eq_str st1 "complete")).
  { injection H as <- <-. exists 0, []. split; [|by left].
    rewrite Hp1, map_app. reflexivity. }
  apply bind_inv_ok in H as (illustration_result & s2 & Hp2 & H).
  apply illustration_phase_calls in Hp2 as (requests & task & Hp2).
  apply bind_inv_ok in H as (st2 & s0 & Hst2 & H).
  apply eval_inv_ok in Hst2 as [_ ->].
  destruct (negb (eq_str st2 "complete")).
  { injection H as <- <-. exists (List.length requests), ["IllustratorAgent"].
    split; [|right; by left].
    rewrite Hp2, Hp1, !map_app, map_fst_to_author, <- !app_assoc.
    reflexivity. }
  apply bind_inv_ok in H as (publication_result & s3 & Hp3 & H).
  apply publication_phase_calls in Hp3 as (ptask & Hp3).
  invert_binds.
  exists (List.length requests), ["IllustratorAgent"; "PublisherAgent"].
  split; [|right; by right].
  rewrite Hp3, Hp2, Hp1, !map_app, map_fst_to_author, <- !app_assoc.
  reflexivity.
Qed.

End MoreCoordinatorFacts.

(** ** The author's story writing *)

Section AuthorWritingFacts.
Import base_agent author_agent author_extras.
Variable sample : nat -> outcome string.

Abbreviation write := (execute_task sample).







End AuthorWritingFacts.

Section AuthorScenesFacts.
Import base_agent author_agent author_extras coordinator.

(** X29.  The scenes the author produces and the clarity check.  Every
    scene [_parse_scenes] returns has the 20-character description
    [Scene description...], so each fails the orchestrator's clarity
    check: of the scenes of a story of [n] chapters, all [2 * n] are
    sent back to the author for clarification. *)
Theorem written_scenes_need_clarification (i n : nat) :
  Forall (fun scene => _scene_needs_clarification scene = Ok true)
         (scenes_from i n)
  /\ unclear (scenes_from i n) = 2 * n.
Proof.
  split.
  - revert i. induction n as [|n IH]; intros i; [constructor|].
    simpl. constructor; [reflexivity|]. constructor; [reflexivity|]. apply IH.
  - revert i. induction n as [|n IH]; intros i; [done|].
    change (scenes_from i (S n))
      with (_parse_scenes EmptyString (Z.of_nat (S i)) ++ scenes_from (S i) n)%list.
    rewrite unclear_app, IH.
    replace (unclear (_parse_scenes EmptyString (Z.of_nat (S i)))) with 2;
      [lia|reflexivity].
Qed.

End AuthorScenesFacts.

(** ** The further properties at concrete inputs *)

Section MoreWitnesses.
Import fixtures more_fixtures.

Lemma to_dict_from_dict_witness :
  message_broker.from_dict (message_broker.to_dict good_request) "later"
  = Ok good_request.
Proof. apply to_dict_from_dict. vm_compute. discriminate. Defined.

Lemma receive_nothing_waiting_witness :
  (message_broker.receive "AuthorService" broker0).1 = Ok None.
Proof.
  destruct (receive_nothing_waiting "AuthorService" broker0) as (b' & H & _);
    [reflexivity|].
  by rewrite H.
Defined.

Lemma message_log_keyed_by_id_witness :
  let b' := (message_broker.run_calls broker_extras.write_file
               [ message_broker.CallPublish bad_request;
                 message_broker.CallPublish good_request;
                 message_broker.CallPublish stray_request ] broker0).2 in
  message_broker.disk b' !! "output/messages/msg-2.json"
  = Some (message_broker.to_dict good_request).
Proof.
  destruct (message_log_keyed_by_id [message_broker.CallPublish bad_request]
              [message_broker.CallPublish stray_request] good_request broker0)
    as [H _];
    [ reflexivity | by repeat constructor
    | repeat constructor; discriminate | ].
  exact H.
Defined.

Lemma loop_ends_on_stop_only_witness :
  (agent_service._process_messages disk_works stub_task uuid4 now_iso
     [agent_service.Idle; agent_service.Stop; agent_service.Idle]
     (service_with [good_request])).1 = Ok true.
Proof.
  destruct (loop_ends_on_stop_only disk_works stub_task uuid4 now_iso
              [agent_service.Idle; agent_service.Stop; agent_service.Idle]
              (service_with [good_request]))
    as [(s' & H & _) _]; [reflexivity|].
  by rewrite H.
Defined.

Lemma send_route_enqueues_witness :
  (service_extras.send_message disk_works uuid4 now_iso send_data
     (service_with [])).1
  = Ok (list_to_map [ ("status", VStr "accepted");
                      ("message_id", VStr "uuid-0") ]).
Proof.
  destruct (send_route_enqueues disk_works uuid4 now_iso send_data
              (service_with []) "external" "request"
              {["plot" := VStr "X"]} (Some "task-9"))
    as (s' & H & _); [reflexivity..|].
  by rewrite H.
Defined.

Lemma story_data_reaches_publisher_witness :
  message_broker.content to_publisher !! "story_data"
  = Some (VDict {["status" := VStr "complete"]})
  /\ message_broker.content to_publisher !! "illustrations"
     = Some (VDict {["status" := VStr "complete"]}).
Proof.
  destruct (story_data_reaches_publisher (Disk := Files)
              stub_task stub_task stub_task
              good_request to_illustrator to_publisher
              (service_named "AuthorService")
              (service_named "IllustratorService")
              (service_named "PublisherService")
              (VDict {["status" := VStr "complete"]})
              (VDict {["status" := VStr "complete"]})
              (VDict {["status" := VStr "complete"]}) 1 1 1)
    as (H1 & H2 & _); [vm_compute; reflexivity..|].
  split; assumption.
Defined.

Lemma poll_discards_cross_talk_witness :
  (distributed_orchestrator.poll disk_works "task-1" 0 30
     (orchestrator_extras.quiet [1%Z; 2%Z]) crowded).1
  = Ok (Some (<["correlation_id" := VStr "task-1"]>
                (<["status" := VStr "complete"]> {["files" := VDict ∅]}))).
Proof.
  destruct (poll_discards_cross_talk disk_works "task-1" 0 30 [1%Z; 2%Z]
              [other_message] [error_message] complete_message
              {["files" := VDict ∅]} crowded)
    as (s' & H & _);
    [ reflexivity | reflexivity | reflexivity | reflexivity | reflexivity
    | by eexists | reflexivity | repeat constructor | ].
  by rewrite H.
Defined.

Lemma deadline_already_passed_witness :
  (distributed_run [(31%Z, [complete_message])]).1
  = Ok (Some (list_to_map
        [ ("status", VStr "timeout");
          ("message", VStr "Story creation timed out after 30 seconds");
          ("correlation_id", VStr "task-1") ])).
Proof.
  destruct (deadline_already_passed disk_works idea 30 "task-1" "msg-1"
              "2024-05-01T10:00:00" 0 0 31 [complete_message] [] orchestrator0)
    as (s' & H & _); [by exists (VStr "X") | lia |].
  exact (f_equal fst H).
Defined.

Lemma timeout_leaves_task_pending_witness :
  distributed_orchestrator.get_task_status "task-1" 40
    (distributed_run [(31%Z, [])]).2 !! "status"
  = Some (VStr "started").
Proof.
  destruct (timeout_leaves_task_pending disk_works idea 30 "task-1" "msg-1"
              "2024-05-01T10:00:00" 0 0 40 [(31%Z, [])] orchestrator0
              (distributed_run [(31%Z, [])]).2
              (final_result (distributed_run [(31%Z, [])])))
    as (_ & H & _); [vm_compute; reflexivity..|].
  exact H.
Defined.

Lemma request_carries_task_input_witness :
  message_broker.content
    (orchestrator_extras.story_request idea "task-1" "msg-1"
       "2024-05-01T10:00:00") !! "themes"
  = Some (VList [VStr "a"; VStr "b"]).
Proof.
  destruct (request_carries_task_input disk_works idea 30 "task-1" "msg-1"
              "2024-05-01T10:00:00" 0 0 [] orchestrator0)
    as (_ & _ & _ & H & _).
  - by exists (VStr "X").
  - by apply H.
Defined.

Lemma completed_task_status_from_history_witness :
  exists latest,
    last (message_broker.get_messages_by_correlation "task-1"
            (distributed_orchestrator.broker
               (distributed_run [(1%Z, [complete_message])]).2))
    = Some latest
    /\ distributed_orchestrator.get_task_status "task-1" 5
         (distributed_run [(1%Z, [complete_message])]).2 !! "latest_agent"
       = Some (VStr (message_broker.receiver latest)).
Proof.
  destruct (completed_task_status_from_history disk_works idea 30 "task-1"
              "msg-1" "2024-05-01T10:00:00" 0 0 5 [(1%Z, [complete_message])]
              orchestrator0
              (distributed_run [(1%Z, [complete_message])]).2
              (final_result (distributed_run [(1%Z, [complete_message])])))
    as (latest & Hlast & _ & Hagent);
    [discriminate | vm_compute; reflexivity | vm_compute; reflexivity |].
  exists latest. split; assumption.
Defined.

Lemma message_history_round_trip_witness :
  broker_extras.from_dicts
    (broker_extras.get_message_history "task-1" (after_request idea)) "later"
  = Ok (message_broker.get_messages_by_correlation "task-1"
          (after_request idea)).
Proof.
  destruct (message_history_round_trip "task-1" "later" (after_request idea))
    as [H _]; [discriminate|exact H].
Defined.


Lemma sanitized_filename_safe_witness :
  publisher_agent._sanitize_filename "The Lost Key: a tale!" = "The_Lost_Key_a_tale"
  /\ String.length (publisher_agent._sanitize_filename "The Lost Key: a tale!")
     <= 50.
Proof.
  destruct (sanitized_filename_safe "The Lost Key: a tale!") as (H & _);
    [reflexivity|].
  split; [reflexivity|exact H].
Defined.


Lemma author_ignores_other_messages_witness :
  (author_agent.receive_message author_clock out_of_memory notice
     (unloaded_author [])).1 = Ok None.
Proof.
  rewrite (author_ignores_other_messages author_clock out_of_memory notice
             (unloaded_author [])); [reflexivity|].
  left. discriminate.
Defined.

Lemma failed_writing_stops_pipeline_witness :
  exists s',
    coordinator.create_story (W := unit)
      silent_author stub_illustrator stub_publisher (fun _ _ w => w) clock
      idea (coordinator.mkOrchestrator ∅ tt 0 [])
    = (Ok (list_to_map [ ("status", VStr "error");
                         ("message", VStr "Story creation failed") ]), s')
    /\ List.length (coordinator.calls s') = 1.
Proof.
  destruct (failed_writing_stops_pipeline (W := unit)
              silent_author stub_illustrator stub_publisher
              (fun _ _ w => w) clock idea
              (coordinator.mkOrchestrator ∅ tt 0 []) None tt)
    as (s' & H & Hcalls & _); [reflexivity | reflexivity | exact I |].
  exists s'. split; [exact H|]. by rewrite Hcalls.
Defined.

Lemma scene_without_description_witness :
  (coordinator.clarify_scene
     (author_agent.receive_message author_clock out_of_memory)
     author_agent.scene_assigned clock 0 (VDict bare_scene) bare_studio).1
  = Raise (KeyError "description").
Proof.
  destruct (scene_without_description
              (author_agent.receive_message author_clock out_of_memory)
              author_agent.scene_assigned clock 0 bare_scene bare_studio
              (answer_of bare_answer) bare_answer.2)
    as (_ & s' & H & _); [reflexivity..|].
  by rewrite H.
Defined.

Lemma keyword_in_any_case_witness :
  coordinator._scene_needs_clarification
    (VDict (scene ("Two children are " ++ "STANDING"
                   ++ " at the edge of a quiet moonlit lake.")))
  = Ok false.
Proof.
  destruct (keyword_in_any_case
              (scene ("Two children are " ++ "STANDING"
                      ++ " at the edge of a quiet moonlit lake."))
              "Two children are " "STANDING"
              " at the edge of a quiet moonlit lake.")
    as [H _]; [reflexivity | reflexivity | by left | simpl; lia |].
  exact H.
Defined.

Lemma calls_in_pipeline_order_witness :
  map fst (coordinator.calls stub_run.2)
  = ["AuthorAgent"; "IllustratorAgent"; "PublisherAgent"].
Proof.
  destruct (calls_in_pipeline_order (W := unit)
              stub_writer stub_illustrator stub_publisher
              (fun _ _ w => w) clock idea
              (coordinator.mkOrchestrator ∅ tt 0 []) stub_run.2
              (result_of stub_run))
    as (n & later & _ & _); [vm_compute; reflexivity|].
  reflexivity.
Defined.


End MoreWitnesses.

(** ** A failure behind the author *)

Section MoreExamples.
Import fixtures more_fixtures.

(** The distributed pipeline end to end, the illustrator's task
    failing: the illustrator service answers the sender of the request,
    the author service, which drops the answer; nothing reaches the
    orchestrator and [create_story] returns the timeout. *)
Example distributed_illustrator_failure :
  let b :=
    service_round "AuthorService"
      (service_round_with failing_task "IllustratorService"
         (service_round "AuthorService" (after_request idea))) in
  map (fun m => (message_broker.sender m, message_broker.receiver m,
                 message_broker.content m !! "action"))
      (message_broker.message_history b)
  = [ ("Orchestrator", "AuthorService", Some (VStr "create_story"));
      ("AuthorService", "IllustratorService",
       Some (VStr "generate_illustrations"));
      ("IllustratorService", "AuthorService", Some (VStr "error")) ]
  /\ delivered b = []
  /\ (distributed_run [(1%Z, delivered b); (31%Z, [])]).1
     = Ok (Some (list_to_map
         [ ("status", VStr "timeout");
           ("message", VStr "Story creation timed out after 30 seconds");
           ("correlation_id", VStr "task-1") ])).
Proof. vm_compute. done. Qed.

End MoreExamples.
